(** * powercontrol: BK1739 power supply driver and coil field control

    A shallow embedding of [powercontrol/powersupply.py] and
    [powercontrol/coil.py].

    - Python [float] is IEEE binary64, modelled by Rocq's primitive floats;
      decimal formatting ([%05.1f], [%5.4f], ...) and [float(str)] are
      computed exactly from the binary value, the way CPython's correctly
      rounded conversions do.
    - Python [str] is a sequence of code points; [bytearray] a list of bytes.
    - A method is a function from the object and its environment (the serial
      line) to an outcome: a normal return, a raised exception, or a call
      that never returns because [Serial.read] blocks on an empty buffer.
    - Console output ([print]) is not part of the model. *)

From Stdlib Require Import ZArith NArith List String Ascii Bool Lia QArith Qabs.
From Stdlib Require Import Floats Strings.Byte DecimalString.
Import ListNotations.

#[local] Set Warnings "-inexact-float".
#[local] Open Scope Z_scope.

(** ** Python values *)

(** A Python [str]: its code points. *)
Definition str := list N.

(** The [str] of a source literal, which is ASCII throughout the two files. *)
Definition lit (s : string) : str :=
  map Byte.to_N (list_byte_of_string s).

(** [bytearray(s, 'utf-8')] for a [str] built from ASCII literals and
    formatted numbers: one byte per character. *)
Definition bytearray (s : string) : list byte := list_byte_of_string s.

Definition str_eqb (a b : str) : bool :=
  if list_eq_dec N.eq_dec a b then true else false.

(** What [PowerSupply._write] can return: [Union[bytearray, float, str]]. *)
Inductive pyval :=
| PyBytes (b : list byte)
| PyFloat (f : float)
| PyStr (s : str).

(** [out == 'literal']: a [bytearray] or a [float] never equals a [str]. *)
Definition eq_str (v : pyval) (s : string) : bool :=
  match v with
  | PyStr t => str_eqb t (lit s)
  | _ => false
  end.

(** [uncertainties.ufloat]: the coil calibrations are passed as such and read
    through their nominal value [.n]. *)
Module ufloat.
Record t := make { n : float; s : float }.
End ufloat.

(** Exceptions. The driver raises plain [Exception(text)]; where the text is
    built with [%], the format and its argument are kept apart, so that the
    argument is not lost in a rendering. *)
Inductive exn :=
| Exception (text : string) (arg : option pyval)
| AttributeError (obj attr : string)
| TypeError (msg : string)
| ValueError (msg : string)
| ZeroDivisionError
| UnicodeDecodeError
| PortNotOpenError.

(** The text of an exception whose argument is a [str]. *)
Definition rendered (e : exn) : option str :=
  match e with
  | Exception text None => Some (lit text)
  | Exception text (Some (PyStr m)) =>
      (* the texts with an argument end in their single [%s] *)
      Some (lit (substring 0 (String.length text - 2) text) ++ m)%list
  | _ => None
  end.

(** ** binary64 arithmetic as Python sees it *)

(** [prec = 53] and [emax = 1024] below are binary64's, from the library. *)

(** [x != y], [x > y], [x < y] on floats (all false on NaN but [!=]). *)
Definition float_ne (x y : float) : bool := negb (PrimFloat.eqb x y).
Definition float_gt (x y : float) : bool := PrimFloat.ltb y x.
Definition float_lt (x y : float) : bool := PrimFloat.ltb x y.

(** [float(i)] for an [int]. *)
Definition float_of_int (i : Z) : float :=
  SF2Prim (binary_normalize prec emax i 0 false).

(** The double nearest to [±n / 10^k] (ties to even): what [float] returns
    for the decimal literal with digits [n] and [k] of them after the point. *)
Definition float_of_decimal (neg : bool) (n : N) (k : N) : float :=
  match n with
  | N0 => if neg then (-0)%float else 0%float
  | Npos p =>
      SF2Prim (SFdiv prec emax (S754_finite neg p 0)
                 (S754_finite false (Z.to_pos (10 ^ Z.of_N k)) 0))
  end.

(** [|x| * 10^p] rounded to an integer, ties to even, for a finite
    [x = m * 2^e]. *)
Definition round_scaled (m : positive) (e : Z) (p : N) : Z :=
  let num := Zpos m * 10 ^ Z.of_N p in
  if 0 <=? e then num * 2 ^ e
  else
    let d := 2 ^ (- e) in
    let q := num / d in
    let r := num mod d in
    match 2 * r ?= d with
    | Lt => q
    | Gt => q + 1
    | Eq => if Z.even q then q else q + 1
    end.

(** *** [%]-formatting with the [f] conversion *)

Definition digits (n : Z) : string :=
  NilZero.string_of_uint (N.to_uint (Z.to_N n)).

Fixpoint repeat_char (c : ascii) (k : nat) : string :=
  match k with
  | O => EmptyString
  | S k' => String c (repeat_char c k')
  end.

Definition pad_left (c : ascii) (width : nat) (s : string) : string :=
  (repeat_char c (width - String.length s) ++ s)%string.

(** The digits of [n / 10^p] with [p] of them after the point. *)
Definition fixed_digits (n : Z) (p : N) : string :=
  let scale := 10 ^ Z.of_N p in
  (digits (n / scale) ++
   (if (p =? 0)%N then ""
    else "." ++ pad_left "0" (N.to_nat p) (digits (n mod scale))))%string.

(** ['%<width>.<precision>f' % x], with the [0] flag when [zero] is set.
    CPython rounds the exact binary value, ties to even; [nan] and [inf]
    are padded like numbers. *)
Definition format_f (zero : bool) (width : nat) (precision : N) (x : float)
  : string :=
  let '(neg, body) :=
    match Prim2SF x with
    | S754_nan => (false, "nan"%string)
    | S754_infinity sg => (sg, "inf"%string)
    | S754_zero sg => (sg, fixed_digits 0 precision)
    | S754_finite sg m e => (sg, fixed_digits (round_scaled m e precision) precision)
    end in
  let sign := if neg then "-"%string else ""%string in
  if zero then (sign ++ pad_left "0" (width - String.length sign) body)%string
  else pad_left " " width (sign ++ body)%string.

(** *** Unicode decimal digits

    [re]'s [\d] and [float] both read the decimal-digit property of a code
    point (category Nd). The table belongs to the Python runtime, so the model
    takes it as an interface, with the facts about ASCII it relies on. *)
Class UnicodeData := {
  decimal : N -> option N;
  decimal_lt : forall c d, decimal c = Some d -> (d < 10)%N;
  decimal_ascii : forall c, (c < 128)%N ->
    decimal c = if ((48 <=? c) && (c <=? 57))%N then Some (c - 48)%N else None
}.

Section Text.
Context {U : UnicodeData}.

Definition is_digit (c : N) : bool :=
  match decimal c with Some _ => true | None => false end.

(** *** [float(str)]

    The literals that reach [float] in this program are a formatted number
    or a token matched by [\d+\.\d]; exponents and the other spellings
    [float] accepts are outside the model and read as a [ValueError]. *)
Fixpoint lstrip (s : str) : str :=
  match s with
  | c :: r => if (c =? 32)%N then lstrip r else s
  | [] => []
  end.

Definition strip (s : str) : str := rev (lstrip (rev (lstrip s))).

Fixpoint decimal_digits (s : str) (acc cnt : N) : N * N * str :=
  match s with
  | c :: r =>
      match decimal c with
      | Some d => decimal_digits r (acc * 10 + d)%N (cnt + 1)%N
      | None => (acc, cnt, s)
      end
  | [] => (acc, cnt, [])
  end.

(** A leading sign, taken off. *)
Definition signed (s : str) : bool * str :=
  match s with
  | c :: r =>
      if (c =? 45)%N then (true, r)
      else if (c =? 43)%N then (false, r)
      else (false, s)
  | [] => (false, s)
  end.

Definition py_float (s : str) : option float :=
  let '(neg, s) := signed (strip s) in
  if str_eqb s (lit "nan") then Some nan
  else if str_eqb s (lit "inf") then
    Some (if neg then neg_infinity else infinity)
  else
    let '(ip, ni, r) := decimal_digits s 0%N 0%N in
    match r with
    | [] => if (ni =? 0)%N then None else Some (float_of_decimal neg ip 0)
    | c :: r' =>
        if (c =? 46)%N then
          let '(n, nf, r'') := decimal_digits r' ip 0%N in
          match r'' with
          | [] => if (ni + nf =? 0)%N then None
                  else Some (float_of_decimal neg n nf)
          | _ => None
          end
        else None
    end.

(** *** [re.search(r'\d+\.\d', s)] *)

(** The match anchored at the head of [s]: the run of digits, the point and
    one digit. [seen] tells that a digit has been consumed. As the point is
    no digit, giving back digits of the run never helps. *)
Fixpoint match_here (s : str) (seen : bool) : option str :=
  match s with
  | c :: r =>
      if is_digit c then option_map (cons c) (match_here r true)
      else if seen && (c =? 46)%N then
        match r with
        | d :: _ => if is_digit d then Some [c; d] else None
        | [] => None
        end
      else None
  | [] => None
  end.

(** [temp.group()] of the leftmost match, [None] when there is none. *)
Fixpoint re_search (s : str) : option str :=
  match s with
  | [] => None
  | c :: r =>
      match match_here s false with
      | Some t => Some t
      | None => re_search r
      end
  end.
End Text.

(** *** [bytes.decode("utf-8")], strict *)

Definition continuation (b : byte) : option N :=
  let n := Byte.to_N b in
  if ((128 <=? n) && (n <=? 191))%N then Some (n - 128)%N else None.

Fixpoint utf8_decode (bs : list byte) : option str :=
  match bs with
  | [] => Some []
  | b0 :: r0 =>
      let n0 := Byte.to_N b0 in
      if (n0 <? 128)%N then option_map (cons n0) (utf8_decode r0)
      else if (n0 <? 194)%N then None
      else if (n0 <? 224)%N then
        match r0 with
        | b1 :: r1 =>
            match continuation b1 with
            | Some c1 =>
                option_map (cons ((n0 - 192) * 64 + c1)%N) (utf8_decode r1)
            | None => None
            end
        | _ => None
        end
      else if (n0 <? 240)%N then
        match r0 with
        | b1 :: b2 :: r2 =>
            match continuation b1, continuation b2 with
            | Some c1, Some c2 =>
                let cp := ((n0 - 224) * 4096 + c1 * 64 + c2)%N in
                if ((cp <? 2048) || ((55296 <=? cp) && (cp <=? 57343)))%N
                then None
                else option_map (cons cp) (utf8_decode r2)
            | _, _ => None
            end
        | _ => None
        end
      else if (n0 <? 245)%N then
        match r0 with
        | b1 :: b2 :: b3 :: r3 =>
            match continuation b1, continuation b2, continuation b3 with
            | Some c1, Some c2, Some c3 =>
                let cp := ((n0 - 240) * 262144 + c1 * 4096 + c2 * 64 + c3)%N in
                if ((cp <? 65536) || (1114111 <? cp))%N then None
                else option_map (cons cp) (utf8_decode r3)
            | _, _, _ => None
            end
        | _ => None
        end
      else None
  end.

(** ** Outcomes of a method call *)

(** The environment of an object [O]: the object itself, every byte string
    handed to [Serial.write] so far ([wire], oldest first), and the
    instrument at the far end of the line. The instrument is any
    deterministic device: what it sends back after a write is a function of
    everything written to it up to and including that write. *)
Record Env (O : Type) := mkEnv {
  obj : O;
  wire : list (list byte);
  device : list (list byte) -> list byte
}.
Arguments mkEnv {O}.
Arguments obj {O}.
Arguments wire {O}.
Arguments device {O}.

Inductive outcome (O A : Type) :=
| Returns (a : A) (e : Env O)
| Raises (x : exn) (e : Env O)
| Blocks (e : Env O).
Arguments Returns {O A}.
Arguments Raises {O A}.
Arguments Blocks {O A}.

Definition M (O A : Type) := Env O -> outcome O A.

Definition ret {O A} (a : A) : M O A := fun e => Returns a e.

Definition bind {O A B} (m : M O A) (k : A -> M O B) : M O B :=
  fun e =>
    match m e with
    | Returns a e' => k a e'
    | Raises x e' => Raises x e'
    | Blocks e' => Blocks e'
    end.

Definition raise {O A} (x : exn) : M O A := fun e => Raises x e.
Definition result {O A} (r : exn + A) : M O A :=
  match r with
  | inl x => raise x
  | inr a => ret a
  end.
Definition block {O A} : M O A := fun e => Blocks e.
Definition self {O} : M O O := fun e => Returns (obj e) e.
Definition update {O} (f : O -> O) : M O unit :=
  fun e => Returns tt (mkEnv (f (obj e)) (wire e) (device e)).

(** Run a method of a component object [S] held in a field of [T]. *)
Definition zoom {S T A} (get : T -> S) (set : S -> T -> T) (m : M S A) : M T A :=
  fun e =>
    let back (e' : Env S) := mkEnv (set (obj e') (obj e)) (wire e') (device e') in
    match m (mkEnv (get (obj e)) (wire e) (device e)) with
    | Returns a e' => Returns a (back e')
    | Raises x e' => Raises x (back e')
    | Blocks e' => Blocks (back e')
    end.

Declare Scope py_scope.
Delimit Scope py_scope with py.
Notation "x <- m ;; k" := (bind m (fun x => k))
  (at level 100, m at next level, right associativity) : py_scope.
Notation "m ;; k" := (bind m (fun _ => k))
  (at level 100, right associativity) : py_scope.

(** The environment an outcome ends in. *)
Definition final {O A} (r : outcome O A) : Env O :=
  match r with
  | Returns _ e => e
  | Raises _ e => e
  | Blocks e => e
  end.

(** [x / y] on floats: Python raises on a zero divisor. *)
Definition py_div {O} (x y : float) : M O float :=
  if PrimFloat.eqb y 0 then raise ZeroDivisionError else ret (x / y)%float.

(** [len(out)]. *)
Definition py_len {O} (v : pyval) : M O nat :=
  match v with
  | PyBytes b => ret (List.length b)
  | PyStr t => ret (List.length t)
  | PyFloat _ => raise (TypeError "object of type 'float' has no len()")
  end.

(** [type(out) == float]. *)
Definition is_float (v : pyval) : bool :=
  match v with
  | PyFloat _ => true
  | _ => false
  end.

(** [out *= x] for a float [x]: defined on a float only. *)
Definition times_float {O} (v : pyval) (x : float) : M O float :=
  match v with
  | PyFloat f => ret (f * x)%float
  | _ => raise (TypeError "can't multiply sequence by non-int of type 'float'")
  end.

(** ** The serial port (pyserial) *)

Module Serial.
Record t := make { is_open : bool; in_buffer : list byte }.
End Serial.

(** Reading a message out of the input buffer, as the two nested loops of
    [_write] do with [inWaiting] and [read]. The result is [None] when a
    [read] finds the buffer empty: the port is opened without a timeout, so
    that [read] does not return. *)

Definition is_start (b : byte) : bool := Byte.eqb b x13.
Definition is_stop (b : byte) : bool := Byte.eqb b x11 || Byte.eqb b x0d.

(** Inside the message: accumulate up to the stop byte or the carriage
    return. *)
Fixpoint read_until_stop (buf out : list byte) : option (list byte) :=
  match buf with
  | [] => None
  | b :: rest =>
      if is_stop b then Some out else read_until_stop rest (out ++ [b])
  end.

(** Waiting for the start byte. Once the message is read the buffer is
    reset, which ends the outer loop. *)
Fixpoint read_message (buf : list byte) : option (list byte) :=
  match buf with
  | [] => Some []
  | b :: rest =>
      if is_start b then read_until_stop rest [] else read_message rest
  end.

(** ** [class PowerSupply] *)

Module PowerSupply.

Record t := make {
  portAddress : str;
  portOpen : bool;
  ser : option Serial.t
}.

Definition set_portOpen (b : bool) (o : t) : t :=
  make (portAddress o) b (ser o).
Definition set_ser (s : Serial.t) (o : t) : t :=
  make (portAddress o) (portOpen o) (Some s).

(** [PowerSupply(portAddress)]. *)
Definition __init__ (portAddress : str) : t := make portAddress false None.

(** [self.ser], which exists once a port has been opened. *)
Definition the_ser : M t Serial.t :=
  (o <- self ;;
   match ser o with
   | Some s => ret s
   | None => raise (AttributeError "PowerSupply" "ser")
   end)%py.

(** [self.ser], open. *)
Definition open_ser : M t Serial.t :=
  (s <- the_ser ;;
   if Serial.is_open s then ret s else raise PortNotOpenError)%py.

(** [self.ser.write(data)]: the bytes go out, and the instrument's reply
    to them is appended to the input buffer. *)
Definition ser_write (data : list byte) : M t unit :=
  (s <- open_ser ;;
   fun e =>
     let w := (wire e ++ [data])%list in
     let s' := Serial.make true (Serial.in_buffer s ++ device e w) in
     Returns tt (mkEnv (set_ser s' (obj e)) w (device e)))%py.

(** [self.ser.reset_input_buffer()]. *)
Definition ser_reset_input_buffer : M t unit :=
  (s <- open_ser ;; update (set_ser (Serial.make true [])))%py.

(** [self.ser.close()]. *)
Definition ser_close : M t unit :=
  (s <- the_ser ;; update (set_ser (Serial.make false (Serial.in_buffer s))))%py.

Definition open_port : M t unit :=
  (update (set_ser (Serial.make true [])) ;;
   update (set_portOpen true))%py.

Definition close_port : M t unit :=
  (ser_reset_input_buffer ;;
   ser_close ;;
   update (set_portOpen false))%py.

Section Methods.
Context {U : UnicodeData}.

(** The second half of [_write]: what is returned, or raised, for the
    bytes [out] collected from the buffer. *)
Definition decode_out (out : list byte) : exn + pyval :=
  if Nat.eqb (List.length out) 0 then inr (PyBytes out)
  else
    match utf8_decode out with
    | None => inl UnicodeDecodeError
    | Some text =>
        match re_search text with
        | Some token =>
            match py_float token with
            | Some f => inr (PyFloat f)
            | None => inl (ValueError "could not convert string to float")
            end
        | None => inr (PyStr text)
        end
    end.

Definition _write (command : list byte) : M t pyval :=
  (ser_write (command ++ [x0d]) ;;
   (* time.sleep(0.05): the reply, if there is one, has arrived *)
   s <- open_ser ;;
   (* both loops leave the buffer empty: read to its end, or reset *)
   update (set_ser (Serial.make true [])) ;;
   match read_message (Serial.in_buffer s) with
   | None => block
   | Some out => result (decode_out out)
   end)%py.

Definition parseErrorMessages (message : pyval) : M t unit :=
  if eq_str message "Syntax Error" then
    raise (Exception ("Syntax Error. Command not a number" ++
                      " or value too high for the power supply") None)
  else if eq_str message "Out Of Range" then
    raise (Exception ("Input number out of range! (Likly too small." ++
                      " Minimum is 0.01V or 0.1mA)") None)
  else
    raise (Exception "Strange message receved: %s" (Some message)).

Definition check_mode : M t pyval :=
  (out <- _write (bytearray "STAT?") ;;
   (if negb (eq_str out "CV") && negb (eq_str out "CC")
    then parseErrorMessages out else ret tt) ;;
   ret out)%py.

Definition _automated_open : M t bool :=
  (o <- self ;;
   let initial_port_state := portOpen o in
   (if negb initial_port_state then open_port else ret tt) ;;
   ret initial_port_state)%py.

Definition _automated_close (initial_port_state : bool) : M t unit :=
  (o <- self ;;
   if negb initial_port_state && portOpen o then close_port else ret tt)%py.

Definition get_identifier : M t pyval := _write (bytearray "IDN?").

Definition set_voltage (voltage_value : float) : M t unit :=
  (initial_port_state <- _automated_open ;;
   let voltage := format_f true 5 2 voltage_value in
   out <- _write (bytearray ("VOLT " ++ voltage)) ;;
   n <- py_len out ;;
   (if negb (Nat.eqb n 0) then parseErrorMessages out else ret tt) ;;
   _automated_close initial_port_state)%py.

Definition get_voltage : M t pyval :=
  (initial_port_state <- _automated_open ;;
   mode <- check_mode ;;
   (if negb (eq_str mode "CV")
    then raise (Exception ("Incorrect mode!" ++
                           " Supply is in constant current mode.") None)
    else ret tt) ;;
   out <- _write (bytearray "VOLT?") ;;
   (if negb (is_float out) then parseErrorMessages out else ret tt) ;;
   _automated_close initial_port_state ;;
   ret out)%py.

Definition get_current : M t float :=
  (initial_port_state <- _automated_open ;;
   out <- _write (bytearray "CURR?") ;;
   (if negb (is_float out) then parseErrorMessages out else ret tt) ;;
   out <- times_float out 1e-3 ;;
   _automated_close initial_port_state ;;
   ret out)%py.

Definition set_current (current_value : float) : M t unit :=
  (initial_port_state <- _automated_open ;;
   mode <- check_mode ;;
   (if negb (eq_str mode "CC")
    then raise (Exception ("Incorrect mode!" ++
                           " Supply is in constant voltage mode.") None)
    else ret tt) ;;
   let current_value := (current_value * 1e3)%float in
   let current := format_f true 5 1 current_value in
   out <- _write (bytearray ("CURR " ++ current)) ;;
   n <- py_len out ;;
   (if negb (Nat.eqb n 0) then parseErrorMessages out else ret tt) ;;
   _automated_close initial_port_state)%py.
End Methods.
End PowerSupply.

(** ** [class Coil] *)

Module Coil.

Record t := make {
  supply : PowerSupply.t;
  field_gain : float;
  maxPowerSupplyCurrent : float;
  minPowerSupplyCurrent : float;
  appliedMaxField : float;
  appliedMinField : float;
  current : float;
  coil_field : float
}.

Definition set_supply (p : PowerSupply.t) (o : t) : t :=
  make p (field_gain o) (maxPowerSupplyCurrent o) (minPowerSupplyCurrent o)
    (appliedMaxField o) (appliedMinField o) (current o) (coil_field o).
Definition set_current_attr (c : float) (o : t) : t :=
  make (supply o) (field_gain o) (maxPowerSupplyCurrent o)
    (minPowerSupplyCurrent o) (appliedMaxField o) (appliedMinField o)
    c (coil_field o).
Definition set_coil_field_attr (f : float) (o : t) : t :=
  make (supply o) (field_gain o) (maxPowerSupplyCurrent o)
    (minPowerSupplyCurrent o) (appliedMaxField o) (appliedMinField o)
    (current o) f.

Section Methods.
Context {U : UnicodeData}.

(** [self.supply.<method>(...)]. *)
Definition on_supply {A} (m : M PowerSupply.t A) : M t A :=
  zoom supply set_supply m.

(** [Coil(address, field_gain)], run on a line with no object yet. When
    the query of the current raises, no coil is made. *)
Definition __init__ (address : str) (field_gain : ufloat.t) : M unit t :=
  fun e =>
    let gain := ufloat.n field_gain in
    let maxPowerSupplyCurrent := 0.9990%float in
    let minPowerSupplyCurrent := 0.001%float in
    let fresh :=
      mkEnv (PowerSupply.__init__ address) (wire e) (device e) in
    let leave (e' : Env PowerSupply.t) := mkEnv tt (wire e') (device e') in
    match PowerSupply.get_current fresh with
    | Returns c e' =>
        Returns
          (make (obj e') gain maxPowerSupplyCurrent minPowerSupplyCurrent
             (gain * maxPowerSupplyCurrent)%float
             (gain * minPowerSupplyCurrent)%float
             c (c * gain)%float)
          (leave e')
    | Raises x e' => Raises x (leave e')
    | Blocks e' => Blocks (leave e')
    end.

(** [float('%5.4f' % current)]. *)
Definition to_supply_precision (current : float) : M t float :=
  match py_float (lit (format_f false 5 4 current)) with
  | Some c => ret c
  | None => raise (ValueError "could not convert string to float")
  end.

Definition set_coil_field (field_value : float) : M t unit :=
  (o <- self ;;
   if float_ne field_value (coil_field o) then
     current' <- py_div field_value (field_gain o) ;;
     c <- to_supply_precision current' ;;
     update (set_current_attr c) ;;
     o <- self ;;
     update (set_coil_field_attr (current o * field_gain o)%float) ;;
     o <- self ;;
     on_supply (PowerSupply.set_current (current o))
   else
     (* print('coil already set to %s' % self.coil_field) *)
     ret tt)%py.

Definition get_coil_field : M t float :=
  (c <- on_supply PowerSupply.get_current ;;
   update (set_current_attr c) ;;
   o <- self ;;
   update (set_coil_field_attr (current o * field_gain o)%float) ;;
   o <- self ;;
   ret (coil_field o))%py.
End Methods.
End Coil.

(** ** [class CoilWithCorrection(Coil)] *)

Module CoilWithCorrection.

(** The instance: the attributes [Coil.__init__] sets ([base]) and those
    of the subclass. [smallFieldValue] is first assigned by a method, so an
    instance may lack it. *)
Record t := make {
  base : Coil.t;
  dacName : str;
  smallCoilFieldGain : ufloat.t;
  voltageGain : Z;
  dacVoltage : float;
  minPowerSupplyCurrentStep : float;
  smallCoilField : float;
  net_coil_field : float;
  smallFieldValue : option float
}.

Definition set_base (b : Coil.t) (o : t) : t :=
  make b (dacName o) (smallCoilFieldGain o) (voltageGain o) (dacVoltage o)
    (minPowerSupplyCurrentStep o) (smallCoilField o) (net_coil_field o)
    (smallFieldValue o).
Definition set_dacVoltage (v : float) (o : t) : t :=
  make (base o) (dacName o) (smallCoilFieldGain o) (voltageGain o) v
    (minPowerSupplyCurrentStep o) (smallCoilField o) (net_coil_field o)
    (smallFieldValue o).
Definition set_net_coil_field (v : float) (o : t) : t :=
  make (base o) (dacName o) (smallCoilFieldGain o) (voltageGain o)
    (dacVoltage o) (minPowerSupplyCurrentStep o) (smallCoilField o) v
    (smallFieldValue o).
Definition set_smallFieldValue (v : float) (o : t) : t :=
  make (base o) (dacName o) (smallCoilFieldGain o) (voltageGain o)
    (dacVoltage o) (minPowerSupplyCurrentStep o) (smallCoilField o)
    (net_coil_field o) (Some v).

(** What a name resolves to on an instance. *)
Inductive attribute :=
| Data                                  (* an instance attribute *)
| Getter (m : M t float)                (* a method of no argument *)
| Setter (m : float -> M t unit)        (* a method of one float *)
| OtherMethod.                          (* [__init__], [setField] *)

Section Methods.
Context {U : UnicodeData}.

(** A method inherited from [Coil]. *)
Definition inherited {A} (m : M Coil.t A) : M t A := zoom base set_base m.

Definition __init__ (powersupplyAddress : str) (field_gain : ufloat.t)
  (dacName : str) (smallCoilFieldGain : ufloat.t) : M unit t :=
  (b <- Coil.__init__ powersupplyAddress field_gain ;;
   let smallCoilField := 0.0%float in
   ret (make b dacName smallCoilFieldGain 250 0.0%float 0.0001%float
          smallCoilField (Coil.coil_field b + smallCoilField)%float
          None))%py.

Definition setSmallCoilField (fieldValue : float) : M t unit :=
  (update (set_smallFieldValue fieldValue) ;;
   o <- self ;;
   current <- py_div fieldValue (ufloat.n (smallCoilFieldGain o)) ;;
   o <- self ;;
   update (set_dacVoltage (current * float_of_int (voltageGain o))%float))%py.

(** Attribute lookup on an instance: its own attributes, then the class,
    then [Coil]. ([object] has no public name.) *)
Definition instance_dict (o : t) : list string :=
  ["supply"; "field_gain"; "maxPowerSupplyCurrent";
   "minPowerSupplyCurrent"; "appliedMaxField"; "appliedMinField";
   "current"; "coil_field"; "dacName"; "smallCoilFieldGain";
   "voltageGain"; "dacVoltage"; "minPowerSupplyCurrentStep";
   "smallCoilField"; "net_coil_field"]%string
  ++ match smallFieldValue o with
     | Some _ => ["smallFieldValue"%string]
     | None => []
     end.

Definition class_dict : list (string * attribute) :=
  [("__init__", OtherMethod);
   ("setSmallCoilField", Setter setSmallCoilField);
   ("setField", OtherMethod)]%string.

Definition Coil_dict : list (string * attribute) :=
  [("__init__", OtherMethod);
   ("set_coil_field", Setter (fun x => inherited (Coil.set_coil_field x)));
   ("get_coil_field", Getter (inherited Coil.get_coil_field))]%string.

Fixpoint assoc (name : string) (d : list (string * attribute))
  : option attribute :=
  match d with
  | [] => None
  | (k, v) :: r => if String.eqb k name then Some v else assoc name r
  end.

Definition getattr (o : t) (name : string) : option attribute :=
  if existsb (String.eqb name) (instance_dict o) then Some Data
  else assoc name (class_dict ++ Coil_dict).

(** [self.<name>(x)]. *)
Definition call (name : string) (x : float) : M t unit :=
  (o <- self ;;
   match getattr o name with
   | None => raise (AttributeError "CoilWithCorrection" name)
   | Some (Setter m) => m x
   | Some Data => raise (TypeError "object is not callable")
   | Some _ => raise (TypeError "wrong number of positional arguments")
   end)%py.

(** [self.smallFieldValue]. *)
Definition the_smallFieldValue : M t float :=
  (o <- self ;;
   match smallFieldValue o with
   | Some v => ret v
   | None => raise (AttributeError "CoilWithCorrection" "smallFieldValue")
   end)%py.

(** The band around the large coil's field in which only the small coil
    is moved: [(minimumChangeInField, maximumChangeInField)]. *)
Definition change_band (o : t) : float * float :=
  let minimumcoil_fieldStep :=
    (minPowerSupplyCurrentStep o * Coil.field_gain (base o))%float in
  let smallCoilFieldRange := (2.5 * minimumcoil_fieldStep)%float in
  let coil_fieldOffset := (minimumcoil_fieldStep * 3.5)%float in
  ((coil_fieldOffset - smallCoilFieldRange)%float,
   (coil_fieldOffset + smallCoilFieldRange)%float).

(** [setField], with the call that renormalizes the large coil left
    open. *)
Definition setField_with (renormalize : float -> M t unit)
  (fieldValue : float) : M t unit :=
  (o <- self ;;
   let minimumcoil_fieldStep :=
     (minPowerSupplyCurrentStep o * Coil.field_gain (base o))%float in
   let coil_fieldOffset := (minimumcoil_fieldStep * 3.5)%float in
   let '(minimumChangeInField, maximumChangeInField) := change_band o in
   update (set_smallFieldValue (fieldValue - Coil.coil_field (base o))%float) ;;
   delta <- the_smallFieldValue ;;
   (if float_gt delta maximumChangeInField
       || float_lt delta minimumChangeInField
    then renormalize (fieldValue - coil_fieldOffset)%float
    else ret tt) ;;
   o <- self ;;
   setSmallCoilField (fieldValue - Coil.coil_field (base o))%float ;;
   update (set_net_coil_field fieldValue))%py.

(** [setField] as written: the large coil is set through
    [self.setcoil_field]. *)
Definition setField : float -> M t unit :=
  setField_with (call "setcoil_field").
End Methods.
End CoilWithCorrection.

(** ** A test bench

    A BK1739 reduced to what the driver talks to: it is in one mode, keeps
    the text of the last voltage and current it was given, and frames every
    reply between the start and the stop byte. A set command is acknowledged
    by an empty frame. *)

Module Bench.

Record state := make {
  mode : string;
  volts : string;
  milliamps : string
}.

Definition frame (payload : string) : list byte :=
  (x13 :: list_byte_of_string payload ++ [x11])%list.

(** A command without its carriage return, if it ends in one. *)
Definition command_of (written : list byte) : option string :=
  match rev written with
  | x0d :: r => Some (string_of_list_byte (rev r))
  | _ => None
  end.

Definition step (st : state) (written : list byte) : state * list byte :=
  match command_of written with
  | None => (st, [])
  | Some line =>
      if String.eqb line "STAT?" then (st, frame (mode st))
      else if String.eqb line "IDN?" then
        (st, frame "B+K PRECISION 1739 Revision 1.3")
      else if String.eqb line "VOLT?" then (st, frame (volts st))
      else if String.eqb line "CURR?" then (st, frame (milliamps st))
      else if String.prefix "VOLT " line then
        (make (mode st) (substring 5 (String.length line - 5) line)
           (milliamps st),
         frame "")
      else if String.prefix "CURR " line then
        (make (mode st) (volts st)
           (substring 5 (String.length line - 5) line),
         frame "")
      else (st, frame "Syntax Error")
  end.

Fixpoint run (st : state) (history : list (list byte)) : state * list byte :=
  match history with
  | [] => (st, [])
  | w :: r =>
      let (st', reply) := step st w in
      match r with
      | [] => (st', reply)
      | _ => run st' r
      end
  end.

(** The instrument as the far end of the line. *)
Definition device (st : state) (history : list (list byte)) : list byte :=
  snd (run st history).

Definition line (st : state) : Env unit := mkEnv tt [] (device st).

(** Unicode 14's decimal digits: the first code point of each block of
    ten. *)
Definition digit_blocks : list N :=
  [48; 1632; 1776; 1984; 2406; 2534; 2662; 2790; 2918; 3046; 3174; 3302;
   3430; 3558; 3664; 3792; 3872; 4160; 4240; 6112; 6160; 6470; 6608; 6784;
   6800; 6992; 7088; 7232; 7248; 42528; 43216; 43264; 43472; 43504; 43600;
   44016; 65296; 66720; 68912; 69734; 69872; 69942; 70096; 70384; 70736;
   70864; 71248; 71360; 71472; 71904; 72016; 72784; 73040; 73120; 92768;
   92864; 93008; 120782; 120792; 120802; 120812; 120822; 123200; 123632;
   125264; 130032]%N.

Fixpoint decimal_in (blocks : list N) (c : N) : option N :=
  match blocks with
  | [] => None
  | b :: r =>
      if ((b <=? c) && (c <? b + 10))%N then Some (c - b)%N
      else decimal_in r c
  end.
End Bench.

(** * Vocabulary of the statements *)

Section PortVocabulary.
Import PowerSupply.

(** The port can be written to and read from. *)
Definition ready (o : t) : bool :=
  match ser o with
  | Some s => Serial.is_open s
  | None => false
  end.

(** What using a port that is not [ready] raises. *)
Definition unready_error (o : t) : exn :=
  match ser o with
  | None => AttributeError "PowerSupply" "ser"
  | Some _ => PortNotOpenError
  end.

(** The flag [portOpen] tells the truth about the port. *)
Definition consistent (o : t) : Prop := portOpen o = ready o.

(** The environment after [_write] has sent [command] and emptied the input
    buffer. *)
Definition sent (command : list byte) (e : Env t) : Env t :=
  mkEnv (set_ser (Serial.make true []) (obj e))
        (wire e ++ [command ++ [x0d]]) (device e).

(** The message [_write] reads after sending [command]. *)
Definition reply (command : list byte) (e : Env t) : option (list byte) :=
  match ser (obj e) with
  | Some s =>
      read_message
        (Serial.in_buffer s ++ device e (wire e ++ [command ++ [x0d]]))
  | None => None
  end.

(** The environment after [_automated_open]. *)
Definition opened (e : Env t) : Env t :=
  if portOpen (obj e) then e
  else mkEnv (make (portAddress (obj e)) true (Some (Serial.make true [])))
             (wire e) (device e).

(** The environment after [close_port] on a port that is [ready]. *)
Definition closed (e : Env t) : Env t :=
  mkEnv (make (portAddress (obj e)) false
           (Some (Serial.make false [])))
        (wire e) (device e).

(** A computation leaves the port as it is, however it ends. *)
Definition keeps (e e' : Env t) : Prop :=
  portOpen (obj e') = portOpen (obj e) /\
  (ready (obj e) = true -> ready (obj e') = true).

Definition keeps_port {A} (m : M t A) : Prop :=
  forall e, keeps e (final (m e)).

(** A computation started on an open port returns with the port closed, and
    leaves it open when it does not return. *)
Definition closes {A} (m : M t A) : Prop :=
  forall e, portOpen (obj e) = true -> ready (obj e) = true ->
    match m e with
    | Returns _ e' => portOpen (obj e') = false /\ ready (obj e') = false
    | Raises _ e' | Blocks e' =>
        portOpen (obj e') = true /\ ready (obj e') = true
    end.

(** What a computation wrote on the line. *)
Definition written {O A} (m : M O A) (e : Env O) : list (list byte) :=
  skipn (List.length (wire e)) (wire (final (m e))).

Definition returned {O A} (r : outcome O A) : bool :=
  match r with
  | Returns _ _ => true
  | _ => false
  end.

End PortVocabulary.

(** The four operations on the instrument. *)
Inductive operation :=
| SetVoltage (voltage_value : float)
| GetVoltage
| SetCurrent (current_value : float)
| GetCurrent.

Section Operations.
Context {U : UnicodeData}.

Definition perform (op : operation) : M PowerSupply.t unit :=
  match op with
  | SetVoltage v => PowerSupply.set_voltage v
  | GetVoltage => (_ <- PowerSupply.get_voltage ;; ret tt)%py
  | SetCurrent c => PowerSupply.set_current c
  | GetCurrent => (_ <- PowerSupply.get_current ;; ret tt)%py
  end.

(** The four ways [_write] can end. *)
Variant write_outcome (command : list byte) (e : Env PowerSupply.t)
  : outcome PowerSupply.t pyval -> Prop :=
| write_unready :
    ready (obj e) = false ->
    write_outcome command e (Raises (unready_error (obj e)) e)
| write_blocks :
    ready (obj e) = true -> reply command e = None ->
    write_outcome command e (Blocks (sent command e))
| write_raises out x :
    ready (obj e) = true -> reply command e = Some out ->
    PowerSupply.decode_out out = inl x ->
    write_outcome command e (Raises x (sent command e))
| write_returns out v :
    ready (obj e) = true -> reply command e = Some out ->
    PowerSupply.decode_out out = inr v ->
    write_outcome command e (Returns v (sent command e)).

End Operations.

(** The command an operation is there to send (without the carriage
    return). *)
Definition command (op : operation) : list byte :=
  match op with
  | SetVoltage v => bytearray ("VOLT " ++ format_f true 5 2 v)
  | GetVoltage => bytearray "VOLT?"
  | SetCurrent c => bytearray ("CURR " ++ format_f true 5 1 (c * 1e3)%float)
  | GetCurrent => bytearray "CURR?"
  end.

(** The mode query. *)
Definition STAT : list byte := bytearray "STAT?".

(** The operations that ask for a mode, with the mode they need. *)
Definition required_mode (op : operation) : option string :=
  match op with
  | GetVoltage => Some "CV"%string
  | SetCurrent _ => Some "CC"%string
  | _ => None
  end.

(** The incorrect-mode error of a guarded operation. *)
Definition incorrect_mode (op : operation) : exn :=
  match op with
  | SetCurrent _ =>
      Exception "Incorrect mode! Supply is in constant voltage mode." None
  | _ =>
      Exception "Incorrect mode! Supply is in constant current mode." None
  end.

(** The three errors [parseErrorMessages] tells apart, as the specification
    words them. *)
Inductive classified : pyval -> exn -> Prop :=
| classified_syntax :
    classified (PyStr (lit "Syntax Error"))
      (Exception
         "Syntax Error. Command not a number or value too high for the power supply"
         None)
| classified_range :
    classified (PyStr (lit "Out Of Range"))
      (Exception
         "Input number out of range! (Likly too small. Minimum is 0.01V or 0.1mA)"
         None)
| classified_unknown message :
    message <> PyStr (lit "Syntax Error") ->
    message <> PyStr (lit "Out Of Range") ->
    classified message
      (Exception "Strange message receved: %s" (Some message)).

(** [parseErrorMessages] has one way to end. *)
Definition complaint (message : pyval) : exn :=
  if eq_str message "Syntax Error" then
    Exception ("Syntax Error. Command not a number" ++
               " or value too high for the power supply") None
  else if eq_str message "Out Of Range" then
    Exception ("Input number out of range! (Likly too small." ++
               " Minimum is 0.01V or 0.1mA)") None
  else Exception "Strange message receved: %s" (Some message).


(** What a set command makes of the instrument's answer [out]: anything but
    silence is an error. *)
Definition acknowledged (out : pyval) : exn + unit :=
  match out with
  | PyFloat _ => inl (TypeError "object of type 'float' has no len()")
  | PyBytes b => if Nat.eqb (List.length b) 0 then inr tt else inl (complaint out)
  | PyStr t => if Nat.eqb (List.length t) 0 then inr tt else inl (complaint out)
  end.

(** What a query makes of the answer [out]: a number, or an error. *)
Definition measured (out : pyval) : exn + float :=
  match out with
  | PyFloat v => inr v
  | _ => inl (complaint out)
  end.

(** The errors that tell of a wrong mode. *)
Definition is_mode_error (x : exn) : bool :=
  match x with
  | Exception text None => String.prefix "Incorrect mode!" text
  | _ => false
  end.

(** The claim that an exit leaves the port closed exactly when the operation
    opened it, i.e. as it was found. *)
Definition closed_iff_opened {U : UnicodeData} (op : operation)
  (e : Env PowerSupply.t) : Prop :=
  PowerSupply.portOpen (obj (final (perform op e)))
  = PowerSupply.portOpen (obj e).

(** The claim that whenever an operation writes its command, a mode query
    was written before it in the same call. *)
Definition mode_query_precedes {U : UnicodeData} (op : operation)
  (e : Env PowerSupply.t) : Prop :=
  forall before after,
    written (perform op) e = before ++ [command op ++ [x0d]] ++ after ->
    In (STAT ++ [x0d]) before.

(** A supply that has not opened its port yet, wired to the bench
    instrument in the given mode. *)
Definition bench_supply (mode : string) : Env PowerSupply.t :=
  mkEnv (PowerSupply.__init__ (lit "/dev/ttyUSB0")) []
        (Bench.device (Bench.make mode "00.00" "000.0")).

(** ** What the specification says of a decoded response *)

Section ResponseVocabulary.
Context {U : UnicodeData}.

(** A text matching [\d+\.\d]: one or more digits, a point, one digit. *)
Definition is_token (t : str) : Prop :=
  exists ds d,
    t = (ds ++ [46%N; d])%list /\ ds <> [] /\
    Forall (fun c => is_digit c = true) ds /\ is_digit d = true.

(** [t] matches in [text] from position [i] on. *)
Definition token_at (text : str) (i : nat) (t : str) : Prop :=
  is_token t /\
  exists pre post, text = (pre ++ t ++ post)%list /\ List.length pre = i.

(** [t] is the first match in [text]. *)
Definition first_token (text t : str) : Prop :=
  exists i, token_at text i t /\
            forall j t', (j < i)%nat -> ~ token_at text j t'.

(** The number the digits of a token spell, the point left out. *)
Definition digits_number (t : str) : N :=
  fold_left (fun acc c =>
               match decimal c with
               | Some d => (acc * 10 + d)%N
               | None => acc
               end) t 0%N.

(** The float a token stands for: its digits, taken as tenths. *)
Definition token_value (t : str) : float :=
  float_of_decimal false (digits_number t) 1.

(** The decoded response, in the specification's words: Empty for an empty
    payload; for a non-empty payload, decoded as UTF-8 text, Numeric with
    the number of the first token if the text has one, else Text with the
    text. *)
Inductive response : list byte -> pyval -> Prop :=
| response_empty :
    response [] (PyBytes [])
| response_numeric out text t :
    out <> [] -> utf8_decode out = Some text -> first_token text t ->
    response out (PyFloat (token_value t))
| response_text out text :
    out <> [] -> utf8_decode out = Some text ->
    (forall i t, ~ token_at text i t) ->
    response out (PyStr text).

(** The claim that decoding the payload [out] returns its response. *)
Definition returns_response (out : list byte) : Prop :=
  exists v, PowerSupply.decode_out out = inr v /\ response out v.

End ResponseVocabulary.

(** ** Coils on the bench *)

(** The object a constructor leaves, with the line it was made on. *)
Definition made {A} (r : outcome unit A) : option (Env A) :=
  match r with
  | Returns a e => Some (mkEnv a (wire e) (device e))
  | _ => None
  end.

(** A property of the object a constructor made (false if it made none). *)
Definition on {A} (o : option (Env A)) (P : Env A -> Prop) : Prop :=
  match o with
  | Some e => P e
  | None => False
  end.

Fixpoint starts_with (p w : list byte) : bool :=
  match p, w with
  | [], _ => true
  | a :: p', b :: w' => Byte.eqb a b && starts_with p' w'
  | _ :: _, [] => false
  end.

(** A write that sets the current: [CURR <value>]. *)
Definition is_set_current (w : list byte) : bool :=
  starts_with (bytearray "CURR ") w.

Definition set_current_commands (ws : list (list byte)) : nat :=
  List.length (filter is_set_current ws).

Section CoilVocabulary.
Context {U : UnicodeData}.

(** The number of set-current commands that two calls of
    [set_coil_field x] in succession write. *)
Definition commands_of_two_calls (x : float) (e : Env Coil.t) : nat :=
  set_current_commands
    (skipn (List.length (wire e))
       (wire (final (Coil.set_coil_field x
                       (final (Coil.set_coil_field x e)))))).

(** The claim that two calls in succession write once. *)
Definition writes_once (x : float) (e : Env Coil.t) : Prop :=
  commands_of_two_calls x e = 1%nat.

(** [delta] lies outside the band of [o]: the test of [setField]. *)
Definition outside_band (o : CoilWithCorrection.t) (delta : float) : bool :=
  let '(lo, hi) := CoilWithCorrection.change_band o in
  float_gt delta hi || float_lt delta lo.

(** [setField] with the large coil set through the method [Coil] has. *)
Definition setField_through_set_coil_field : float -> M CoilWithCorrection.t unit :=
  CoilWithCorrection.setField_with
    (fun x => CoilWithCorrection.inherited (Coil.set_coil_field x)).

End CoilVocabulary.

(** ** Setting a current and reading it back *)

(** The real number a finite double stands for: [±m * 2^e]. *)
Definition value_of (s : bool) (m : positive) (e : Z) : Q :=
  let n := if s then Zneg m else Zpos m in
  match e with
  | Zneg p => n # (2 ^ p)
  | _ => inject_Z (n * 2 ^ e)
  end.

Definition exact (x : float) : option Q :=
  match Prim2SF x with
  | S754_zero _ => Some 0%Q
  | S754_finite s m e => Some (value_of s m e)
  | _ => None
  end.

(** Two floats are finite and no further apart than [tolerance], as real
    numbers. *)
Definition within (tolerance : Q) (x y : float) : Prop :=
  match exact x, exact y with
  | Some a, Some b => (Qabs (a - b) <= tolerance)%Q
  | _, _ => False
  end.

(** The currents [set_current] is documented for: none, or from the least
    step of 0.1 mA to the maximum of 0.9999 A. *)
Definition settable (c : float) : bool :=
  (c =? 0)%float || ((0.0001 <=? c)%float && (c <=? 0.9999)%float).

(** The currents the supply accepts: from none to the maximum of
    0.9999 A. *)
Definition accepted (c : float) : bool :=
  (0 <=? c)%float && (c <=? 0.9999)%float.

(** An instrument that stores the value of a [CURR <value>] command and
    reports it back, framed, to the [CURR?] that follows. *)
Definition reports_back (d : list (list byte) -> list byte) : Prop :=
  forall history value,
    d (history ++ [bytearray "CURR " ++ value ++ [x0d];
                   bytearray "CURR?" ++ [x0d]])
    = x13 :: value ++ [x11].

(** The voltages [set_voltage] is documented for: from the least step of
    0.01 V to the maximum of 99.99 V. *)
Definition settable_voltage (v : float) : bool :=
  (0.01 <=? v)%float && (v <=? 99.99)%float.

(** An instrument in constant-voltage mode that stores the value of a
    [VOLT <value>] command and reports it back, framed, to the [VOLT?]
    that follows the mode query. *)
Definition reports_voltage_back (d : list (list byte) -> list byte) : Prop :=
  forall history value,
    d (history ++ [bytearray "VOLT " ++ value ++ [x0d]; STAT ++ [x0d]])
    = x13 :: bytearray "CV" ++ [x11] /\
    d (history ++ [bytearray "VOLT " ++ value ++ [x0d]; STAT ++ [x0d];
                   bytearray "VOLT?" ++ [x0d]])
    = x13 :: value ++ [x11].
(** * Properties *)

(** ** The bench's digit table is a [UnicodeData] *)

Lemma decimal_in_lt blocks c d :
  Bench.decimal_in blocks c = Some d -> (d < 10)%N.
Proof.
  induction blocks as [|b r IH]; simpl; [discriminate|].
  destruct ((b <=? c) && (c <? b + 10))%N eqn:E; [|exact IH].
  intros [= <-]. apply andb_prop in E as [E1 E2].
  apply N.leb_le in E1. apply N.ltb_lt in E2. lia.
Qed.

Lemma decimal_in_below blocks c :
  Forall (fun b => (c < b)%N) blocks -> Bench.decimal_in blocks c = None.
Proof.
  induction 1 as [|b r Hb _ IH]; simpl; [reflexivity|].
  destruct (N.leb_spec b c); [lia|]. simpl. exact IH.
Qed.

Lemma decimal_in_cons b r c :
  Bench.decimal_in (b :: r) c
  = if ((b <=? c) && (c <? b + 10))%N then Some (c - b)%N
    else Bench.decimal_in r c.
Proof. reflexivity. Qed.

Lemma decimal_in_ascii c :
  (c < 128)%N ->
  Bench.decimal_in Bench.digit_blocks c
  = if ((48 <=? c) && (c <=? 57))%N then Some (c - 48)%N else None.
Proof.
  intros Hc.
  change Bench.digit_blocks with (48%N :: tl Bench.digit_blocks).
  rewrite decimal_in_cons.
  replace (c <? 48 + 10)%N with (c <=? 57)%N
    by (destruct (N.leb_spec c 57), (N.ltb_spec c (48 + 10)); lia || reflexivity).
  destruct ((48 <=? c) && (c <=? 57))%N; [reflexivity|].
  apply decimal_in_below. simpl tl.
  repeat (constructor; [lia|]). constructor.
Qed.

#[export] Instance unicode14 : UnicodeData := {|
  decimal := Bench.decimal_in Bench.digit_blocks;
  decimal_lt := decimal_in_lt Bench.digit_blocks;
  decimal_ascii := decimal_in_ascii
|}.

(** ** Running methods *)

Ltac unfold_py :=
  unfold bind, ret, raise, result, block, self, update, zoom, py_len,
    times_float, py_div in *.

(** Step through the first [bind] of the goal. *)
Ltac bind_step :=
  cbv beta iota;
  match goal with
  | |- context [bind ?m ?k ?e] =>
      change (bind m k e)
        with (match m e with
              | Returns a e' => k a e'
              | Raises x e' => Raises x e'
              | Blocks e' => Blocks e'
              end);
      cbv beta
  end.

Section PowerSupplyFacts.
Context {U : UnicodeData}.

Import PowerSupply.

(** [_write] spelled out on the state of the port. *)
Lemma _write_unfold command e :
  _write command e =
  if ready (obj e) then
    match reply command e with
    | None => Blocks (sent command e)
    | Some out => result (decode_out out) (sent command e)
    end
  else Raises (unready_error (obj e)) e.
Proof.
  unfold _write, ser_write, open_ser, the_ser, sent, ready, reply,
    unready_error.
  unfold_py.
  destruct e as [o w d]; cbn.
  destruct (ser o) as [s|] eqn:Es; [|reflexivity].
  destruct (Serial.is_open s) eqn:Eo; [|reflexivity].
  cbn. destruct (read_message _) as [out|]; [|reflexivity].
  destruct (decode_out out); reflexivity.
Qed.

Lemma _write_outcome command e : write_outcome command e (_write command e).
Proof.
  rewrite _write_unfold.
  destruct (ready (obj e)) eqn:R; [|now constructor].
  destruct (reply command e) as [out|] eqn:Q; [|now constructor].
  destruct (decode_out out) as [x|v] eqn:D; cbn.
  - now apply write_raises with out.
  - now apply write_returns with out.
Qed.

Lemma parseErrorMessages_run message e :
  parseErrorMessages message e = Raises (complaint message) e.
Proof.
  unfold parseErrorMessages, complaint.
  destruct (eq_str message "Syntax Error"); [reflexivity|].
  destruct (eq_str message "Out Of Range"); reflexivity.
Qed.

Lemma _automated_open_run e :
  _automated_open e = Returns (portOpen (obj e)) (opened e).
Proof.
  unfold _automated_open, open_port, opened. unfold_py.
  destruct e as [[a p s] w d]; cbn. destruct p; reflexivity.
Qed.

Lemma opened_portOpen e : portOpen (obj (opened e)) = true.
Proof.
  unfold opened. destruct (portOpen (obj e)) eqn:E; [exact E|reflexivity].
Qed.

Lemma opened_wire e : wire (opened e) = wire e.
Proof. unfold opened. destruct (portOpen (obj e)); reflexivity. Qed.

Lemma opened_fresh e : portOpen (obj e) = false -> ready (obj (opened e)) = true.
Proof. unfold opened. intros ->. reflexivity. Qed.

Lemma close_port_run e :
  close_port e
  = if ready (obj e) then Returns tt (closed e)
    else Raises (unready_error (obj e)) e.
Proof.
  unfold close_port, ser_reset_input_buffer, ser_close, open_ser, the_ser,
    ready, unready_error, closed.
  unfold_py.
  destruct e as [[a p s] w d]; cbn.
  destruct s as [[o b]|]; [|reflexivity]. destruct o; reflexivity.
Qed.

Lemma _automated_close_run initial e :
  _automated_close initial e
  = if negb initial && portOpen (obj e) then close_port e else Returns tt e.
Proof.
  unfold _automated_close. unfold_py.
  destruct (negb initial && portOpen (obj e)); reflexivity.
Qed.

(** [check_mode] is the query [STAT?] with its answer classified. *)
Lemma check_mode_unfold e :
  check_mode e =
  match _write STAT e with
  | Returns out e' =>
      if eq_str out "CV" || eq_str out "CC" then Returns out e'
      else Raises (complaint out) e'
  | Raises x e' => Raises x e'
  | Blocks e' => Blocks e'
  end.
Proof.
  unfold check_mode, STAT. bind_step.
  destruct (_write _ e) as [out e'|x e'|e']; try reflexivity.
  bind_step.
  destruct (eq_str out "CV"), (eq_str out "CC"); cbn;
    try reflexivity; now rewrite parseErrorMessages_run.
Qed.

(** *** Steps that leave the port alone *)

Lemma keeps_refl e : keeps e e.
Proof. split; auto. Qed.

Lemma keeps_trans e1 e2 e3 : keeps e1 e2 -> keeps e2 e3 -> keeps e1 e3.
Proof. intros [A B] [C D]. split; [congruence|auto]. Qed.

Lemma keeps_ret A (a : A) : keeps_port (ret a).
Proof. intros e. apply keeps_refl. Qed.

Lemma keeps_raise A x : keeps_port (@raise t A x).
Proof. intros e. apply keeps_refl. Qed.

Lemma keeps_bind A B (m : M t A) (k : A -> M t B) :
  keeps_port m -> (forall a, keeps_port (k a)) -> keeps_port (bind m k).
Proof.
  intros Hm Hk e. specialize (Hm e). unfold bind.
  destruct (m e) as [a e'|x e'|e']; cbn in *; auto.
  eapply keeps_trans; [exact Hm|apply Hk].
Qed.

Lemma keeps_if A (b : bool) (m1 m2 : M t A) :
  keeps_port m1 -> keeps_port m2 -> keeps_port (if b then m1 else m2).
Proof. destruct b; auto. Qed.

Lemma keeps__write c : keeps_port (_write c).
Proof.
  intros e. destruct (_write_outcome c e); cbn;
    try apply keeps_refl; split; auto.
Qed.

Lemma keeps_parseErrorMessages m : keeps_port (parseErrorMessages m).
Proof. intros e. rewrite parseErrorMessages_run. apply keeps_refl. Qed.

Lemma keeps_py_len v : keeps_port (@py_len t v).
Proof. intros e. destruct v; apply keeps_refl. Qed.

Lemma keeps_times_float v x : keeps_port (@times_float t v x).
Proof. intros e. destruct v; apply keeps_refl. Qed.

Lemma keeps_no_close : keeps_port (_automated_close true).
Proof. intros e. rewrite _automated_close_run. apply keeps_refl. Qed.

Create HintDb port discriminated.
#[local] Hint Resolve keeps_ret keeps_raise keeps_bind keeps_if keeps__write
  keeps_parseErrorMessages keeps_py_len keeps_times_float keeps_no_close
  : port.

Lemma keeps_check_mode : keeps_port check_mode.
Proof. unfold check_mode. auto 10 with port. Qed.

#[local] Hint Resolve keeps_check_mode : port.

(** *** Steps that end with the port closed *)

Lemma closes_close : closes (_automated_close false).
Proof.
  intros e P R. rewrite _automated_close_run, P, close_port_run, R.
  cbn. split; reflexivity.
Qed.

Lemma closes_bind A B (m : M t A) (k : A -> M t B) :
  keeps_port m -> (forall a, closes (k a)) -> closes (bind m k).
Proof.
  intros Hm Hk e P R. destruct (Hm e) as [K1 K2]. unfold bind.
  destruct (m e) as [a e'|x e'|e']; cbn in *.
  - apply Hk; [congruence|auto].
  - split; [congruence|auto].
  - split; [congruence|auto].
Qed.

Lemma closes_ret A B (m : M t A) (b : A -> B) :
  closes m -> closes (bind m (fun a => ret (b a))).
Proof.
  intros Hm e P R. specialize (Hm e P R). unfold bind.
  destruct (m e); exact Hm.
Qed.

#[local] Hint Resolve closes_close closes_bind closes_ret : port.

Lemma bind_assoc {O A B C} (m : M O A) (f : A -> M O B) (g : B -> M O C) e :
  bind (bind m f) g e = bind m (fun a => bind (f a) g) e.
Proof. unfold bind. destruct (m e); reflexivity. Qed.

(** Every operation starts with [_automated_open]. *)
Ltac after_open :=
  unfold set_voltage, get_voltage, set_current, get_current;
  rewrite ?bind_assoc; bind_step; rewrite _automated_open_run.

(** An operation keeps a port that was open. *)
Lemma perform_open op e :
  portOpen (obj e) = true -> keeps e (final (perform op e)).
Proof.
  intros P.
  assert (O : opened e = e) by (unfold opened; now rewrite P).
  destruct op; cbn [perform]; after_open; rewrite P, O;
    match goal with
    | |- keeps e (final (?m e)) => enough (K : keeps_port m) by apply K
    end;
    auto 20 with port.
Qed.

(** An operation that opened the port closes it when it returns, and only
    then. *)
Lemma perform_fresh op e :
  portOpen (obj e) = false ->
  match perform op e with
  | Returns _ e' => portOpen (obj e') = false /\ ready (obj e') = false
  | Raises _ e' | Blocks e' =>
      portOpen (obj e') = true /\ ready (obj e') = true
  end.
Proof.
  intros P.
  pose proof (opened_portOpen e) as P'.
  pose proof (opened_fresh e P) as R'.
  destruct op; cbn [perform]; after_open; rewrite P;
    match goal with
    | |- match ?m (opened e) with _ => _ end =>
        enough (K : closes m) by exact (K (opened e) P' R')
    end;
    repeat first
      [ apply closes_close
      | apply closes_ret
      | apply closes_bind; [auto 10 with port|intros] ].
Qed.

(** *** The operations, step by step *)

Lemma finish_run initial e :
  _automated_close initial e
  = if initial || negb (portOpen (obj e)) then Returns tt e
    else if ready (obj e) then Returns tt (closed e)
    else Raises (unready_error (obj e)) e.
Proof.
  rewrite _automated_close_run, close_port_run.
  destruct initial, (portOpen (obj e)); reflexivity.
Qed.

(** The end of a set command: the answer's length is taken, and an answer
    that has one is an error. *)
Lemma acknowledge_run out (k : M t unit) e :
  bind (py_len out)
    (fun n =>
       bind (if negb (Nat.eqb n 0) then parseErrorMessages out else ret tt)
         (fun _ => k)) e
  = match acknowledged out with
    | inr _ => k e
    | inl x => Raises x e
    end.
Proof.
  unfold acknowledged. destruct out as [b|f|s]; unfold py_len.
  - bind_step. change (ret (List.length b) e) with (Returns (List.length b) e : outcome t nat).
    bind_step. destruct (Nat.eqb (List.length b) 0); cbn [negb].
    + reflexivity.
    + now rewrite parseErrorMessages_run.
  - reflexivity.
  - bind_step. change (ret (List.length s) e) with (Returns (List.length s) e : outcome t nat).
    bind_step. destruct (Nat.eqb (List.length s) 0); cbn [negb].
    + reflexivity.
    + now rewrite parseErrorMessages_run.
Qed.

Lemma set_current_run c e :
  set_current c e =
  match check_mode (opened e) with
  | Returns mode e2 =>
      if eq_str mode "CC" then
        match _write (command (SetCurrent c)) e2 with
        | Returns out e3 =>
            match acknowledged out with
            | inr _ => _automated_close (portOpen (obj e)) e3
            | inl x => Raises x e3
            end
        | Raises x e3 => Raises x e3
        | Blocks e3 => Blocks e3
        end
      else Raises (incorrect_mode (SetCurrent c)) e2
  | Raises x e2 => Raises x e2
  | Blocks e2 => Blocks e2
  end.
Proof.
  after_open. bind_step.
  destruct (check_mode (opened e)) as [mode e2|x e2|e2]; try reflexivity.
  bind_step. destruct (eq_str mode "CC"); [|reflexivity].
  cbn [negb]. change (ret tt e2) with (Returns tt e2 : outcome t unit).
  cbv zeta. bind_step. unfold command.
  destruct (_write _ e2) as [out e3|x e3|e3]; try reflexivity.
  apply acknowledge_run.
Qed.

Lemma set_voltage_run v e :
  set_voltage v e =
  match _write (command (SetVoltage v)) (opened e) with
  | Returns out e3 =>
      match acknowledged out with
      | inr _ => _automated_close (portOpen (obj e)) e3
      | inl x => Raises x e3
      end
  | Raises x e3 => Raises x e3
  | Blocks e3 => Blocks e3
  end.
Proof.
  after_open. cbv zeta. bind_step. unfold command.
  destruct (_write _ (opened e)) as [out e3|x e3|e3]; try reflexivity.
  apply acknowledge_run.
Qed.

Lemma get_voltage_run e :
  get_voltage e =
  match check_mode (opened e) with
  | Returns mode e2 =>
      if eq_str mode "CV" then
        match _write (command GetVoltage) e2 with
        | Returns out e3 =>
            match measured out with
            | inr _ =>
                match _automated_close (portOpen (obj e)) e3 with
                | Returns _ e4 => Returns out e4
                | Raises x e4 => Raises x e4
                | Blocks e4 => Blocks e4
                end
            | inl x => Raises x e3
            end
        | Raises x e3 => Raises x e3
        | Blocks e3 => Blocks e3
        end
      else Raises (incorrect_mode GetVoltage) e2
  | Raises x e2 => Raises x e2
  | Blocks e2 => Blocks e2
  end.
Proof.
  after_open. bind_step.
  destruct (check_mode (opened e)) as [mode e2|x e2|e2]; try reflexivity.
  bind_step. destruct (eq_str mode "CV"); [|reflexivity].
  cbn [negb]. change (ret tt e2) with (Returns tt e2 : outcome t unit).
  cbv iota beta. bind_step. unfold command.
  destruct (_write _ e2) as [out e3|x e3|e3]; try reflexivity.
  bind_step. unfold measured.
  destruct out as [b|f|s]; cbn [is_float negb];
    rewrite ?parseErrorMessages_run; try reflexivity.
Qed.

Lemma get_current_run e :
  get_current e =
  match _write (command GetCurrent) (opened e) with
  | Returns out e3 =>
      match measured out with
      | inr v =>
          match _automated_close (portOpen (obj e)) e3 with
          | Returns _ e4 => Returns (v * 1e-3)%float e4
          | Raises x e4 => Raises x e4
          | Blocks e4 => Blocks e4
          end
      | inl x => Raises x e3
      end
  | Raises x e3 => Raises x e3
  | Blocks e3 => Blocks e3
  end.
Proof.
  after_open. bind_step. unfold command.
  destruct (_write _ (opened e)) as [out e3|x e3|e3]; try reflexivity.
  bind_step. unfold measured.
  destruct out as [b|f|s]; cbn [is_float negb];
    rewrite ?parseErrorMessages_run; try reflexivity.
Qed.

(** *** Which errors an operation can end in *)

Lemma eq_str_true v s : eq_str v s = true <-> v = PyStr (lit s).
Proof.
  unfold eq_str, str_eqb. destruct v as [b|f|u]; try (split; discriminate).
  destruct (list_eq_dec N.eq_dec u (lit s)) as [->|N].
  - split; reflexivity.
  - split; [discriminate|]. intros [= E]. contradiction.
Qed.

Lemma eq_str_false v s : eq_str v s = false <-> v <> PyStr (lit s).
Proof.
  rewrite <- eq_str_true. destruct (eq_str v s); split; congruence.
Qed.

Lemma complaint_no_mode_error message : is_mode_error (complaint message) = false.
Proof.
  unfold complaint.
  destruct (eq_str message "Syntax Error"); [reflexivity|].
  destruct (eq_str message "Out Of Range"); reflexivity.
Qed.

Lemma unready_no_mode_error o : is_mode_error (unready_error o) = false.
Proof. unfold unready_error. destruct (ser o); reflexivity. Qed.

Lemma decode_out_no_mode_error out x :
  decode_out out = inl x -> is_mode_error x = false.
Proof.
  unfold decode_out.
  destruct (Nat.eqb _ _); [discriminate|].
  destruct (utf8_decode out); [|now intros [= <-]].
  destruct (re_search _); [|discriminate].
  destruct (py_float _); [discriminate|now intros [= <-]].
Qed.

Lemma acknowledged_no_mode_error out x :
  acknowledged out = inl x -> is_mode_error x = false.
Proof.
  unfold acknowledged. destruct out as [b|f|s].
  - destruct (Nat.eqb _ _); [discriminate|]. intros [= <-].
    apply complaint_no_mode_error.
  - now intros [= <-].
  - destruct (Nat.eqb _ _); [discriminate|]. intros [= <-].
    apply complaint_no_mode_error.
Qed.

Lemma measured_no_mode_error out x :
  measured out = inl x -> is_mode_error x = false.
Proof.
  unfold measured. destruct out; try discriminate;
    intros [= <-]; apply complaint_no_mode_error.
Qed.

Lemma _write_no_mode_error command e x e' :
  _write command e = Raises x e' -> is_mode_error x = false.
Proof.
  intros H. destruct (_write_outcome command e) as [| |out y ? ? D|];
    try discriminate; injection H as <- <-.
  - apply unready_no_mode_error.
  - exact (decode_out_no_mode_error _ _ D).
Qed.

Lemma finish_no_mode_error initial e x e' :
  _automated_close initial e = Raises x e' -> is_mode_error x = false.
Proof.
  rewrite finish_run.
  destruct (initial || negb (portOpen (obj e))); [discriminate|].
  destruct (ready (obj e)); [discriminate|].
  intros [= <- <-]. apply unready_no_mode_error.
Qed.

(** The ways [check_mode] can end. *)
Variant mode_outcome (e : Env t) : outcome t pyval -> Prop :=
| mode_unready :
    ready (obj e) = false ->
    mode_outcome e (Raises (unready_error (obj e)) e)
| mode_blocks :
    mode_outcome e (Blocks (sent STAT e))
| mode_raises x :
    is_mode_error x = false ->
    mode_outcome e (Raises x (sent STAT e))
| mode_returns mode :
    mode = PyStr (lit "CV") \/ mode = PyStr (lit "CC") ->
    mode_outcome e (Returns mode (sent STAT e)).

Lemma check_mode_outcome e : mode_outcome e (check_mode e).
Proof.
  rewrite check_mode_unfold.
  destruct (_write_outcome STAT e) as [R|R Q|out x R Q D|out v R Q D].
  - now constructor.
  - constructor.
  - constructor. exact (decode_out_no_mode_error _ _ D).
  - destruct (eq_str v "CV") eqn:E1; cbn [orb].
    + constructor. left. now apply eq_str_true.
    + destruct (eq_str v "CC") eqn:E2.
      * constructor. right. now apply eq_str_true.
      * constructor. apply complaint_no_mode_error.
Qed.

(** A guarded operation that has the mode it needs ends in no mode error. *)
Lemma right_mode_no_mode_error op required e e2 x e' :
  required_mode op = Some required ->
  check_mode (opened e) = Returns (PyStr (lit required)) e2 ->
  perform op e = Raises x e' -> is_mode_error x = false.
Proof.
  intros Q C.
  destruct op; try discriminate; injection Q as <-; cbn [perform].
  - bind_step. rewrite get_voltage_run, C.
    replace (eq_str (PyStr (lit "CV")) "CV") with true by reflexivity.
    destruct (_write (command GetVoltage) e2) as [out e3|y e3|e3] eqn:W;
      try discriminate.
    + destruct (measured out) as [y|v] eqn:Mo.
      * intros [= <- <-]. exact (measured_no_mode_error _ _ Mo).
      * destruct (_automated_close _ e3) as [u e4|y e4|e4] eqn:F;
          try discriminate.
        intros [= <- <-]. exact (finish_no_mode_error _ _ _ _ F).
    + intros [= <- <-]. exact (_write_no_mode_error _ _ _ _ W).
  - rewrite set_current_run, C.
    replace (eq_str (PyStr (lit "CC")) "CC") with true by reflexivity.
    destruct (_write _ e2) as [out e3|y e3|e3] eqn:W; try discriminate.
    + destruct (acknowledged out) as [y|v] eqn:Ao.
      * intros [= <- <-]. exact (acknowledged_no_mode_error _ _ Ao).
      * apply finish_no_mode_error.
    + intros [= <- <-]. exact (_write_no_mode_error _ _ _ _ W).
Qed.

(** A guarded operation that finds another mode ends in its mode error. *)
Lemma wrong_mode_raises op required e mode e2 :
  required_mode op = Some required ->
  check_mode (opened e) = Returns mode e2 ->
  mode <> PyStr (lit required) ->
  perform op e = Raises (incorrect_mode op) e2.
Proof.
  intros Q C N. apply eq_str_false in N.
  destruct op; try discriminate; injection Q as <-; cbn [perform].
  - bind_step. now rewrite get_voltage_run, C, N.
  - now rewrite set_current_run, C, N.
Qed.

(** A guarded operation whose mode query does not return ends as the query
    did, in no mode error. *)
Lemma no_mode_no_mode_error op required e x e' :
  required_mode op = Some required ->
  (forall mode e2, check_mode (opened e) <> Returns mode e2) ->
  perform op e = Raises x e' -> is_mode_error x = false.
Proof.
  intros Q C.
  pose proof (check_mode_outcome (opened e)) as Mo.
  destruct op; try discriminate; cbn [perform].
  - bind_step. rewrite get_voltage_run.
    destruct Mo; try (intros [= <- <-]);
      try discriminate; auto using unready_no_mode_error.
    now destruct (C mode (sent STAT (opened e))).
  - rewrite set_current_run.
    destruct Mo; try (intros [= <- <-]);
      try discriminate; auto using unready_no_mode_error.
    now destruct (C mode (sent STAT (opened e))).
Qed.

End PowerSupplyFacts.

(** ** Error classification *)

Section Classification.
Context {U : UnicodeData}.

Lemma complaint_classified message : classified message (complaint message).
Proof.
  unfold complaint.
  destruct (eq_str message "Syntax Error") eqn:E1.
  - apply eq_str_true in E1 as ->. constructor.
  - destruct (eq_str message "Out Of Range") eqn:E2.
    + apply eq_str_true in E2 as ->. constructor.
    + constructor; now apply eq_str_false.
Qed.

(** The text of the error raised for an unknown message ends in the message
    itself. *)
Lemma unknown_message_rendered s :
  rendered (Exception "Strange message receved: %s" (Some (PyStr s)))
  = Some (lit "Strange message receved: " ++ s)%list.
Proof. reflexivity. Qed.

(** C10. The error classifier [parseErrorMessages] never returns: whatever
    the message, it raises, in the environment it was called in. The
    exception is the syntax error for ['Syntax Error'], the range error for
    ['Out Of Range'], and for every other message the unknown-message error
    that carries the message itself. Hence whatever follows a call of the
    classifier in an operation is not run: the operation ends in that
    error. *)
Theorem parseErrorMessages_always_raises (message : pyval)
  (e : Env PowerSupply.t) :
  exists x,
    classified message x /\
    PowerSupply.parseErrorMessages message e = Raises x e /\
    forall (A : Type) (k : unit -> M PowerSupply.t A),
      bind (PowerSupply.parseErrorMessages message) k e = Raises x e.
Proof.
  exists (complaint message). split; [apply complaint_classified|].
  split; [apply parseErrorMessages_run|].
  intros A k. unfold bind. now rewrite parseErrorMessages_run.
Qed.

End Classification.

(** ** Scoped opening of the port *)

Section Scoped.
Context {U : UnicodeData}.
Import PowerSupply.

(** C4, as the code has it. For each of [set_voltage], [get_voltage],
    [set_current] and [get_current] and every state of the port: after the
    call the port is open exactly when it was open before the call or the
    call did not return normally. So a port that was open is left open on
    every exit path, a port the operation opened itself is closed again when
    the operation returns, and it stays open when the operation ends in an
    error (or never returns). The flag [portOpen] keeps telling the truth
    about the port. *)
Theorem port_open_after_operation (op : operation) (e : Env t) :
  portOpen (obj (final (perform op e)))
  = portOpen (obj e) || negb (returned (perform op e))
  /\ (consistent (obj e) -> consistent (obj (final (perform op e)))).
Proof.
  unfold consistent.
  destruct (portOpen (obj e)) eqn:P.
  - destruct (perform_open op e P) as [K1 K2]. rewrite P in K1.
    split; [exact K1|]. intros R. rewrite K1. symmetry. now apply K2.
  - pose proof (perform_fresh op e P) as F.
    destruct (perform op e) as [a e'|x e'|e']; cbn in *;
      destruct F as [F1 F2]; split; congruence.
Qed.

End Scoped.

(** C4, as stated, fails: [set_current] on a closed port, with the supply in
    constant-voltage mode, opens the port and raises the mode error with the
    port still open. *)
Lemma error_exit_leaves_port_open :
  ~ closed_iff_opened (SetCurrent 0.5) (bench_supply "CV").
Proof. unfold closed_iff_opened. vm_compute. discriminate. Qed.

(** ** The mode guard *)

Section ModeGuard.
Context {U : UnicodeData}.
Import PowerSupply.

Lemma incorrect_mode_is_mode_error op : is_mode_error (incorrect_mode op) = true.
Proof. destruct op; reflexivity. Qed.

(** C6. For the two operations that are guarded by a mode ([get_voltage]
    needs ['CV'], [set_current] needs ['CC']): the mode query, when it
    returns, returns ['CV'] or ['CC']; and the operation fails with its
    incorrect-mode error if and only if the mode query returned a mode that
    differs from the one the operation requires. In particular, when the
    query returns the required mode, the operation does not fail with the
    incorrect-mode error. *)
Theorem incorrect_mode_iff_mode_differs (op : operation) (required : string)
  (e : Env t) :
  required_mode op = Some required ->
  (forall mode e2, check_mode (opened e) = Returns mode e2 ->
     mode = PyStr (lit "CV") \/ mode = PyStr (lit "CC")) /\
  ((exists e', perform op e = Raises (incorrect_mode op) e') <->
   (exists mode e2, check_mode (opened e) = Returns mode e2 /\
                    mode <> PyStr (lit required))) /\
  (forall e2, check_mode (opened e) = Returns (PyStr (lit required)) e2 ->
     forall e', perform op e <> Raises (incorrect_mode op) e').
Proof.
  intros Q. split; [|split].
  - intros mode e2 C. pose proof (check_mode_outcome (opened e)) as Mo.
    rewrite C in Mo. now inversion Mo.
  - split.
    + intros [e' H].
      pose proof (incorrect_mode_is_mode_error op) as T.
      destruct (check_mode (opened e)) as [mode e2|x e2|e2] eqn:C.
      * destruct (eq_str mode required) eqn:E.
        -- apply eq_str_true in E as ->.
           rewrite (right_mode_no_mode_error _ _ _ _ _ _ Q C H) in T.
           discriminate.
        -- exists mode, e2. split; [reflexivity|now apply eq_str_false].
      * rewrite (no_mode_no_mode_error op required e _ e' Q) in T;
          [discriminate| |exact H].
        intros mode e3. rewrite C. discriminate.
      * rewrite (no_mode_no_mode_error op required e _ e' Q) in T;
          [discriminate| |exact H].
        intros mode e3. rewrite C. discriminate.
    + intros (mode & e2 & C & N). exists e2.
      exact (wrong_mode_raises op required e mode e2 Q C N).
  - intros e2 C e' H.
    pose proof (incorrect_mode_is_mode_error op) as T.
    rewrite (right_mode_no_mode_error _ _ _ _ _ _ Q C H) in T. discriminate.
Qed.

End ModeGuard.

(** The guard at work on the bench: [set_current] with the supply in
    constant-voltage mode. *)
Lemma incorrect_mode_iff_mode_differs_witness :
  required_mode (SetCurrent 0.5) = Some "CC"%string /\
  exists e', perform (SetCurrent 0.5) (bench_supply "CV")
             = Raises (incorrect_mode (SetCurrent 0.5)) e'.
Proof.
  split; [reflexivity|].
  apply (proj2 (proj1 (proj2
    (incorrect_mode_iff_mode_differs (SetCurrent 0.5) "CC"
       (bench_supply "CV") eq_refl)))).
  eexists _, _. split; [vm_compute; reflexivity|]. vm_compute. discriminate.
Defined.

(** ** The mode query comes first *)

Section ModeQueryFirst.
Context {U : UnicodeData}.
Import PowerSupply.

Lemma skipn_length_app {A} (l r : list A) : skipn (List.length l) (l ++ r) = r.
Proof. induction l as [|a l IH]; [reflexivity|exact IH]. Qed.

Lemma finish_wire initial e :
  wire (final (_automated_close initial e)) = wire e.
Proof.
  rewrite finish_run.
  destruct (initial || negb (portOpen (obj e))); [reflexivity|].
  destruct (ready (obj e)); reflexivity.
Qed.

(** After a command has been written, what is left of an operation writes
    nothing. *)
Lemma set_tail_wire (initial : bool) (r : outcome t pyval) e3 :
  final r = e3 ->
  wire (final
    match r with
    | Returns out e3 =>
        match acknowledged out with
        | inr _ => _automated_close initial e3
        | inl x => Raises x e3
        end
    | Raises x e3 => Raises x e3
    | Blocks e3 => Blocks e3
    end) = wire e3.
Proof.
  intros <-. destruct r as [out e3|x e3|e3]; try reflexivity.
  destruct (acknowledged out); [reflexivity|apply finish_wire].
Qed.

Lemma get_tail_wire (initial : bool) (r : outcome t pyval) e3 :
  final r = e3 ->
  wire (final
    match r with
    | Returns out e3 =>
        match measured out with
        | inr _ =>
            match _automated_close initial e3 with
            | Returns _ e4 => Returns out e4
            | Raises x e4 => Raises x e4
            | Blocks e4 => Blocks e4
            end
        | inl x => Raises x e3
        end
    | Raises x e3 => Raises x e3
    | Blocks e3 => Blocks e3
    end) = wire e3.
Proof.
  intros <-. destruct r as [out e3|x e3|e3]; try reflexivity.
  destruct (measured out); [reflexivity|].
  change (final (Returns out e3)) with e3.
  rewrite <- (finish_wire initial e3).
  destruct (_automated_close initial e3); reflexivity.
Qed.

(** On a port that is ready, [_write] ends with the command sent. *)
Lemma _write_final_ready command e :
  ready (obj e) = true -> final (_write command e) = sent command e.
Proof.
  intros R. destruct (_write_outcome command e); try reflexivity. congruence.
Qed.

Lemma final_bind_ret {O A B} (m : M O A) (b : A -> B) e :
  final (bind m (fun a => ret (b a)) e) = final (m e).
Proof. unfold bind. destruct (m e); reflexivity. Qed.

(** What a guarded operation leaves on the line: nothing, the mode query,
    or the mode query and then the command; the last only when the query
    returned the required mode. *)
Lemma guarded_wire op required e :
  required_mode op = Some required ->
  let w := wire (final (perform op e)) in
  w = wire e \/
  w = wire e ++ [STAT ++ [x0d]] \/
  (w = wire e ++ [STAT ++ [x0d]; command op ++ [x0d]] /\
   check_mode (opened e) = Returns (PyStr (lit required)) (sent STAT (opened e))).
Proof.
  intros Q w. subst w.
  assert (W1 : wire (sent STAT (opened e)) = wire e ++ [STAT ++ [x0d]])
    by (cbn [sent wire]; now rewrite opened_wire).
  assert (W2 : forall c, wire (sent c (sent STAT (opened e)))
                         = wire e ++ [STAT ++ [x0d]; c ++ [x0d]]).
  { intros c. cbn [sent wire]. rewrite opened_wire, <- app_assoc. reflexivity. }
  pose proof (check_mode_outcome (opened e)) as Mo.
  destruct op; try discriminate; injection Q as <-; cbn [perform].
  - rewrite (final_bind_ret get_voltage (fun _ => tt)), get_voltage_run.
    destruct (check_mode (opened e)) as [mode e2|x e2|e2] eqn:C;
      inversion Mo; subst; cbn [final]; auto using opened_wire.
    destruct (eq_str mode "CV") eqn:E; cbn [final]; auto.
    apply eq_str_true in E as ->. right. right. split; [|reflexivity].
    rewrite get_tail_wire with (e3 := sent (command GetVoltage) (sent STAT (opened e))).
    + apply W2.
    + now apply _write_final_ready.
  - rewrite set_current_run.
    destruct (check_mode (opened e)) as [mode e2|x e2|e2] eqn:C;
      inversion Mo; subst; cbn [final]; auto using opened_wire.
    destruct (eq_str mode "CC") eqn:E; cbn [final]; auto.
    apply eq_str_true in E as ->. right. right. split; [|reflexivity].
    rewrite set_tail_wire
      with (e3 := sent (command (SetCurrent current_value)) (sent STAT (opened e))).
    + apply W2.
    + now apply _write_final_ready.
Qed.

Lemma command_is_no_query op required :
  required_mode op = Some required -> command op ++ [x0d] <> STAT ++ [x0d].
Proof. destruct op; discriminate. Qed.

(** C7, as the code has it. In [get_voltage] ([VOLT?]) and [set_current]
    ([CURR]), the two operations that are guarded by a mode, the command is
    written only after the mode query [STAT?] has been written in the same
    call, and only when that query returned the mode the operation
    requires. *)
Theorem mode_query_before_guarded_command (op : operation)
  (required : string) (e : Env t) :
  required_mode op = Some required ->
  mode_query_precedes op e /\
  (In (command op ++ [x0d]) (written (perform op) e) ->
   check_mode (opened e) = Returns (PyStr (lit required)) (sent STAT (opened e))).
Proof.
  intros Q. pose proof (command_is_no_query op required Q) as N.
  unfold mode_query_precedes, written.
  destruct (guarded_wire op required e Q) as [W|[W|[W C]]]; rewrite W.
  - rewrite skipn_all. split.
    + intros before after H. destruct before; discriminate H.
    + intros [].
  - rewrite skipn_length_app. split.
    + intros before after H. destruct before as [|b before].
      * injection H as H _. now destruct N.
      * injection H as _ H. destruct before; discriminate H.
    + intros [H|[]]. now destruct N.
  - rewrite skipn_length_app. split; [|auto].
    intros before after H. destruct before as [|b before].
    + injection H as H _. now destruct N.
    + injection H as <- _. now left.
Qed.

End ModeQueryFirst.

(** The guarded order on the bench: [get_voltage] in constant-voltage
    mode. *)
Lemma mode_query_before_guarded_command_witness :
  required_mode GetVoltage = Some "CV"%string /\
  mode_query_precedes GetVoltage (bench_supply "CV").
Proof.
  split; [reflexivity|].
  exact (proj1 (mode_query_before_guarded_command GetVoltage "CV"
                  (bench_supply "CV") eq_refl)).
Defined.

(** C7, as stated, fails: [get_current] writes [CURR?] and [set_voltage]
    writes [VOLT ...] with no mode query before it. *)
Lemma unguarded_commands_skip_mode_query :
  ~ mode_query_precedes GetCurrent (bench_supply "CC") /\
  ~ mode_query_precedes (SetVoltage 1.5) (bench_supply "CV").
Proof.
  split; intros H; apply (H [] []); vm_compute; reflexivity.
Qed.

(** ** Decoding a response *)

Section Decoding.
Context {U : UnicodeData}.

Lemma ascii_no_digit c :
  (c < 48)%N \/ (57 < c /\ c < 128)%N -> is_digit c = false.
Proof.
  intros H. unfold is_digit. rewrite decimal_ascii by lia.
  destruct (N.leb_spec 48 c), (N.leb_spec c 57); cbn; try reflexivity; lia.
Qed.

Lemma point_no_digit : is_digit 46 = false.
Proof. apply ascii_no_digit. lia. Qed.

(** A text that starts with a point or a digit, then digits and a point and
    a digit: what [match_here] looks for once a digit is behind it. *)
Definition is_token_tail (t : str) : Prop :=
  exists ds d,
    t = (ds ++ [46%N; d])%list /\
    Forall (fun c => is_digit c = true) ds /\ is_digit d = true.

Lemma match_here_sound s : forall seen t,
  match_here s seen = Some t ->
  (if seen then is_token_tail t else is_token t) /\
  exists post, s = (t ++ post)%list.
Proof.
  induction s as [|c r IH]; intros seen t; cbn [match_here]; [discriminate|].
  destruct (is_digit c) eqn:Dc.
  - destruct (match_here r true) as [t'|] eqn:M; [|discriminate].
    intros [= <-]. destruct (IH true t' M) as [(ds & d & -> & Fd & Dd) [post ->]].
    split.
    + destruct seen.
      * exists (c :: ds), d. repeat split; auto.
      * exists (c :: ds), d. repeat split; auto. discriminate.
    + exists post. reflexivity.
  - destruct seen; cbn [andb]; [|discriminate].
    destruct (N.eqb_spec c 46) as [->|]; [|discriminate].
    destruct r as [|d r']; [discriminate|].
    destruct (is_digit d) eqn:Dd; [|discriminate].
    intros [= <-]. split.
    + exists [], d. repeat split; auto.
    + exists r'. reflexivity.
Qed.

Lemma match_here_complete ds : forall d post seen,
  Forall (fun c => is_digit c = true) ds -> is_digit d = true ->
  (seen = true \/ ds <> []) ->
  match_here (ds ++ 46%N :: d :: post) seen = Some (ds ++ [46%N; d])%list.
Proof.
  induction ds as [|c ds IH]; intros d post seen Fd Dd S.
  - destruct S as [->|S]; [|contradiction].
    cbn. rewrite point_no_digit. cbn. now rewrite Dd.
  - inversion Fd as [|? ? Dc Fd']; subst. cbn [app match_here].
    rewrite Dc. rewrite (IH d post true Fd' Dd) by now left. reflexivity.
Qed.

Lemma match_here_token s t :
  match_here s false = Some t <-> is_token t /\ exists post, s = (t ++ post)%list.
Proof.
  split.
  - apply (match_here_sound s false t).
  - intros [(ds & d & -> & Ne & Fd & Dd) [post ->]].
    rewrite <- app_assoc. apply match_here_complete; auto.
Qed.

Lemma token_at_head s t :
  token_at s 0 t <-> is_token t /\ exists post, s = (t ++ post)%list.
Proof.
  unfold token_at. split.
  - intros [T (pre & post & -> & L)]. split; [exact T|].
    destruct pre; [|discriminate]. now exists post.
  - intros [T [post ->]]. split; [exact T|]. now exists [], post.
Qed.

Lemma token_at_tail c s i t : token_at (c :: s) (S i) t <-> token_at s i t.
Proof.
  unfold token_at. split.
  - intros [T (pre & post & E & L)]. split; [exact T|].
    destruct pre as [|c' pre]; [discriminate|].
    injection E as -> ->. injection L as L. now exists pre, post.
  - intros [T (pre & post & -> & L)]. split; [exact T|].
    exists (c :: pre), post. split; [reflexivity|]. cbn. now rewrite L.
Qed.

Lemma token_nonempty t : is_token t -> t <> [].
Proof. intros (ds & d & -> & _). now destruct ds. Qed.

(** [re_search] returns the first match. *)
Lemma re_search_first s t : re_search s = Some t -> first_token s t.
Proof.
  induction s as [|c r IH]; cbn [re_search]; [discriminate|].
  destruct (match_here (c :: r) false) as [t0|] eqn:M.
  - intros [= <-]. exists 0%nat. split.
    + apply token_at_head. now apply (proj1 (match_here_token _ _)).
    + intros j t' L. inversion L.
  - intros H. destruct (IH H) as (i & T & Least). exists (S i). split.
    + now apply token_at_tail.
    + intros [|j] t' L T'.
      * apply (proj1 (token_at_head _ _)) in T'.
        apply (proj2 (match_here_token _ _)) in T'. congruence.
      * apply (proj1 (token_at_tail _ _ _ _)) in T'.
        apply (Least j t'); [lia|exact T'].
Qed.

(** [re_search] finds a match wherever there is one. *)
Lemma re_search_none s : re_search s = None -> forall i t, ~ token_at s i t.
Proof.
  induction s as [|c r IH]; cbn [re_search].
  - intros _ i t [T (pre & post & E & _)].
    apply (token_nonempty t T).
    destruct pre; [|discriminate]. now destruct t.
  - destruct (match_here (c :: r) false) as [t0|] eqn:M; [discriminate|].
    intros H [|i] t T.
    + apply (proj1 (token_at_head _ _)) in T.
      apply (proj2 (match_here_token _ _)) in T. congruence.
    + apply (proj1 (token_at_tail _ _ _ _)) in T. exact (IH H i t T).
Qed.

(** *** [float] of a token *)

Lemma lstrip_digit c r : is_digit c = true -> lstrip (c :: r) = c :: r.
Proof.
  intros D. cbn. destruct (N.eqb_spec c 32) as [->|]; [|reflexivity].
  rewrite ascii_no_digit in D by lia. discriminate.
Qed.

Lemma strip_token t : is_token t -> strip t = t.
Proof.
  intros (ds & d & -> & Ne & Fd & Dd). unfold strip.
  destruct ds as [|c ds]; [contradiction|]. inversion Fd; subst.
  cbn [app]. rewrite lstrip_digit by assumption.
  assert (E : (c :: ds ++ [46%N; d])%list = ((c :: ds ++ [46%N]) ++ [d])%list)
    by (cbn; rewrite <- app_assoc; reflexivity).
  rewrite E, rev_unit, lstrip_digit by assumption.
  now rewrite <- rev_unit, rev_involutive.
Qed.

Lemma signed_digit c r : is_digit c = true -> signed (c :: r) = (false, c :: r).
Proof.
  intros D. unfold signed.
  destruct (N.eqb_spec c 45) as [->|];
    [rewrite ascii_no_digit in D by lia; discriminate|].
  destruct (N.eqb_spec c 43) as [->|];
    [rewrite ascii_no_digit in D by lia; discriminate|].
  reflexivity.
Qed.

Lemma str_eqb_head c r s :
  is_digit c = true ->
  match lit s with
  | c' :: _ => is_digit c' = false
  | [] => True
  end ->
  str_eqb (c :: r) (lit s) = false.
Proof.
  intros D H. unfold str_eqb.
  destruct (list_eq_dec N.eq_dec (c :: r) (lit s)) as [E|]; [|reflexivity].
  rewrite <- E in H. congruence.
Qed.

Lemma digits_number_app t u :
  digits_number (t ++ u)
  = fold_left (fun acc c =>
                 match decimal c with
                 | Some d => (acc * 10 + d)%N
                 | None => acc
                 end) u (digits_number t).
Proof. unfold digits_number. apply fold_left_app. Qed.

(** [decimal_digits] reads a run of digits that ends at a point. *)
Lemma decimal_digits_run ds : forall acc cnt rest,
  Forall (fun c => is_digit c = true) ds ->
  match rest with
  | c :: _ => is_digit c = false
  | [] => True
  end ->
  decimal_digits (ds ++ rest) acc cnt
  = (fold_left (fun acc c =>
                  match decimal c with
                  | Some d => (acc * 10 + d)%N
                  | None => acc
                  end) ds acc,
     (cnt + N.of_nat (List.length ds))%N, rest).
Proof.
  induction ds as [|c ds IH]; intros acc cnt rest Fd Hr.
  - cbn [app fold_left List.length]. rewrite N.add_0_r.
    destruct rest as [|c r]; [reflexivity|].
    cbn [decimal_digits]. unfold is_digit in Hr.
    destruct (decimal c); [discriminate|reflexivity].
  - inversion Fd as [|? ? Dc Fd']; subst. cbn [app decimal_digits fold_left].
    unfold is_digit in Dc. destruct (decimal c) as [dv|]; [|discriminate].
    rewrite IH by assumption. f_equal. f_equal. cbn [List.length]. lia.
Qed.

(** [float] reads a token as the number it spells. *)
Lemma py_float_token t : is_token t -> py_float t = Some (token_value t).
Proof.
  intros T. unfold py_float. rewrite (strip_token t T).
  destruct T as (ds & d & -> & Ne & Fd & Dd).
  destruct ds as [|c ds]; [contradiction|].
  pose proof Fd as Fd0. inversion Fd as [|? ? Dc Fd']; subst.
  cbn [app]. rewrite signed_digit by assumption.
  rewrite !str_eqb_head by (try assumption; now apply ascii_no_digit; cbn; lia).
  change (c :: ds ++ [46%N; d])%list with ((c :: ds) ++ [46%N; d])%list.
  rewrite decimal_digits_run by (try assumption; apply point_no_digit).
  rewrite N.eqb_refl.
  rewrite (decimal_digits_run [d] _ 0%N [])
    by (try exact I; repeat constructor; assumption).
  destruct (_ =? 0)%N eqn:Z;
    [apply N.eqb_eq, N.eq_add_0 in Z; destruct Z as [_ Z]; discriminate Z|].
  assert (P : decimal 46 = None).
  { pose proof point_no_digit as P. unfold is_digit in P.
    destruct (decimal 46); [discriminate|reflexivity]. }
  unfold token_value. rewrite digits_number_app. cbn [fold_left].
  rewrite P. reflexivity.
Qed.

(** *** The decoded response *)

Lemma length_zero {A} (l : list A) : Nat.eqb (List.length l) 0 = true <-> l = [].
Proof. destruct l; cbn; split; congruence. Qed.

(** C5, as the code has it. For every payload [out] collected by [_write]:
    when [out] is UTF-8 (the empty payload is), decoding returns the
    response of the specification: the empty payload itself for an empty
    payload, the float spelled by the first token matching [\d+\.\d] when
    the decoded text has one, and the text otherwise; when [out] is not
    UTF-8, decoding returns nothing and raises [UnicodeDecodeError]. And
    that is how [_write] ends when the instrument's message is [out]. *)
Theorem decode_response (out : list byte) :
  match utf8_decode out with
  | Some _ => returns_response out
  | None => PowerSupply.decode_out out = inl UnicodeDecodeError
  end /\
  forall command e,
    ready (obj e) = true -> reply command e = Some out ->
    PowerSupply._write command e
    = result (PowerSupply.decode_out out) (sent command e).
Proof.
  split.
  - unfold returns_response, PowerSupply.decode_out.
    destruct (Nat.eqb (List.length out) 0) eqn:L.
    + apply length_zero in L as ->. cbn [utf8_decode].
      eexists. split; [reflexivity|constructor].
    + assert (Ne : out <> []).
      { intros ->. discriminate. }
      destruct (utf8_decode out) as [text|] eqn:D; [|reflexivity].
      destruct (re_search text) as [t|] eqn:S.
      * pose proof (re_search_first text t S) as F.
        assert (T : is_token t) by (destruct F as (i & [T _] & _); exact T).
        rewrite (py_float_token t T).
        eexists. split; [reflexivity|]. now apply response_numeric with text.
      * eexists. split; [reflexivity|].
        apply response_text; auto. now apply re_search_none.
  - intros command e R Q. now rewrite _write_unfold, R, Q.
Qed.

End Decoding.

(** C5, as stated, fails: the payload of the one byte 0xff is no UTF-8 text,
    so decoding it returns no response; it raises [UnicodeDecodeError]. *)
Lemma undecodable_payload_raises :
  ~ returns_response [xff] /\
  PowerSupply.decode_out [xff] = inl UnicodeDecodeError.
Proof.
  split; [|reflexivity].
  intros (v & D & _). vm_compute in D. discriminate D.
Qed.


(** ** The single coil *)

(** A coil of gain 1 T/A on the bench, the supply in constant-current mode
    and reporting 0 mA. *)
Definition bench_coil : option (Env Coil.t) :=
  made (Coil.__init__ (lit "/dev/ttyUSB0") (ufloat.make 1 0)
          (Bench.line (Bench.make "CC" "00.00" "000.0"))).

Section SingleCoil.
Context {U : UnicodeData}.
Import Coil.

(** A call with the cached field writes nothing and changes nothing. *)
Lemma set_coil_field_cached x e :
  float_ne x (coil_field (obj e)) = false -> set_coil_field x e = Returns tt e.
Proof.
  intros H. unfold set_coil_field. bind_step.
  change (self e) with (Returns (obj e) e : outcome t t).
  cbv beta iota. now rewrite H.
Qed.

Lemma zoom_final {S T A} (get : T -> S) (set : S -> T -> T) (m : M S A) e :
  wire (final (zoom get set m e))
  = wire (final (m (mkEnv (get (obj e)) (wire e) (device e)))).
Proof. unfold zoom. destruct (m _); reflexivity. Qed.

Lemma zoom_returned {S T A} (get : T -> S) (set : S -> T -> T) (m : M S A) e :
  returned (zoom get set m e)
  = returned (m (mkEnv (get (obj e)) (wire e) (device e))).
Proof. unfold zoom. destruct (m _); reflexivity. Qed.

(** A [set_current] that returns has written the mode query and one
    set-current command. *)
Lemma set_current_returns c (e e' : Env PowerSupply.t) :
  PowerSupply.set_current c e = Returns tt e' ->
  wire e' = wire e ++ [STAT ++ [x0d]; command (SetCurrent c) ++ [x0d]].
Proof.
  intros H. rewrite set_current_run in H.
  pose proof (check_mode_outcome (opened e)) as Mo.
  destruct (PowerSupply.check_mode (opened e)) as [mode e2| |] eqn:C;
    try discriminate.
  inversion Mo; subst.
  destruct (eq_str mode "CC"); [|discriminate].
  pose proof (_write_final_ready (command (SetCurrent c))
                (sent STAT (opened e)) eq_refl) as F.
  destruct (PowerSupply._write _ _) as [out e3| |]; try discriminate.
  cbn [final] in F. subst e3.
  destruct (acknowledged out); [discriminate|].
  pose proof (finish_wire (PowerSupply.portOpen (obj e))
                (sent (command (SetCurrent c)) (sent STAT (opened e)))) as FW.
  rewrite H in FW. cbn [final] in FW. rewrite FW. cbn [sent wire].
  rewrite opened_wire, <- app_assoc. reflexivity.
Qed.

Lemma command_is_set_current c :
  set_current_commands [STAT ++ [x0d]; command (SetCurrent c) ++ [x0d]] = 1%nat.
Proof. reflexivity. Qed.

(** A call that returns after a change of field has written one set-current
    command. *)
Lemma set_coil_field_returns x e e' :
  float_ne x (coil_field (obj e)) = true ->
  set_coil_field x e = Returns tt e' ->
  exists c, wire e' = wire e ++ [STAT ++ [x0d]; command (SetCurrent c) ++ [x0d]].
Proof.
  intros N. unfold set_coil_field. bind_step.
  change (self e) with (Returns (obj e) e : outcome t t).
  cbv beta iota. rewrite N. bind_step. unfold py_div.
  destruct (PrimFloat.eqb (field_gain (obj e)) 0); [discriminate|].
  change (ret ?a e) with (Returns a e : outcome t float).
  bind_step. unfold to_supply_precision.
  destruct (py_float _) as [c|]; [|discriminate].
  change (ret c e) with (Returns c e : outcome t float).
  repeat (bind_step; unfold update, self; cbn [obj wire device]).
  cbv beta iota. unfold on_supply, zoom. cbn [obj wire device].
  destruct (PowerSupply.set_current _ _) as [[] e0| |] eqn:S; try discriminate.
  intros [= <-]. exists c. cbn [wire].
  apply set_current_returns in S. exact S.
Qed.

(** C3, as the code has it. A call of [set_coil_field x] compares [x] with
    the cached field and, when they are equal, writes nothing and changes
    nothing. So two calls in succession write exactly one set-current
    command when [x] differs from the field cached before the first call,
    the first call returns, and the field it caches (the current rounded to
    four decimals, times the gain) is [x] again. *)
Theorem set_coil_field_twice_writes_once :
  (forall x e, float_ne x (coil_field (obj e)) = false ->
               set_coil_field x e = Returns tt e) /\
  (forall x e e1,
     float_ne x (coil_field (obj e)) = true ->
     set_coil_field x e = Returns tt e1 ->
     float_ne x (coil_field (obj e1)) = false ->
     writes_once x e).
Proof.
  split; [exact set_coil_field_cached|].
  intros x e e1 N R C. unfold writes_once, commands_of_two_calls.
  rewrite R. cbn [final]. rewrite (set_coil_field_cached x e1 C). cbn [final].
  destruct (set_coil_field_returns x e e1 N R) as [c ->].
  rewrite skipn_length_app. apply command_is_set_current.
Qed.

End SingleCoil.

(** Two calls that write once, on the bench: 0.5 T with a gain of 1 T/A is
    0.5000 A, and the field cached for it is 0.5 T. *)
Lemma set_coil_field_twice_writes_once_witness :
  on bench_coil (fun e =>
    float_ne 0.5 (Coil.coil_field (obj e)) = true /\
    Coil.set_coil_field 0.5 e
    = Returns tt (final (Coil.set_coil_field 0.5 e)) /\
    float_ne 0.5 (Coil.coil_field (obj (final (Coil.set_coil_field 0.5 e))))
    = false /\
    writes_once 0.5 e).
Proof.
  assert (P : on bench_coil (fun e =>
    float_ne 0.5 (Coil.coil_field (obj e)) = true /\
    Coil.set_coil_field 0.5 e
    = Returns tt (final (Coil.set_coil_field 0.5 e)) /\
    float_ne 0.5 (Coil.coil_field (obj (final (Coil.set_coil_field 0.5 e))))
    = false)) by (vm_compute; repeat split).
  destruct bench_coil as [e|]; [|exact P]. cbn [on] in *.
  destruct P as (N & R & C). repeat split; try assumption.
  exact (proj2 set_coil_field_twice_writes_once 0.5%float e _ N R C).
Defined.

(** C3, as stated, fails both ways: a field that is already cached is
    written by neither call (no command), and a field that the supply's four
    decimals do not reproduce is written by both (two commands). *)
Lemma set_coil_field_twice_not_once :
  on bench_coil (fun e => ~ writes_once 0 e /\ ~ writes_once 0.00026 e).
Proof.
  assert (C : on bench_coil (fun e => commands_of_two_calls 0 e = 0%nat /\
                                      commands_of_two_calls 0.00026 e = 2%nat))
    by (vm_compute; split; reflexivity).
  unfold writes_once. destruct bench_coil as [e|]; [|exact C].
  cbn [on] in *. destruct C as [-> ->]. split; discriminate.
Qed.

(** ** The coil with its correction coil *)

(** A coil with correction on the bench: the large coil has the given gain,
    the small coil 0.01 T/A; the supply is in constant-current mode and
    reports 0 mA. *)
Definition bench_correction (gain : float) : option (Env CoilWithCorrection.t) :=
  made (CoilWithCorrection.__init__ (lit "/dev/ttyUSB0") (ufloat.make gain 0)
          (lit "Dev1/ao0") (ufloat.make 0.01 0)
          (Bench.line (Bench.make "CC" "00.00" "000.0"))).

Section Correction.
Context {U : UnicodeData}.
Import CoilWithCorrection.

(** [delta] as [setField] first computes it. *)
Definition first_delta (x : float) (o : t) : float :=
  (x - Coil.coil_field (base o))%float.

(** No method is called [setcoil_field]. *)
Lemma no_setcoil_field o : getattr o "setcoil_field" = None.
Proof.
  unfold getattr, instance_dict. destruct (smallFieldValue o); reflexivity.
Qed.

Lemma call_setcoil_field x e :
  call "setcoil_field" x e
  = Raises (AttributeError "CoilWithCorrection" "setcoil_field") e.
Proof.
  unfold call. bind_step.
  change (self e) with (Returns (obj e) e : outcome t t).
  cbv beta iota. now rewrite no_setcoil_field.
Qed.

(** [setField] up to its test. *)
Lemma setField_with_run renormalize x e :
  setField_with renormalize x e =
  let e1 := mkEnv (set_smallFieldValue (first_delta x (obj e)) (obj e))
                  (wire e) (device e) in
  let finish :=
    (o <- self ;;
     setSmallCoilField (x - Coil.coil_field (base o))%float ;;
     update (set_net_coil_field x))%py in
  if outside_band (obj e) (first_delta x (obj e)) then
    match renormalize
            (x - minPowerSupplyCurrentStep (obj e)
                 * Coil.field_gain (base (obj e)) * 3.5)%float e1
    with
    | Returns _ e2 => finish e2
    | Raises y e2 => Raises y e2
    | Blocks e2 => Blocks e2
    end
  else finish e1.
Proof.
  unfold setField_with, outside_band, first_delta, change_band.
  destruct e as [o w d]. cbn [obj wire device].
  unfold bind at 1. unfold self at 1. cbn [obj].
  unfold bind at 1. unfold update at 1. cbn [obj wire device].
  unfold bind at 1. unfold the_smallFieldValue at 1.
  unfold bind at 1. unfold self at 1. cbn [obj smallFieldValue set_smallFieldValue].
  unfold ret at 1.
  unfold bind at 1.
  destruct (float_gt _ _ || float_lt _ _); reflexivity.
Qed.

(** The end of [setField]: the small coil takes what the large coil leaves,
    and the net field is recorded. *)
Lemma setField_finish_run x e :
  (o <- self ;;
   setSmallCoilField (x - Coil.coil_field (base o))%float ;;
   update (set_net_coil_field x))%py e
  = let delta := (x - Coil.coil_field (base (obj e)))%float in
    let o1 := set_smallFieldValue delta (obj e) in
    if PrimFloat.eqb (ufloat.n (smallCoilFieldGain (obj e))) 0 then
      Raises ZeroDivisionError (mkEnv o1 (wire e) (device e))
    else
      Returns tt
        (mkEnv (set_net_coil_field x
                  (set_dacVoltage
                     (delta / ufloat.n (smallCoilFieldGain (obj e))
                      * float_of_int (voltageGain (obj e)))%float o1))
               (wire e) (device e)).
Proof.
  destruct e as [o w d]. cbn [obj wire device].
  unfold bind at 1. unfold self at 1. cbn [obj].
  unfold bind at 1. unfold setSmallCoilField.
  unfold bind at 1. unfold update at 1. cbn [obj wire device].
  unfold bind at 1. unfold self at 1. cbn [obj].
  unfold bind at 1. unfold py_div.
  cbn [smallCoilFieldGain set_smallFieldValue].
  destruct (PrimFloat.eqb (ufloat.n (smallCoilFieldGain o)) 0); reflexivity.
Qed.

(** Outside the band, [setField] ends in the missing method: the large coil
    is not set, and neither is the small coil. *)
Lemma setField_outside x e :
  outside_band (obj e) (first_delta x (obj e)) = true ->
  setField x e
  = Raises (AttributeError "CoilWithCorrection" "setcoil_field")
      (mkEnv (set_smallFieldValue (first_delta x (obj e)) (obj e))
             (wire e) (device e)).
Proof.
  intros H. unfold setField. rewrite setField_with_run. cbv zeta.
  now rewrite H, call_setcoil_field.
Qed.

(** Inside the band, [setField] sets the small coil only. *)
Lemma setField_inside x e :
  outside_band (obj e) (first_delta x (obj e)) = false ->
  PrimFloat.eqb (ufloat.n (smallCoilFieldGain (obj e))) 0 = false ->
  setField x e
  = Returns tt
      (mkEnv (set_net_coil_field x
                (set_dacVoltage
                   (first_delta x (obj e)
                    / ufloat.n (smallCoilFieldGain (obj e))
                    * float_of_int (voltageGain (obj e)))%float
                   (set_smallFieldValue (first_delta x (obj e)) (obj e))))
             (wire e) (device e)).
Proof.
  intros H G. unfold setField. rewrite setField_with_run. cbv zeta.
  rewrite H, setField_finish_run. cbv zeta. cbn [obj wire device].
  cbn [smallCoilFieldGain set_smallFieldValue base voltageGain].
  now rewrite G.
Qed.

(** [setField] never commands the supply: whatever the target, it writes
    nothing on the line. *)
Lemma setField_writes_nothing x e : written (setField x) e = [].
Proof.
  unfold written, setField. rewrite setField_with_run. cbv zeta.
  destruct (outside_band _ _).
  - rewrite call_setcoil_field. cbn [final wire]. apply skipn_all.
  - rewrite setField_finish_run. cbv zeta. cbn [obj wire device].
    destruct (PrimFloat.eqb _ 0); cbn [final wire]; apply skipn_all.
Qed.

(** [setField] never touches [smallCoilField], the small coil's share of
    the field that [__init__] adds into [net_coil_field]. *)
Lemma setField_keeps_smallCoilField x e :
  smallCoilField (obj (final (setField x e))) = smallCoilField (obj e).
Proof.
  unfold setField. rewrite setField_with_run. cbv zeta.
  destruct (outside_band _ _).
  - now rewrite call_setcoil_field.
  - rewrite setField_finish_run. cbv zeta. cbn [obj wire device].
    destruct (PrimFloat.eqb _ 0); reflexivity.
Qed.

End Correction.

Section CorrectionClaims.
Context {U : UnicodeData}.
Import CoilWithCorrection.

(** C2, on the code as written. Whenever the first delta lies outside the
    band, [setField] does not complete: the call that should set the large
    coil is [self.setcoil_field], a method neither [CoilWithCorrection] nor
    [Coil] has ([Coil]'s is [set_coil_field]), so the call raises
    [AttributeError]. Nothing is written to the supply, the large coil's
    field is not recomputed, and the small coil's DAC voltage and the net
    field are left as they were. *)
Theorem setField_outside_band_raises (x : float) (e : Env t) :
  outside_band (obj e) (first_delta x (obj e)) = true ->
  exists e',
    setField x e
    = Raises (AttributeError "CoilWithCorrection" "setcoil_field") e' /\
    written (setField x) e = [] /\
    Coil.coil_field (base (obj e')) = Coil.coil_field (base (obj e)) /\
    dacVoltage (obj e') = dacVoltage (obj e) /\
    net_coil_field (obj e') = net_coil_field (obj e).
Proof.
  intros H. eexists. split; [exact (setField_outside x e H)|].
  split; [apply setField_writes_nothing|]. repeat split.
Qed.

End CorrectionClaims.

(** The specification's end-to-end case: gain 0.05 T/A, the supply at 0 A,
    0.05 T requested. *)
Lemma setField_outside_band_raises_witness :
  on (bench_correction 0.05) (fun e =>
    outside_band (obj e) (first_delta 0.05 (obj e)) = true /\
    exists e',
      CoilWithCorrection.setField 0.05 e
      = Raises (AttributeError "CoilWithCorrection" "setcoil_field") e' /\
      written (CoilWithCorrection.setField 0.05) e = [] /\
      Coil.coil_field (CoilWithCorrection.base (obj e'))
      = Coil.coil_field (CoilWithCorrection.base (obj e)) /\
      CoilWithCorrection.dacVoltage (obj e')
      = CoilWithCorrection.dacVoltage (obj e) /\
      CoilWithCorrection.net_coil_field (obj e')
      = CoilWithCorrection.net_coil_field (obj e)).
Proof.
  assert (B : on (bench_correction 0.05) (fun e =>
                outside_band (obj e) (first_delta 0.05 (obj e)) = true))
    by (vm_compute; reflexivity).
  destruct (bench_correction 0.05) as [e|]; [|exact B]. cbn [on] in *.
  split; [exact B|].
  exact (setField_outside_band_raises 0.05%float e B).
Defined.

(** C1, on the code as written. With a gain of 10 T/A the coarse step is
    0.0001 A x 10 T/A = 0.001 T and the band is [0.001, 0.006]. The test of
    [setField] is as the table has it: a delta of 3.5 steps is inside the
    band, one of 6.1 steps outside. But the large coil is set in neither
    case: inside the band [setField] returns without a write, and outside it
    the call of the missing method [setcoil_field] raises before anything is
    written. *)
Theorem setField_trigger_table :
  on (bench_correction 10) (fun e =>
    let step := 0.001%float in
    (CoilWithCorrection.minPowerSupplyCurrentStep (obj e)
     * Coil.field_gain (CoilWithCorrection.base (obj e)))%float = step /\
    Coil.coil_field (CoilWithCorrection.base (obj e)) = 0%float /\
    outside_band (obj e) (first_delta (3.5 * step) (obj e)) = false /\
    outside_band (obj e) (first_delta (6.1 * step) (obj e)) = true /\
    returned (CoilWithCorrection.setField (3.5 * step) e) = true /\
    written (CoilWithCorrection.setField (3.5 * step)) e = [] /\
    (exists e',
       CoilWithCorrection.setField (6.1 * step) e
       = Raises (AttributeError "CoilWithCorrection" "setcoil_field") e') /\
    written (CoilWithCorrection.setField (6.1 * step)) e = []).
Proof.
  vm_compute. repeat split. eexists. reflexivity.
Qed.

(** What the table asks for, had the call named [Coil]'s method: outside the
    band the supply is asked for its mode and given the current for the
    target less the offset, 0.0061 T - 0.0035 T at 10 T/A, which is
    0.3 mA. *)
Example renormalize_through_set_coil_field :
  on (bench_correction 10) (fun e =>
    written (setField_through_set_coil_field 0.0061) e
    = [bytearray "STAT?" ++ [x0d]; bytearray "CURR 000.3" ++ [x0d]] /\
    written (setField_through_set_coil_field 0.0035) e = []).
Proof. vm_compute. split; reflexivity. Qed.

(** C9, on the code as written. After a completed [setField] the recorded
    net field is the target, but the small coil's share [smallCoilField]
    that [__init__] adds to the large coil's field to make the net field is
    still 0: [setSmallCoilField] stores the share in another attribute,
    [smallFieldValue]. So the net field is not the sum of the two recorded
    shares. *)
Theorem setField_net_field_is_not_the_sum :
  on (bench_correction 10) (fun e =>
    exists e',
      CoilWithCorrection.setField 0.0035 e = Returns tt e' /\
      CoilWithCorrection.net_coil_field (obj e') = 0.0035%float /\
      Coil.coil_field (CoilWithCorrection.base (obj e')) = 0%float /\
      CoilWithCorrection.smallCoilField (obj e') = 0%float /\
      CoilWithCorrection.smallFieldValue (obj e') = Some 0.0035%float /\
      float_ne (CoilWithCorrection.net_coil_field (obj e'))
        (Coil.coil_field (CoilWithCorrection.base (obj e'))
         + CoilWithCorrection.smallCoilField (obj e'))%float = true).
Proof.
  vm_compute. eexists. repeat split.
Qed.

(** ** binary64 facts for the round trip of a current *)

(** Powers of two with a closed exponent, evaluated. *)
Ltac closed_exponent k :=
  match k with
  | context [?x] => is_var x; fail 1
  | _ => idtac
  end.

Ltac eval_pow :=
  repeat match goal with
  | H : context [2 ^ ?k] |- _ =>
      closed_exponent k;
      let v := eval vm_compute in (2 ^ k) in change (2 ^ k) with v in H
  | |- context [2 ^ ?k] =>
      closed_exponent k;
      let v := eval vm_compute in (2 ^ k) in change (2 ^ k) with v
  end.

(** The result of a rounding that shifts nothing out. *)
Ltac kept q e' :=
  match goal with
  | Keep : forall q e', _ -> _ -> _ -> _ = S754_finite false q e' |- ?P ?t =>
      replace t with (S754_finite false q e')
        by (symmetry;
            exact (Keep q e' ltac:(lia) ltac:(lia) ltac:(lia)))
  end;
  match goal with
  | Finite : forall q e', _ -> _ -> ?P (S754_finite false q e') |- _ =>
      apply Finite; lia
  end.

Section Binary64.

Lemma digits2_pos_size p : digits2_pos p = Pos.size p.
Proof. induction p as [p IH|p IH|]; cbn; now rewrite ?IH. Qed.

(** The number of binary digits of a positive number, from its bounds. *)
Lemma digits_of_bounds p d :
  2 ^ (d - 1) <= Zpos p < 2 ^ d -> 0 < d -> Zpos (digits2_pos p) = d.
Proof.
  intros [Lo Hi] Pd. rewrite digits2_pos_size.
  pose proof (Pos.size_gt p) as G. pose proof (Pos.size_le p) as L.
  apply Pos2Z.pos_lt_pos in G. apply Pos2Z.pos_le_pos in L.
  rewrite Pos2Z.inj_pow in G, L.
  change (Zpos 2) with 2 in *. change (Zpos p~0) with (2 * Zpos p) in L.
  set (s := Zpos (Pos.size p)) in *. assert (0 < s) by (subst s; lia).
  assert (d - 1 < s).
  { apply (Z.pow_lt_mono_r_iff 2); lia. }
  assert (s < d + 1).
  { apply (Z.pow_lt_mono_r_iff 2); try lia.
    replace (d + 1) with (Z.succ d) by lia. rewrite Z.pow_succ_r; lia. }
  lia.
Qed.

(** Shifting right by [n] bits leaves the quotient by [2^n]. *)
Lemma shr_1_m mrs : 0 <= shr_m mrs -> shr_m (shr_1 mrs) = shr_m mrs / 2.
Proof.
  destruct mrs as [m r s]. cbn [shr_m]. intros H. unfold shr_1.
  destruct m as [|p|p]; [reflexivity| |lia].
  destruct p as [p|p|]; cbn [shr_m].
  - apply Z.div_unique with 1; lia.
  - apply Z.div_unique with 0; lia.
  - reflexivity.
Qed.

Lemma iter_shr_1_m p : forall mrs,
  0 <= shr_m mrs ->
  shr_m (iter_pos shr_1 p mrs) = shr_m mrs / 2 ^ Zpos p.
Proof.
  assert (N : forall mrs, 0 <= shr_m mrs -> 0 <= shr_m (shr_1 mrs)).
  { intros mrs H. rewrite shr_1_m by exact H. apply Z.div_pos; lia. }
  induction p as [p IH|p IH|]; intros mrs H; cbn [iter_pos].
  - rewrite IH, IH, shr_1_m by (rewrite ?IH; auto; apply Z.div_pos; auto; lia).
    replace (2 ^ Z.pos p~1) with (2 * 2 ^ Z.pos p * 2 ^ Z.pos p).
    + rewrite <- !Z.div_div by lia. reflexivity.
    + replace (Z.pos p~1) with (1 + Z.pos p + Z.pos p) by lia.
      rewrite !Z.pow_add_r by lia. reflexivity.
  - rewrite IH, IH by (rewrite ?IH; auto; apply Z.div_pos; auto; lia).
    replace (2 ^ Z.pos p~0) with (2 ^ Z.pos p * 2 ^ Z.pos p).
    + rewrite <- !Z.div_div by lia. reflexivity.
    + replace (Z.pos p~0) with (Z.pos p + Z.pos p) by lia.
      rewrite !Z.pow_add_r by lia. reflexivity.
  - rewrite shr_1_m by exact H. reflexivity.
Qed.

Lemma round_nearest_even_near m l :
  round_nearest_even m l = m \/ round_nearest_even m l = m + 1.
Proof.
  unfold round_nearest_even. destruct l as [|[| |]]; auto.
  destruct (Z.even m); auto.
Qed.

(** Rounding a product to 53 bits, away from the subnormal and the overflow
    range: the result is finite, and within one unit of its last place. *)
Lemma binary_round_aux_near m e d :
  2 ^ (d - 1) <= Zpos m < 2 ^ d -> 53 < d ->
  -1074 <= e + d - 53 -> e + d - 53 < 971 ->
  exists mv ev,
    binary_round_aux prec emax false (Zpos m) e loc_Exact
    = S754_finite false mv ev /\
    (ev = e + (d - 53) \/ ev = e + (d - 53) + 1) /\
    Z.abs (Zpos mv * 2 ^ (ev - e) - Zpos m) <= 2 ^ (d - 53) /\
    2 ^ 52 <= Zpos mv < 2 ^ 53.
Proof.
  intros Bm Hd Hlo Hhi.
  unfold binary_round_aux, shr_fexp.
  cbn [Zdigits2]. rewrite (digits_of_bounds m d Bm) by lia.
  unfold fexp, emin, prec, emax.
  replace (Z.max (d + e - 53) (3 - 1024 - 53) - e) with (d - 53) by lia.
  destruct (d - 53) as [|n|n] eqn:En; try lia.
  unfold shr at 1. set (mrs := iter_pos shr_1 n _).
  assert (M1 : shr_m mrs = Zpos m / 2 ^ Zpos n).
  { subst mrs. rewrite iter_shr_1_m; cbn [shr_record_of_loc shr_m]; lia. }
  assert (P2 : 0 < 2 ^ Zpos n) by (apply Z.pow_pos_nonneg; lia).
  assert (Ed : 2 ^ d = 2 ^ 53 * 2 ^ Zpos n).
  { rewrite <- Z.pow_add_r by lia. f_equal. lia. }
  assert (Ed1 : 2 ^ (d - 1) = 2 ^ 52 * 2 ^ Zpos n).
  { rewrite <- Z.pow_add_r by lia. f_equal. lia. }
  pose proof (Z.div_mod (Zpos m) (2 ^ Zpos n) ltac:(lia)) as DM.
  pose proof (Z.mod_pos_bound (Zpos m) (2 ^ Zpos n) P2) as MB.
  set (m1 := Zpos m / 2 ^ Zpos n) in *.
  assert (B1 : 2 ^ 52 <= m1 < 2 ^ 53) by nia.
  destruct (round_nearest_even_near (shr_m mrs) (loc_of_shr_record mrs)) as [R|R];
    rewrite R, M1.
  - (* rounded down: the mantissa is [m1] *)
    destruct m1 as [|q|q] eqn:Eq; try lia.
    cbn [Zdigits2]. rewrite (digits_of_bounds q 53) by lia.
    replace (Z.max (53 + (e + Zpos n) - 53) (3 - 1024 - 53) - (e + Zpos n))
      with 0 by lia.
    cbn [shr shr_record_of_loc shr_m].
    destruct (Z.leb_spec (e + Zpos n) (1024 - 53)); [|lia].
    exists q, (e + Zpos n). split; [reflexivity|]. split; [now left|].
    split; [|exact B1].
    replace (e + Zpos n - e) with (Zpos n) by lia. nia.
  - (* rounded up: the mantissa is [m1 + 1], which may be [2^53] *)
    destruct (Z.eq_dec (m1 + 1) (2 ^ 53)) as [Top|NTop].
    + rewrite Top. change (2 ^ 53) with (Zpos (2 ^ 53)%positive) at 1 2.
      cbn [Zdigits2].
      rewrite (digits_of_bounds (2 ^ 53)%positive 54) by (cbn; lia).
      replace (Z.max (54 + (e + Zpos n) - 53) (3 - 1024 - 53) - (e + Zpos n))
        with 1 by lia.
      cbn [shr shr_record_of_loc iter_pos].
      change (shr_m (shr_1 {| shr_m := Zpos (2 ^ 53)%positive;
                              shr_r := false; shr_s := false |}))
        with (Zpos (2 ^ 52)%positive).
      destruct (Z.leb_spec (e + Zpos n + 1) (1024 - 53)); [|lia].
      exists (2 ^ 52)%positive, (e + Zpos n + 1).
      split; [reflexivity|]. split; [now right|]. split; [|cbn; lia].
      replace (e + Zpos n + 1 - e) with (1 + Zpos n) by lia.
      rewrite Z.pow_add_r by lia.
      change (Zpos (2 ^ 52)%positive * (2 ^ 1 * 2 ^ Zpos n))
        with (Zpos (2 ^ 52)%positive * (2 * 2 ^ Zpos n)).
      assert (Zpos (2 ^ 52)%positive * 2 = m1 + 1) by (rewrite Top; reflexivity).
      nia.
    + destruct (m1 + 1) as [|q|q] eqn:Eq; try lia.
      cbn [Zdigits2]. rewrite (digits_of_bounds q 53) by lia.
      replace (Z.max (53 + (e + Zpos n) - 53) (3 - 1024 - 53) - (e + Zpos n))
        with 0 by lia.
      cbn [shr shr_record_of_loc shr_m].
      destruct (Z.leb_spec (e + Zpos n) (1024 - 53)); [|lia].
      exists q, (e + Zpos n). split; [reflexivity|]. split; [now left|].
      split; [|lia].
      replace (e + Zpos n - e) with (Zpos n) by lia. nia.
Qed.

(** [round_scaled] is within half a unit of the scaled value. *)
Lemma round_scaled_near m e p :
  e < 0 ->
  0 <= round_scaled m e p /\
  2 * Z.abs (round_scaled m e p * 2 ^ (- e) - Zpos m * 10 ^ Z.of_N p)
  <= 2 ^ (- e).
Proof.
  intros He. unfold round_scaled.
  destruct (Z.leb_spec 0 e); [lia|].
  set (num := Zpos m * 10 ^ Z.of_N p). set (d := 2 ^ (- e)).
  assert (Pd : 0 < d) by (apply Z.pow_pos_nonneg; lia).
  assert (Pn : 0 <= num) by (subst num; apply Z.mul_nonneg_nonneg; [lia|apply Z.pow_nonneg; lia]).
  pose proof (Z.div_mod num d ltac:(lia)) as DM.
  pose proof (Z.mod_pos_bound num d Pd) as MB.
  assert (Pq : 0 <= num / d) by (apply Z.div_pos; lia).
  cbv zeta.
  destruct (Z.compare_spec (2 * (num mod d)) d) as [C|C|C].
  - destruct (Z.even (num / d)); split; nia.
  - split; nia.
  - split; nia.
Qed.

(** The order of two positive finite numbers. *)
Lemma SFleb_finite m1 e1 m2 e2 :
  SFleb (S754_finite false m1 e1) (S754_finite false m2 e2) = true ->
  e1 < e2 \/ (e1 = e2 /\ Zpos m1 <= Zpos m2).
Proof.
  unfold SFleb, SFcompare.
  destruct (Z.compare_spec e1 e2) as [E|E|E]; [|now left|discriminate].
  rewrite Pos.compare_cont_spec. cbn [Pos.switch_Eq].
  destruct (Pos.compare_spec m1 m2); try discriminate; right; lia.
Qed.

(** A current in the supply's range is a normal number. *)
Lemma range_finite c :
  (0.0001 <=? c)%float = true -> (c <=? 0.9999)%float = true ->
  exists mx ex,
    Prim2SF c = S754_finite false mx ex /\
    -66 <= ex <= -53 /\
    2 ^ 52 <= Zpos mx < 2 ^ 53 /\
    7378697629483821 <= Zpos mx * 2 ^ (ex + 66) /\
    Zpos mx * 2 ^ (ex + 66) <= 9006298534815518 * 2 ^ 13.
Proof.
  rewrite !leb_spec.
  change (Prim2SF 0.0001) with (S754_finite false 7378697629483821 (-66)).
  change (Prim2SF 0.9999) with (S754_finite false 9006298534815518 (-53)).
  pose proof (Prim2SF_valid c) as V.
  intros Lo Hi.
  destruct (Prim2SF c) as [s|s| |s m e].
  - destruct s; discriminate Lo.
  - destruct s; [discriminate Lo|discriminate Hi].
  - discriminate Lo.
  - destruct s; [discriminate Lo|].
    apply SFleb_finite in Lo, Hi.
    assert (Elo : -66 < e \/ (e = -66 /\ 7378697629483821 <= Zpos m)) by lia.
    assert (Ehi : e < -53 \/ (e = -53 /\ Zpos m <= 9006298534815518)) by lia.
    clear Lo Hi.
    unfold valid_binary, bounded, canonical_mantissa in V.
    apply andb_prop in V as [V _]. apply Z.eqb_eq in V.
    unfold fexp, SpecFloat.emin, prec, emax in V.
    assert (D : Zpos (digits2_pos m) = 53) by lia.
    rewrite digits2_pos_size in D.
    pose proof (Pos.size_gt m) as G. pose proof (Pos.size_le m) as L.
    apply Pos2Z.pos_lt_pos in G. apply Pos2Z.pos_le_pos in L.
    rewrite Pos2Z.inj_pow, D in G, L.
    change (Zpos 2) with 2 in *. change (Zpos m~0) with (2 * Zpos m) in L.
    exists m, e. split; [reflexivity|]. split; [lia|]. split; [lia|].
    assert (Pw : 2 ^ (e + 66) = 1 \/ 2 <= 2 ^ (e + 66) <= 2 ^ 12 \/
                 2 ^ (e + 66) = 2 ^ 13).
    { destruct (Z.eq_dec e (-66)) as [->|]; [now left|right].
      destruct (Z.eq_dec e (-53)) as [->|]; [now right|left].
      split.
      - change 2 with (2 ^ 1) at 1. apply Z.pow_le_mono_r; lia.
      - apply Z.pow_le_mono_r; lia. }
    assert (e = -66 -> 2 ^ (e + 66) = 1) by (intros ->; reflexivity).
    assert (e = -53 -> 2 ^ (e + 66) = 2 ^ 13) by (intros ->; reflexivity).
    assert (e <> -66 -> 2 <= 2 ^ (e + 66)).
    { intros. change 2 with (2 ^ 1) at 1. apply Z.pow_le_mono_r; lia. }
    assert (e <> -53 -> 2 ^ (e + 66) <= 2 ^ 12).
    { intros. apply Z.pow_le_mono_r; lia. }
    split; nia.
Qed.

(** A current in the supply's range, in milliamps: the product [c * 1e3]
    is finite, its tenths round to a number [n] from 1 to 9999, and [n]
    ten-thousandths are half a step from [c], up to the rounding of the
    product. The numbers are scaled by [2^110]. *)
Lemma scaled_current c :
  (0.0001 <=? c)%float = true -> (c <=? 0.9999)%float = true ->
  exists mc ec mx ex,
    Prim2SF c = S754_finite false mc ec /\ -66 <= ec <= -53 /\
    Prim2SF (c * 1e3)%float = S754_finite false mx ex /\
    1 <= round_scaled mx ex 1 <= 9999 /\
    Z.abs (round_scaled mx ex 1 * 2 ^ 110 - 10 ^ 4 * (Zpos mc * 2 ^ (ec + 110)))
    <= 2 ^ 109 + 2 ^ 71.
Proof.
  intros Lo Hi.
  destruct (range_finite c Lo Hi) as (mc & ec & Ec & Rec & Rmc & Blo & Bhi).
  exists mc, ec.
  rewrite mul_spec, Ec.
  change (Prim2SF 1e3) with (S754_finite false 8796093022208000 (-43)).
  unfold SF64mul, SFmul. cbn [xorb].
  assert (D : 2 ^ 104 <= Zpos (mc * 8796093022208000) < 2 ^ 105 \/
              2 ^ 105 <= Zpos (mc * 8796093022208000) < 2 ^ 106).
  { rewrite Pos2Z.inj_mul. eval_pow. lia. }
  assert (Cases : ec = -66 \/ ec = -65 \/ ec = -64 \/ ec = -63 \/ ec = -62 \/
                  ec = -61 \/ ec = -60 \/ ec = -59 \/ ec = -58 \/ ec = -57 \/
                  ec = -56 \/ ec = -55 \/ ec = -54 \/ ec = -53) by lia.
  destruct D as [D|D];
    [destruct (binary_round_aux_near (mc * 8796093022208000) (ec + -43) 105)
       as (mx & ex & -> & Ex & Near & Rmx)
    |destruct (binary_round_aux_near (mc * 8796093022208000) (ec + -43) 106)
       as (mx & ex & -> & Ex & Near & Rmx)];
    try (eval_pow; lia);
    exists mx, ex;
    (assert (Neg : ex < 0) by lia);
    destruct (round_scaled_near mx ex 1 Neg) as [Pn Rn];
    set (n := round_scaled mx ex 1) in *; clearbody n;
    change (Z.of_N 1) with 1 in Rn; rewrite Pos2Z.inj_mul in *;
    (split; [reflexivity|]); (split; [exact Rec|]); (split; [reflexivity|]);
    repeat (destruct Cases as [->|Cases]); try subst ec;
    destruct Ex as [->| ->]; eval_pow; lia.
Qed.

(** The distance of two positive numbers below one, from their mantissas
    scaled by [2^110]. *)
Lemma within_scaled (a b : positive) m1 e1 m2 e2 :
  -110 <= e1 < 0 -> -110 <= e2 < 0 ->
  Zpos b * Z.abs (Zpos m1 * 2 ^ (e1 + 110) - Zpos m2 * 2 ^ (e2 + 110))
  <= Zpos a * 2 ^ 110 ->
  (Qabs (value_of false m1 e1 - value_of false m2 e2) <= Zpos a # b)%Q.
Proof.
  intros R1 R2 H.
  destruct e1 as [|p1|p1]; try lia. destruct e2 as [|p2|p2]; try lia.
  cbn [value_of].
  set (A := 2 ^ Zpos p1). set (B := 2 ^ Zpos p2).
  set (A' := 2 ^ (Zneg p1 + 110)) in *. set (B' := 2 ^ (Zneg p2 + 110)) in *.
  assert (EA : A' * A = 2 ^ 110).
  { subst A A'. rewrite <- Z.pow_add_r by lia. f_equal. lia. }
  assert (EB : B' * B = 2 ^ 110).
  { subst B B'. rewrite <- Z.pow_add_r by lia. f_equal. lia. }
  assert (PA : 0 < A) by (apply Z.pow_pos_nonneg; lia).
  assert (PB : 0 < B) by (apply Z.pow_pos_nonneg; lia).
  set (T := 2 ^ 110) in *. assert (PT : 0 < T) by (subst T; lia).
  assert (K : T * (Zpos m1 * B - Zpos m2 * A)
              = (A * B) * (Zpos m1 * A' - Zpos m2 * B')).
  { rewrite <- EA at 1.
    replace (A * B * (Z.pos m1 * A' - Z.pos m2 * B'))
      with (Zpos m1 * B * (A' * A) - Zpos m2 * A * (B' * B)) by ring.
    rewrite EB, <- EA. ring. }
  assert (PAB : 0 < A * B) by lia.
  assert (G : Zpos b * Z.abs (Zpos m1 * B - Zpos m2 * A) <= Zpos a * (A * B)).
  { apply (Z.mul_le_mono_pos_l _ _ T PT).
    replace (T * (Zpos b * Z.abs (Z.pos m1 * B - Z.pos m2 * A)))
      with (Zpos b * Z.abs (T * (Zpos m1 * B - Zpos m2 * A))).
    - rewrite K, Z.abs_mul, (Z.abs_eq (A * B)) by lia.
      replace (T * (Zpos a * (A * B))) with ((A * B) * (Zpos a * T)) by ring.
      replace (Zpos b * (A * B * Z.abs (Z.pos m1 * A' - Z.pos m2 * B')))
        with ((A * B) * (Zpos b * Z.abs (Z.pos m1 * A' - Z.pos m2 * B')))
        by ring.
      apply Z.mul_le_mono_nonneg_l; [lia|exact H].
    - rewrite Z.abs_mul, (Z.abs_eq T) by lia. ring. }
  set (X := Zpos m1 * B - Zpos m2 * A) in *.
  assert (G' : - (Zpos a * (A * B)) <= Zpos b * X <= Zpos a * (A * B)).
  { destruct (Z.abs_spec X) as [[S E]|[S E]]; rewrite E in G; nia. }
  apply Qabs_Qle_condition.
  unfold Qle, Qminus, Qplus, Qopp. cbn [Qnum Qden].
  rewrite !Pos2Z.inj_mul, !Pos2Z.inj_pow.
  change (Zpos 2) with 2. fold A B.
  replace (Zpos m1 * B + - Zpos m2 * A) with X by (subst X; ring).
  lia.
Qed.

(** A number between two positive normal numbers is a positive normal
    number, with its exponent between theirs. *)
Lemma between_finite lo hi c mlo elo mhi ehi :
  Prim2SF lo = S754_finite false mlo elo ->
  Prim2SF hi = S754_finite false mhi ehi ->
  -1074 < elo ->
  (lo <=? c)%float = true -> (c <=? hi)%float = true ->
  exists m e,
    Prim2SF c = S754_finite false m e /\
    elo <= e <= ehi /\
    2 ^ 52 <= Zpos m < 2 ^ 53 /\
    (e = elo -> Zpos mlo <= Zpos m) /\
    (e = ehi -> Zpos m <= Zpos mhi).
Proof.
  intros Elo Ehi Normal. rewrite !leb_spec, Elo, Ehi.
  pose proof (Prim2SF_valid c) as V.
  intros Lo Hi.
  destruct (Prim2SF c) as [s|s| |s m e].
  - destruct s; discriminate Lo.
  - destruct s; [discriminate Lo|discriminate Hi].
  - discriminate Lo.
  - destruct s; [discriminate Lo|].
    apply SFleb_finite in Lo, Hi.
    unfold valid_binary, bounded, canonical_mantissa in V.
    apply andb_prop in V as [V _]. apply Z.eqb_eq in V.
    unfold fexp, SpecFloat.emin, prec, emax in V.
    assert (D : Zpos (digits2_pos m) = 53) by lia.
    rewrite digits2_pos_size in D.
    pose proof (Pos.size_gt m) as G. pose proof (Pos.size_le m) as L.
    apply Pos2Z.pos_lt_pos in G. apply Pos2Z.pos_le_pos in L.
    rewrite Pos2Z.inj_pow, D in G, L.
    change (Zpos 2) with 2 in *. change (Zpos m~0) with (2 * Zpos m) in L.
    exists m, e. split; [reflexivity|]. repeat split; lia.
Qed.

(** A voltage in the supply's range: its hundredths round to a number [n]
    from 1 to 9999, half a hundredth from it at most. The numbers are
    scaled by [2^59]. *)
Lemma scaled_voltage v :
  (0.01 <=? v)%float = true -> (v <=? 99.99)%float = true ->
  exists mv ev,
    Prim2SF v = S754_finite false mv ev /\ -59 <= ev <= -46 /\
    1 <= round_scaled mv ev 2 <= 9999 /\
    2 * Z.abs (round_scaled mv ev 2 * 2 ^ 59 - 100 * (Zpos mv * 2 ^ (ev + 59)))
    <= 2 ^ 59.
Proof.
  intros Lo Hi.
  destruct (between_finite 0.01 99.99 v 5764607523034235 (-59)
              7036170730324623 (-46) eq_refl eq_refl ltac:(lia) Lo Hi)
    as (mv & ev & Ev & Rev & Rmv & Blo & Bhi).
  exists mv, ev. split; [exact Ev|]. split; [exact Rev|].
  assert (Neg : ev < 0) by lia.
  destruct (round_scaled_near mv ev 2 Neg) as [Pn Rn].
  set (n := round_scaled mv ev 2) in *. clearbody n.
  change (10 ^ Z.of_N 2) with 100 in Rn.
  assert (Cases : ev = -59 \/ ev = -58 \/ ev = -57 \/ ev = -56 \/ ev = -55 \/
                  ev = -54 \/ ev = -53 \/ ev = -52 \/ ev = -51 \/ ev = -50 \/
                  ev = -49 \/ ev = -48 \/ ev = -47 \/ ev = -46) by lia.
  repeat (destruct Cases as [->|Cases]); try subst ev; eval_pow; lia.
Qed.

(** The distance of a positive number below one from zero. *)
Lemma within_zero (a b : positive) m e :
  -110 <= e < 0 ->
  Zpos b * (Zpos m * 2 ^ (e + 110)) <= Zpos a * 2 ^ 110 ->
  (Qabs (0 - value_of false m e) <= Zpos a # b)%Q.
Proof.
  intros R H. destruct e as [|p|p]; try lia. cbn [value_of].
  set (A := 2 ^ Zpos p). set (A' := 2 ^ (Zneg p + 110)) in *.
  assert (EA : A' * A = 2 ^ 110).
  { subst A A'. rewrite <- Z.pow_add_r by lia. f_equal. lia. }
  assert (PA : 0 < A) by (apply Z.pow_pos_nonneg; lia).
  assert (PA' : 0 < A') by (apply Z.pow_pos_nonneg; lia).
  rewrite <- EA in H.
  assert (G : Zpos b * Zpos m <= Zpos a * A).
  { apply (Z.mul_le_mono_pos_l _ _ A' PA'). 
    replace (A' * (Zpos b * Zpos m)) with (Zpos b * (Zpos m * A')) by ring.
    replace (A' * (Zpos a * A)) with (Zpos a * (A' * A)) by ring. exact H. }
  apply Qabs_Qle_condition.
  unfold Qle, Qminus, Qplus, Qopp. cbn [Qnum Qden].
  rewrite ?Pos2Z.inj_mul, ?Pos2Z.inj_pow.
  change (Zpos 2) with 2. fold A. lia.
Qed.

(** A current in the supply's range rounds to a number [k] of
    ten-thousandths from 1 to 9999. *)
Lemma ten_thousandths_range q :
  (0.0001 <=? q)%float = true -> (q <=? 0.9999)%float = true ->
  exists mq eq,
    Prim2SF q = S754_finite false mq eq /\
    1 <= round_scaled mq eq 4 <= 9999.
Proof.
  intros Lo Hi.
  destruct (range_finite q Lo Hi) as (mq & eq & Eq & Req & Rmq & Blo & Bhi).
  exists mq, eq. split; [exact Eq|].
  assert (Neg : eq < 0) by lia.
  destruct (round_scaled_near mq eq 4 Neg) as [Pn Rn].
  set (k := round_scaled mq eq 4) in *. clearbody k.
  change (10 ^ Z.of_N 4) with 10000 in Rn.
  assert (Cases : eq = -66 \/ eq = -65 \/ eq = -64 \/ eq = -63 \/ eq = -62 \/
                  eq = -61 \/ eq = -60 \/ eq = -59 \/ eq = -58 \/ eq = -57 \/
                  eq = -56 \/ eq = -55 \/ eq = -54 \/ eq = -53) by lia.
  repeat (destruct Cases as [->|Cases]); try subst eq; eval_pow; lia.
Qed.

(** The bounds a positive number has from its number of binary digits. *)
Lemma digits_bounds p :
  2 ^ (Zpos (digits2_pos p) - 1) <= Zpos p < 2 ^ Zpos (digits2_pos p).
Proof.
  rewrite digits2_pos_size.
  pose proof (Pos.size_gt p) as G. pose proof (Pos.size_le p) as L.
  apply Pos2Z.pos_lt_pos in G. apply Pos2Z.pos_le_pos in L.
  rewrite Pos2Z.inj_pow in G, L.
  change (Zpos 2) with 2 in *. change (Zpos p~0) with (2 * Zpos p) in L.
  split; [|exact G].
  replace (2 ^ Zpos (Pos.size p)) with (2 * 2 ^ (Zpos (Pos.size p) - 1)) in L.
  - lia.
  - rewrite <- Z.pow_succ_r by lia. f_equal. lia.
Qed.

(** Rounding a product below a power of two, [2^B], gives zero or a number
    that is [2^B] at most; the subnormal range is included. *)
Lemma binary_round_aux_below m e B :
  Zpos m < 2 ^ (B - e) -> -1074 <= B <= 0 ->
  binary_round_aux prec emax false (Zpos m) e loc_Exact = S754_zero false \/
  exists m' e',
    binary_round_aux prec emax false (Zpos m) e loc_Exact
    = S754_finite false m' e' /\
    e' <= B /\ Zpos m' <= 2 ^ (B - e').
Proof.
  intros Hm HB.
  assert (Pe : 0 < B - e).
  { destruct (Z.ltb_spec 0 (B - e)) as [|N]; [assumption|].
    destruct (Z.eq_dec (B - e) 0) as [E|E].
    - rewrite E in Hm. change (2 ^ 0) with 1 in Hm. lia.
    - rewrite Z.pow_neg_r in Hm by lia. lia. }
  destruct (digits_bounds m) as [Lo Hi].
  set (d := Zpos (digits2_pos m)) in *.
  assert (Pd : 0 < d) by (subst d; lia).
  assert (Hd : d + e <= B).
  { assert (d - 1 < B - e); [|lia].
    apply (Z.pow_lt_mono_r_iff 2); lia. }
  set (P := fun r =>
    r = S754_zero false \/
    exists m' e', r = S754_finite false m' e' /\ e' <= B /\
                  Zpos m' <= 2 ^ (B - e')).
  change (P (binary_round_aux prec emax false (Zpos m) e loc_Exact)).
  assert (Finite : forall q e', e' <= B -> Zpos q <= 2 ^ (B - e') ->
                                P (S754_finite false q e')).
  { intros q e' H1 H2. right. now exists q, e'. }
  unfold binary_round_aux, shr_fexp. cbn [Zdigits2]. fold d.
  unfold fexp, SpecFloat.emin, prec, emax.
  (* a number with no more than 53 digits, at an exponent that is not
     below the least, is left as it is *)
  assert (Keep : forall q e',
    Zpos q < 2 ^ 53 -> -1074 <= e' -> e' <= B ->
    (let '(mrs'', e'') :=
       shr (shr_record_of_loc (Zpos q) loc_Exact) e'
         (Z.max (Zpos (digits2_pos q) + e' - 53) (3 - 1024 - 53) - e') in
     match shr_m mrs'' with
     | 0 => S754_zero false
     | Zpos m0 =>
         if e'' <=? 1024 - 53 then S754_finite false m0 e''
         else S754_infinity false
     | Zneg _ => S754_nan
     end) = S754_finite false q e').
  { intros q e' Hq He' HeB.
    destruct (digits_bounds q) as [Lq _].
    assert (Zpos (digits2_pos q) <= 53).
    { assert (Zpos (digits2_pos q) - 1 < 53); [|lia].
      apply (Z.pow_lt_mono_r_iff 2); lia. }
    destruct (Z.max (Zpos (digits2_pos q) + e' - 53) (3 - 1024 - 53) - e')
      as [|p|p] eqn:Es; try lia;
      cbn [shr shr_record_of_loc shr_m];
      destruct (Z.leb_spec e' (1024 - 53)); try lia; reflexivity. }
  assert (M53 : d <= 53 -> Zpos m < 2 ^ 53).
  { intros L. apply Z.lt_le_trans with (2 ^ d); [exact Hi|].
    apply Z.pow_le_mono_r; lia. }
  destruct (Z.max (d + e - 53) (3 - 1024 - 53) - e) as [|p|p] eqn:Es.
  - (* nothing is shifted out *)
    kept m e.
  - (* [p] bits are shifted out *)
    unfold shr at 1. set (mrs := iter_pos shr_1 p _).
    assert (M1 : shr_m mrs = Zpos m / 2 ^ Zpos p).
    { subst mrs. rewrite iter_shr_1_m; cbn [shr_record_of_loc shr_m]; lia. }
    set (e' := e + Zpos p).
    assert (He' : -1074 <= e' <= B) by lia.
    assert (P2 : 0 < 2 ^ Zpos p) by (apply Z.pow_pos_nonneg; lia).
    assert (B1 : Zpos m / 2 ^ Zpos p < 2 ^ (B - e')).
    { apply Z.div_lt_upper_bound; [lia|].
      rewrite <- Z.pow_add_r by lia.
      replace (Zpos p + (B - e')) with (B - e) by lia. exact Hm. }
    assert (B2 : Zpos m / 2 ^ Zpos p < 2 ^ 53).
    { apply Z.div_lt_upper_bound; [lia|].
      rewrite <- Z.pow_add_r by lia.
      apply Z.lt_le_trans with (2 ^ d); [exact Hi|].
      apply Z.pow_le_mono_r; lia. }
    assert (B0 : 0 <= Zpos m / 2 ^ Zpos p) by (apply Z.div_pos; lia).
    set (m1 := Zpos m / 2 ^ Zpos p) in *.
    destruct (round_nearest_even_near (shr_m mrs) (loc_of_shr_record mrs))
      as [R|R]; rewrite R, M1.
    + (* rounded down *)
      destruct m1 as [|q|q] eqn:Eq; try lia.
      * left. cbn [Zdigits2].
        destruct (Z.max (0 + e' - 53) (3 - 1024 - 53) - e')
          as [|p'|p'] eqn:Es'; try lia; reflexivity.
      * kept q e'.
    + (* rounded up *)
      destruct (Z.eq_dec (m1 + 1) (2 ^ 53)) as [Top|NTop].
      * rewrite Top. change (2 ^ 53) with (Zpos (2 ^ 53)%positive) at 1 2.
        cbn [Zdigits2].
        rewrite (digits_of_bounds (2 ^ 53)%positive 54) by (cbn; lia).
        replace (Z.max (54 + e' - 53) (3 - 1024 - 53) - e') with 1 by lia.
        cbn [shr shr_record_of_loc iter_pos].
        change (shr_m (shr_1 {| shr_m := Zpos (2 ^ 53)%positive;
                                shr_r := false; shr_s := false |}))
          with (Zpos (2 ^ 52)%positive).
        assert (T : 53 <= B - e').
        { assert (52 < B - e'); [|lia].
          apply (Z.pow_lt_mono_r_iff 2); lia. }
        destruct (Z.leb_spec (e' + 1) (1024 - 53)); [|lia].
        apply Finite; [lia|].
        change (Zpos (2 ^ 52)%positive) with (2 ^ 52).
        apply Z.pow_le_mono_r; lia.
      * destruct (m1 + 1) as [|q|q] eqn:Eq; try lia.
        kept q e'.
  - (* a negative shift: nothing is shifted out *)
    kept m e.
Qed.

(** The mantissa and the exponent of a finite double. *)
Lemma finite_valid c s m e :
  Prim2SF c = S754_finite s m e ->
  Zpos m < 2 ^ 53 /\ -1074 <= e /\ (-1074 < e -> 2 ^ 52 <= Zpos m).
Proof.
  intros E. pose proof (Prim2SF_valid c) as V. rewrite E in V.
  unfold valid_binary, bounded, canonical_mantissa in V.
  apply andb_prop in V as [V _]. apply Z.eqb_eq in V.
  unfold fexp, SpecFloat.emin, prec, emax in V.
  destruct (digits_bounds m) as [Lo Hi].
  set (d := Zpos (digits2_pos m)) in *.
  assert (d <= 53) by lia.
  split; [|split; [lia|]].
  - apply Z.lt_le_trans with (2 ^ d); [exact Hi|].
    apply Z.pow_le_mono_r; lia.
  - intros N. assert (d = 53) by lia.
    replace 52 with (d - 1) by lia. exact Lo.
Qed.

(** The order of two positive finite numbers, when it fails. *)
Lemma SFleb_finite_false m1 e1 m2 e2 :
  SFleb (S754_finite false m1 e1) (S754_finite false m2 e2) = false ->
  e2 < e1 \/ (e1 = e2 /\ Zpos m2 < Zpos m1).
Proof.
  unfold SFleb, SFcompare.
  destruct (Z.compare_spec e1 e2) as [E|E|E]; [|discriminate|now left].
  rewrite Pos.compare_cont_spec. cbn [Pos.switch_Eq].
  destruct (Pos.compare_spec m1 m2); try discriminate. right. lia.
Qed.

(** A number that is neither below zero nor zero, and not above a finite
    one, is positive and finite. *)
Lemma positive_finite c hi :
  (0 <=? c)%float = true -> (c =? 0)%float = false ->
  (c <=? hi)%float = true -> (exists m e, Prim2SF hi = S754_finite false m e) ->
  exists m e, Prim2SF c = S754_finite false m e.
Proof.
  rewrite !leb_spec, eqb_spec. change (Prim2SF 0) with (S754_zero false).
  intros Lo Nz Hi (mh & eh & Eh). rewrite Eh in Hi.
  destruct (Prim2SF c) as [s|[]| |[] m e]; try discriminate.
  now exists m, e.
Qed.

(** The product of a small current and 1e3 is zero, or small. *)
Lemma small_product c mc ec B :
  Prim2SF c = S754_finite false mc ec ->
  Zpos mc < 2 ^ (B - 10 - ec) -> -1074 <= B <= 0 ->
  Prim2SF (c * 1e3)%float = S754_zero false \/
  exists mx ex,
    Prim2SF (c * 1e3)%float = S754_finite false mx ex /\
    ex <= B /\ Zpos mx <= 2 ^ (B - ex).
Proof.
  intros Ec Hm HB. rewrite mul_spec, Ec.
  change (Prim2SF 1e3) with (S754_finite false 8796093022208000 (-43)).
  unfold SF64mul, SFmul. cbn [xorb].
  apply binary_round_aux_below; [|exact HB].
  assert (Pe : 0 < B - 10 - ec).
  { destruct (Z.ltb_spec 0 (B - 10 - ec)) as [|N]; [assumption|].
    destruct (Z.eq_dec (B - 10 - ec) 0) as [E|E].
    - rewrite E in Hm. change (2 ^ 0) with 1 in Hm. lia.
    - rewrite Z.pow_neg_r in Hm by lia. lia. }
  replace (B - (ec + -43)) with ((B - 10 - ec) + 53) by lia.
  rewrite Z.pow_add_r, Pos2Z.inj_mul by lia.
  change (2 ^ 53) with 9007199254740992.
  assert (0 < 2 ^ (B - 10 - ec)) by (apply Z.pow_pos_nonneg; lia).
  nia.
Qed.

(** The tenths of a small number. *)
Lemma tenths_small mx ex B :
  ex <= B -> Zpos mx <= 2 ^ (B - ex) -> B <= -3 ->
  0 <= round_scaled mx ex 1 <= 1 /\
  (B <= -5 -> round_scaled mx ex 1 = 0).
Proof.
  intros He Hm HB. assert (Neg : ex < 0) by lia.
  destruct (round_scaled_near mx ex 1 Neg) as [Pn Rn].
  set (n := round_scaled mx ex 1) in *. clearbody n.
  change (10 ^ Z.of_N 1) with 10 in Rn.
  set (D := 2 ^ (B - ex)) in *.
  assert (PD : 0 < D) by (apply Z.pow_pos_nonneg; lia).
  assert (E : 2 ^ (- ex) = 2 ^ (- B) * D).
  { subst D. rewrite <- Z.pow_add_r by lia. f_equal. lia. }
  rewrite E in Rn.
  assert (P3 : 8 <= 2 ^ (- B)).
  { change 8 with (2 ^ 3). apply Z.pow_le_mono_r; lia. }
  set (T := 2 ^ (- B)) in *.
  split.
  - split; [lia|].
    destruct (Z.le_gt_cases n 1) as [|G]; [assumption|exfalso].
    assert (2 * (T * D) <= n * (T * D)) by nia.
    assert (10 * Zpos mx <= 10 * D) by lia.
    assert (8 * D <= T * D) by nia.
    lia.
  - intros B5.
    assert (P5 : 32 <= T).
    { subst T. change 32 with (2 ^ 5). apply Z.pow_le_mono_r; lia. }
    destruct (Z.le_gt_cases n 0) as [|G]; [lia|exfalso].
    assert (1 * (T * D) <= n * (T * D)) by nia.
    assert (32 * D <= T * D) by nia.
    lia.
Qed.

(** A positive number below [2^-14] is within a step of zero. *)
Lemma within_small m e :
  Zpos m < 2 ^ 53 -> e <= -67 ->
  (Qabs (0 - value_of false m e) <= 1 # 10000)%Q.
Proof.
  intros Hm He. destruct e as [|p|p]; try lia. cbn [value_of].
  assert (P : 2 ^ 67 <= 2 ^ Zpos p) by (apply Z.pow_le_mono_r; lia).
  apply Qabs_Qle_condition.
  unfold Qle, Qminus, Qplus, Qopp. cbn [Qnum Qden].
  rewrite ?Pos2Z.inj_mul, ?Pos2Z.inj_pow.
  change (Zpos 2) with 2.
  change (2 ^ 53) with 9007199254740992 in Hm.
  change (2 ^ 67) with 147573952589676412928 in P.
  set (A := 2 ^ Zpos p) in *. lia.
Qed.

End Binary64.

(** ** What the supply reads back of a current it has sent

    A current in range is sent as one of 9999 texts. Each of them is
    decoded here, the way [get_current] decodes the instrument's answer,
    and the number read is compared with the tenths sent. *)

(** ['%05.1f'] of a positive number whose tenths round to [n]. *)
Definition tenths_text (n : Z) : string := pad_left "0" 5 (fixed_digits n 1).

(** A byte of ASCII that does not end a message. *)
Definition plain (b : byte) : bool :=
  negb (is_stop b) && (Byte.to_N b <? 128)%N.

(** [p] holds of the [k] numbers from [n] on. *)
Fixpoint all_from (k : nat) (n : Z) (p : Z -> bool) : bool :=
  match k with
  | O => true
  | S k' => p n && all_from k' (n + 1) p
  end.

Lemma all_from_spec k : forall n p,
  all_from k n p = true -> forall i, n <= i < n + Z.of_nat k -> p i = true.
Proof.
  induction k as [|k IH]; intros n p H i R; [lia|].
  cbn [all_from] in H. apply andb_prop in H as [H0 H].
  destruct (Z.eq_dec i n) as [->|Ne]; [exact H0|].
  apply (IH (n + 1) p H). lia.
Qed.

Definition two66 : Z := Eval vm_compute in 2 ^ 66.
Definition two36 : Z := Eval vm_compute in 2 ^ 36.

(** [v] is [n] ten-thousandths, up to [2^-30] of one (the numbers are
    scaled by [2^66]). *)
Definition near_tenths (n : Z) (v : float) : bool :=
  match Prim2SF v with
  | S754_finite false mv ev =>
      (-66 <=? ev) && (ev <=? -53) &&
      (Z.abs (10000 * (Zpos mv * 2 ^ (ev + 66)) - n * two66) <=? two36)
  | _ => false
  end.

(** The text of [n] tenths of a milliamp can be framed, has five
    characters, and is read back as a number whose thousandth is [n]
    ten-thousandths. *)
Definition reads_back (n : Z) : bool :=
  let sent := bytearray (tenths_text n) in
  forallb plain sent && (List.length sent =? 5)%nat &&
  match @PowerSupply.decode_out unicode14 sent with
  | inr (PyFloat f) => near_tenths n (f * 1e-3)%float
  | _ => false
  end.

Lemma reads_back_table : all_from (Z.to_nat 9999) 1 reads_back = true.
Proof. vm_compute. reflexivity. Qed.

Lemma reads_back_all n : 1 <= n <= 9999 -> reads_back n = true.
Proof.
  intros R. apply (all_from_spec _ _ _ reads_back_table). lia.
Qed.

Lemma format_tenths x m e :
  Prim2SF x = S754_finite false m e ->
  format_f true 5 1 x = tenths_text (round_scaled m e 1).
Proof. intros E. unfold format_f. rewrite E. reflexivity. Qed.

(** ** What the supply reads back of a voltage it has sent

    A voltage in range is sent as one of 9999 texts of hundredths; what is
    read back of each is its tenths. *)

(** ['%05.2f'] of a positive number whose hundredths round to [n]. *)
Definition hundredths_text (n : Z) : string := pad_left "0" 5 (fixed_digits n 2).

Definition two56 : Z := Eval vm_compute in 2 ^ 56.
Definition two16 : Z := Eval vm_compute in 2 ^ 16.

(** [r] is [t] tenths, up to [2^-40] (the numbers are scaled by [2^56]). *)
Definition near_volts (t : Z) (r : float) : bool :=
  match Prim2SF r with
  | S754_zero false => t =? 0
  | S754_finite false mr er =>
      (-56 <=? er) && (er <=? -46) &&
      (Z.abs (10 * (Zpos mr * 2 ^ (er + 56)) - t * two56) <=? two16)
  | _ => false
  end.

Definition reads_tenths (n : Z) : bool :=
  let sent := bytearray (hundredths_text n) in
  forallb plain sent &&
  match @PowerSupply.decode_out unicode14 sent with
  | inr (PyFloat r) =>
      Leibniz.eqb r (float_of_decimal false (Z.to_N (n / 10)) 1) &&
      near_volts (n / 10) r
  | _ => false
  end.

Lemma reads_tenths_table : all_from (Z.to_nat 9999) 1 reads_tenths = true.
Proof. vm_compute. reflexivity. Qed.

(** ** What the coil caches and what the supply is sent *)

(** ['%5.4f'] of a positive number whose ten-thousandths round to [k]. *)
Definition ten_thousandths_text (k : Z) : string :=
  pad_left " " 5 (fixed_digits k 4).

(** The text of [k] ten-thousandths of an amp is read by [float] as the
    double nearest to them, and [set_current] sends that as [k] tenths of a
    milliamp. *)
Definition sends_same (k : Z) : bool :=
  let text := lit (ten_thousandths_text k) in
  forallb (fun c => (c <? 128)%N) text &&
  match @py_float unicode14 text with
  | Some c =>
      Leibniz.eqb c (float_of_decimal false (Z.to_N k) 4) &&
      match Prim2SF (c * 1e3)%float with
      | S754_finite false m e => round_scaled m e 1 =? k
      | _ => false
      end
  | None => false
  end.

Lemma sends_same_table : all_from (Z.to_nat 9999) 1 sends_same = true.
Proof. vm_compute. reflexivity. Qed.

(** * Further properties of the driver *)

(** ** Framing of the instrument's answer *)

Section Framing.
Context {U : UnicodeData}.

Lemma read_until_stop_payload payload : forall stop rest out,
  Forall (fun b => is_stop b = false) payload -> is_stop stop = true ->
  read_until_stop (payload ++ stop :: rest) out = Some (out ++ payload).
Proof.
  induction payload as [|b payload IH]; intros stop rest out Fp Hs.
  - cbn. rewrite Hs. now rewrite app_nil_r.
  - inversion Fp as [|? ? Hb Fp']; subst. cbn. rewrite Hb.
    rewrite IH by assumption. now rewrite <- app_assoc.
Qed.

Lemma read_until_stop_open payload : forall out,
  Forall (fun b => is_stop b = false) payload ->
  read_until_stop payload out = None.
Proof.
  induction payload as [|b payload IH]; intros out Fp; [reflexivity|].
  inversion Fp as [|? ? Hb Fp']; subst. cbn. rewrite Hb. now apply IH.
Qed.

Lemma read_message_skips noise rest :
  Forall (fun b => is_start b = false) noise ->
  read_message (noise ++ rest) = read_message rest.
Proof.
  induction 1 as [|b noise Hb _ IH]; [reflexivity|]. cbn. now rewrite Hb.
Qed.

(** The buffer [_write] reads from: what was waiting, then the answer to
    the command. *)
Definition arrived (command : list byte) (e : Env PowerSupply.t) (s : Serial.t)
  : list byte :=
  Serial.in_buffer s ++ device e (wire e ++ [command ++ [x0d]]).

Lemma reply_arrived command e s :
  PowerSupply.ser (obj e) = Some s ->
  reply command e = read_message (arrived command e s).
Proof. unfold reply, arrived. now intros ->. Qed.

Lemma ready_open e s :
  PowerSupply.ser (obj e) = Some s -> Serial.is_open s = true ->
  ready (obj e) = true.
Proof. unfold ready. now intros ->. Qed.

(** X1. [_write] decodes the payload of the first frame: when the bytes in
    the input buffer are some bytes without the start byte 0x13, the start
    byte, a payload without a stop byte, a stop byte (0x11 or the carriage
    return) and anything else, the message read is the payload; the bytes
    before the frame and after it are thrown away, and the buffer is left
    empty. *)
Theorem write_reads_first_frame (command : list byte) (e : Env PowerSupply.t)
  (s : Serial.t) (noise payload rest : list byte) (stop : byte) :
  PowerSupply.ser (obj e) = Some s -> Serial.is_open s = true ->
  arrived command e s = noise ++ x13 :: payload ++ stop :: rest ->
  Forall (fun b => is_start b = false) noise ->
  Forall (fun b => is_stop b = false) payload ->
  is_stop stop = true ->
  read_message (arrived command e s) = Some payload /\
  PowerSupply._write command e
  = result (PowerSupply.decode_out payload) (sent command e).
Proof.
  intros Es Eo A Fn Fp Hs.
  assert (R : read_message (arrived command e s) = Some payload).
  { rewrite A, read_message_skips by assumption. cbn [read_message].
    change (is_start x13) with true. cbv iota.
    now rewrite read_until_stop_payload. }
  split; [exact R|].
  rewrite _write_unfold, (ready_open e s Es Eo), (reply_arrived command e s Es).
  now rewrite R.
Qed.

(** X2. An answer without the start byte is no answer: [_write] reads the
    buffer to its end and returns the empty [bytearray], which the set
    commands take as success. *)
Theorem write_without_start_returns_empty (command : list byte)
  (e : Env PowerSupply.t) (s : Serial.t) :
  PowerSupply.ser (obj e) = Some s -> Serial.is_open s = true ->
  Forall (fun b => is_start b = false) (arrived command e s) ->
  PowerSupply._write command e = Returns (PyBytes []) (sent command e) /\
  acknowledged (PyBytes []) = inr tt.
Proof.
  intros Es Eo Fn. split; [|reflexivity].
  rewrite _write_unfold, (ready_open e s Es Eo), (reply_arrived command e s Es).
  rewrite <- (app_nil_r (arrived command e s)).
  rewrite read_message_skips by assumption. reflexivity.
Qed.

(** X3. A frame that is started and not ended never lets [_write] return:
    after the start byte, [read] is called until a stop byte or a carriage
    return comes, and the port has no timeout. *)
Theorem write_blocks_on_open_frame (command : list byte)
  (e : Env PowerSupply.t) (s : Serial.t) (noise payload : list byte) :
  PowerSupply.ser (obj e) = Some s -> Serial.is_open s = true ->
  arrived command e s = noise ++ x13 :: payload ->
  Forall (fun b => is_start b = false) noise ->
  Forall (fun b => is_stop b = false) payload ->
  PowerSupply._write command e = Blocks (sent command e).
Proof.
  intros Es Eo A Fn Fp.
  rewrite _write_unfold, (ready_open e s Es Eo), (reply_arrived command e s Es).
  rewrite A, read_message_skips by assumption. cbn [read_message].
  change (is_start x13) with true. cbv iota.
  now rewrite read_until_stop_open.
Qed.

End Framing.

(** A supply with its port open and nothing waiting, on a line whose far end
    answers every write with the same bytes. *)
Definition answering (answer : list byte) : Env PowerSupply.t :=
  mkEnv (PowerSupply.make (lit "/dev/ttyUSB0") true (Some (Serial.make true [])))
        [] (fun _ => answer).

(** Noise, then the frame of [12.3], then more: the query returns 12.3. *)
Lemma write_reads_first_frame_witness :
  arrived (bytearray "CURR?") (answering (bytearray "?" ++ x13 :: bytearray "12.3" ++ x11 :: bytearray "x"))
    (Serial.make true [])
  = bytearray "?" ++ x13 :: bytearray "12.3" ++ x11 :: bytearray "x" /\
  read_message
    (arrived (bytearray "CURR?")
       (answering (bytearray "?" ++ x13 :: bytearray "12.3" ++ x11 :: bytearray "x"))
       (Serial.make true []))
  = Some (bytearray "12.3") /\
  PowerSupply._write (bytearray "CURR?")
    (answering (bytearray "?" ++ x13 :: bytearray "12.3" ++ x11 :: bytearray "x"))
  = result (PowerSupply.decode_out (bytearray "12.3"))
      (sent (bytearray "CURR?")
         (answering (bytearray "?" ++ x13 :: bytearray "12.3" ++ x11 :: bytearray "x"))).
Proof.
  split; [reflexivity|].
  apply (write_reads_first_frame (bytearray "CURR?")
           (answering (bytearray "?" ++ x13 :: bytearray "12.3" ++ x11 :: bytearray "x"))
           (Serial.make true []) (bytearray "?") (bytearray "12.3")
           (bytearray "x") x11);
    try reflexivity; repeat constructor.
Defined.

(** A lone carriage return is no answer. *)
Lemma write_without_start_returns_empty_witness :
  Forall (fun b => is_start b = false)
    (arrived (bytearray "CURR 012.3") (answering [x0d]) (Serial.make true [])) /\
  PowerSupply._write (bytearray "CURR 012.3") (answering [x0d])
  = Returns (PyBytes []) (sent (bytearray "CURR 012.3") (answering [x0d])) /\
  acknowledged (PyBytes []) = inr tt.
Proof.
  assert (F : Forall (fun b => is_start b = false)
                (arrived (bytearray "CURR 012.3") (answering [x0d])
                   (Serial.make true [])))
    by (repeat constructor).
  split; [exact F|].
  exact (write_without_start_returns_empty (bytearray "CURR 012.3")
           (answering [x0d]) (Serial.make true []) eq_refl eq_refl F).
Defined.

(** The start byte and two digits, and no more. *)
Lemma write_blocks_on_open_frame_witness :
  arrived (bytearray "CURR?") (answering (x13 :: bytearray "12"))
    (Serial.make true [])
  = [] ++ x13 :: bytearray "12" /\
  PowerSupply._write (bytearray "CURR?") (answering (x13 :: bytearray "12"))
  = Blocks (sent (bytearray "CURR?") (answering (x13 :: bytearray "12"))).
Proof.
  split; [reflexivity|].
  apply (write_blocks_on_open_frame (bytearray "CURR?")
           (answering (x13 :: bytearray "12")) (Serial.make true [])
           [] (bytearray "12"));
    try reflexivity; repeat constructor.
Defined.

(** ** Operations and the port *)

Section Unguarded.
Context {U : UnicodeData}.
Import PowerSupply.

(** X4. [get_identifier] and [check_mode] do not open the port, unlike the
    four operations: on a supply whose port is not open they raise before
    anything is written, [AttributeError] when no port was ever opened (the
    attribute [ser] does not exist yet) and the port-not-open error of
    pyserial after a close. *)
Theorem queries_need_an_open_port (e : Env t) :
  ready (obj e) = false ->
  get_identifier e = Raises (unready_error (obj e)) e /\
  check_mode e = Raises (unready_error (obj e)) e /\
  (ser (obj e) = None ->
   unready_error (obj e) = AttributeError "PowerSupply" "ser") /\
  (forall s, ser (obj e) = Some s -> unready_error (obj e) = PortNotOpenError).
Proof.
  intros R. unfold get_identifier. rewrite check_mode_unfold.
  unfold STAT. rewrite !_write_unfold, R. unfold unready_error.
  repeat split.
  - now intros ->.
  - now intros s ->.
Qed.

Lemma get_current_wire e :
  wire (final (get_current e)) = wire (final (_write (command GetCurrent) (opened e))).
Proof.
  rewrite get_current_run.
  destruct (_write _ (opened e)) as [out e3|x e3|e3]; try reflexivity.
  destruct (measured out); [reflexivity|].
  cbn [final]. rewrite <- (finish_wire (portOpen (obj e)) e3).
  destruct (_automated_close _ e3); reflexivity.
Qed.

Lemma set_voltage_wire v e :
  wire (final (set_voltage v e))
  = wire (final (_write (command (SetVoltage v)) (opened e))).
Proof.
  rewrite set_voltage_run.
  destruct (_write _ (opened e)) as [out e3|x e3|e3]; try reflexivity.
  destruct (acknowledged out); [reflexivity|]. cbn [final].
  apply finish_wire.
Qed.

Lemma _write_wire command e :
  wire (final (_write command e)) = wire e \/
  wire (final (_write command e)) = wire e ++ [command ++ [x0d]].
Proof. destruct (_write_outcome command e); cbn [final]; auto. Qed.

(** X5. [set_voltage] and [get_current] are not guarded by the mode: all
    they ever write is their own command, never the mode query, and they
    never end in the incorrect-mode error. *)
Theorem unguarded_operations_ask_no_mode (op : operation) (e : Env t) :
  required_mode op = None ->
  (written (perform op) e = [] \/
   written (perform op) e = [command op ++ [x0d]]) /\
  (forall x e', perform op e = Raises x e' -> is_mode_error x = false).
Proof.
  intros Q. split.
  - unfold written.
    assert (W : wire (final (perform op e))
                = wire (final (_write (command op) (opened e)))).
    { destruct op; try discriminate; cbn [perform].
      - apply set_voltage_wire.
      - rewrite (final_bind_ret get_current (fun _ => tt)).
        apply get_current_wire. }
    rewrite W.
    destruct (_write_wire (command op) (opened e)) as [-> | ->];
      rewrite opened_wire.
    + left. apply skipn_all.
    + right. apply skipn_length_app.
  - intros x e'. destruct op; try discriminate; cbn [perform].
    + rewrite set_voltage_run.
      destruct (_write _ (opened e)) as [out e3|y e3|e3] eqn:W;
        try discriminate.
      * destruct (acknowledged out) as [y|[]] eqn:A.
        -- intros [= <- <-]. exact (acknowledged_no_mode_error _ _ A).
        -- apply finish_no_mode_error.
      * intros [= <- <-]. exact (_write_no_mode_error _ _ _ _ W).
    + bind_step. rewrite get_current_run.
      destruct (_write _ (opened e)) as [out e3|y e3|e3] eqn:W;
        try discriminate.
      * destruct (measured out) as [y|v] eqn:Mo.
        -- intros [= <- <-]. exact (measured_no_mode_error _ _ Mo).
        -- destruct (_automated_close _ e3) as [u e4|y e4|e4] eqn:F;
             try discriminate.
           intros [= <- <-]. exact (finish_no_mode_error _ _ _ _ F).
      * intros [= <- <-]. exact (_write_no_mode_error _ _ _ _ W).
Qed.

(** X6. A set command fails on a number: when the instrument answers
    [VOLT ...] with text that holds a number, [_write] returns a float,
    [len(out)] raises [TypeError], and the port [set_voltage] opened is
    left open. *)
Theorem set_voltage_fails_on_a_number (v f : float) (e e3 : Env t) :
  _write (command (SetVoltage v)) (opened e) = Returns (PyFloat f) e3 ->
  set_voltage v e
  = Raises (TypeError "object of type 'float' has no len()") e3 /\
  portOpen (obj e3) = true.
Proof.
  intros W. rewrite set_voltage_run, W. split; [reflexivity|].
  pose proof (keeps__write (command (SetVoltage v)) (opened e)) as [K _].
  rewrite W in K. cbn [final] in K. rewrite K. apply opened_portOpen.
Qed.

End Unguarded.

(** A supply that was never opened. *)
Lemma queries_need_an_open_port_witness :
  ready (obj (bench_supply "CC")) = false /\
  PowerSupply.get_identifier (bench_supply "CC")
  = Raises (AttributeError "PowerSupply" "ser") (bench_supply "CC") /\
  PowerSupply.check_mode (bench_supply "CC")
  = Raises (AttributeError "PowerSupply" "ser") (bench_supply "CC").
Proof.
  split; [reflexivity|].
  destruct (queries_need_an_open_port (bench_supply "CC") eq_refl)
    as (G & C & _).
  split; [exact G|exact C].
Defined.

(** [get_current] on the bench. *)
Lemma unguarded_operations_ask_no_mode_witness :
  required_mode GetCurrent = None /\
  (written (perform GetCurrent) (bench_supply "CV") = [] \/
   written (perform GetCurrent) (bench_supply "CV")
   = [command GetCurrent ++ [x0d]]).
Proof.
  split; [reflexivity|].
  exact (proj1 (unguarded_operations_ask_no_mode GetCurrent
                  (bench_supply "CV") eq_refl)).
Defined.

(** An instrument that answers the set command with its reading. *)
Lemma set_voltage_fails_on_a_number_witness :
  PowerSupply.set_voltage 12.5 (answering (x13 :: bytearray "12.5" ++ [x11]))
  = Raises (TypeError "object of type 'float' has no len()")
      (sent (command (SetVoltage 12.5))
         (answering (x13 :: bytearray "12.5" ++ [x11]))).
Proof.
  apply (set_voltage_fails_on_a_number 12.5 12.5
           (answering (x13 :: bytearray "12.5" ++ [x11]))).
  vm_compute. reflexivity.
Defined.

(** ** Text *)

Section TextFacts.
Context {U : UnicodeData}.

(** X7. Encoding an ASCII text and decoding it again gives the text back:
    [bytearray(s, 'utf-8').decode('utf-8') == s] for the commands and
    numbers the driver handles, all of whose characters are below 128. *)
Theorem utf8_decode_ascii (s : string) :
  Forall (fun b => (Byte.to_N b < 128)%N) (bytearray s) ->
  utf8_decode (bytearray s) = Some (lit s).
Proof.
  unfold lit, bytearray. generalize (list_byte_of_string s) as bs.
  induction bs as [|b bs IH]; intros F; [reflexivity|].
  inversion F as [|? ? Hb F']; subst. cbn [utf8_decode map].
  destruct (N.ltb_spec (Byte.to_N b) 128) as [_|Ge]; [|lia].
  now rewrite (IH F').
Qed.

(** X8. Every number [_write] returns is the float of a token [\d+\.\d]: a
    count of tenths with no sign. Whatever stands before the token in the
    answer (a minus sign, say) and whatever follows its one decimal (more
    decimals) has no part in the value. *)
Theorem write_returns_unsigned_tenths (out : list byte) (f : float) :
  PowerSupply.decode_out out = inr (PyFloat f) ->
  exists text t,
    utf8_decode out = Some text /\ first_token text t /\
    f = float_of_decimal false (digits_number t) 1.
Proof.
  unfold PowerSupply.decode_out.
  destruct (Nat.eqb (List.length out) 0); [discriminate|].
  destruct (utf8_decode out) as [text|]; [|discriminate].
  destruct (re_search text) as [t|] eqn:S; [|discriminate].
  pose proof (re_search_first text t S) as F.
  assert (T : is_token t) by (destruct F as (i & [T _] & _); exact T).
  rewrite (py_float_token t T). intros [= <-].
  exists text, t. repeat split; assumption.
Qed.

End TextFacts.

(** The text of a command. *)
Lemma utf8_decode_ascii_witness :
  Forall (fun b => (Byte.to_N b < 128)%N) (bytearray "CURR 012.3") /\
  utf8_decode (bytearray "CURR 012.3") = Some (lit "CURR 012.3").
Proof.
  assert (F : Forall (fun b => (Byte.to_N b < 128)%N) (bytearray "CURR 012.3"))
    by (repeat constructor).
  split; [exact F|exact (utf8_decode_ascii "CURR 012.3" F)].
Defined.

(** The answer [-12.34] is read as 12.3. *)
Lemma write_returns_unsigned_tenths_witness :
  PowerSupply.decode_out (bytearray "-12.34") = inr (PyFloat 12.3) /\
  exists text t,
    utf8_decode (bytearray "-12.34") = Some text /\ first_token text t /\
    12.3%float = float_of_decimal false (digits_number t) 1.
Proof.
  assert (D : PowerSupply.decode_out (bytearray "-12.34") = inr (PyFloat 12.3))
    by (vm_compute; reflexivity).
  split; [exact D|].
  exact (write_returns_unsigned_tenths (bytearray "-12.34") 12.3%float D).
Defined.

(** ** The coil and its cache *)

(** The cached field is the cached current times the gain. *)
Definition coherent (o : Coil.t) : Prop :=
  Coil.coil_field o = (Coil.current o * Coil.field_gain o)%float.

(** A coil of gain 1 T/A whose supply is in constant-voltage mode, so that
    every [set_current] is refused. *)
Definition bench_coil_wrong_mode : option (Env Coil.t) :=
  made (Coil.__init__ (lit "/dev/ttyUSB0") (ufloat.make 1 0)
          (Bench.line (Bench.make "CV" "00.00" "000.0"))).

Section CoilCache.
Context {U : UnicodeData}.
Import Coil.

Lemma zoom_obj {S T A} (get : T -> S) (set : S -> T -> T) (m : M S A) e :
  obj (final (zoom get set m e))
  = set (obj (final (m (mkEnv (get (obj e)) (wire e) (device e))))) (obj e).
Proof. unfold zoom. destruct (m _); reflexivity. Qed.

(** [set_coil_field] with a new field: the cache is written, then the
    supply is called. *)
Lemma set_coil_field_run x e :
  float_ne x (coil_field (obj e)) = true ->
  set_coil_field x e =
  if PrimFloat.eqb (field_gain (obj e)) 0 then Raises ZeroDivisionError e
  else
    match py_float (lit (format_f false 5 4 (x / field_gain (obj e)))) with
    | None => Raises (ValueError "could not convert string to float") e
    | Some c =>
        on_supply (PowerSupply.set_current c)
          (mkEnv (set_coil_field_attr (c * field_gain (obj e))
                    (set_current_attr c (obj e)))
                 (wire e) (device e))
    end.
Proof.
  intros N. unfold set_coil_field. bind_step.
  change (self e) with (Returns (obj e) e : outcome t t).
  cbv beta iota. rewrite N. bind_step. unfold py_div.
  destruct (PrimFloat.eqb (field_gain (obj e)) 0); [reflexivity|].
  change (ret ?a e) with (Returns a e : outcome t float).
  bind_step. unfold to_supply_precision.
  destruct (py_float _) as [c|]; [|reflexivity].
  change (ret c e) with (Returns c e : outcome t float).
  destruct e as [o w d]. reflexivity.
Qed.

(** X9. The cache of a coil is coherent: the cached field is the cached
    current times the gain after [__init__], and [set_coil_field] and
    [get_coil_field] keep it so however they end, also when the supply
    raises in the middle. [get_coil_field] returns the cached field. *)
Theorem coil_cache_is_coherent :
  (forall address gain line b e',
     __init__ address gain line = Returns b e' -> coherent b) /\
  (forall x e, coherent (obj e) -> coherent (obj (final (set_coil_field x e)))) /\
  (forall e, coherent (obj e) -> coherent (obj (final (get_coil_field e)))) /\
  (forall e v e', get_coil_field e = Returns v e' ->
     coherent (obj e') /\ v = coil_field (obj e')).
Proof.
  split; [|split; [|split]].
  - intros address gain line b e'. unfold __init__.
    destruct (PowerSupply.get_current _) as [c e0| |]; try discriminate.
    now intros [= <- _].
  - intros x e C. destruct (float_ne x (coil_field (obj e))) eqn:N.
    + rewrite (set_coil_field_run x e N).
      destruct (PrimFloat.eqb _ 0); [exact C|].
      destruct (py_float _) as [c|]; [|exact C].
      unfold on_supply. rewrite zoom_obj. reflexivity.
    + now rewrite (set_coil_field_cached x e N).
  - intros e C. unfold get_coil_field, on_supply. bind_step.
    unfold zoom.
    destruct (PowerSupply.get_current _) as [c e0|y e0|e0]; cbn; auto.
    reflexivity.
  - intros e v e'. unfold get_coil_field, on_supply. bind_step. unfold zoom.
    destruct (PowerSupply.get_current _) as [c e0|y e0|e0]; try discriminate.
    cbn. intros [= <- <-]. split; reflexivity.
Qed.

(** X10. [set_coil_field] writes its cache before it calls the supply. So
    when the supply refuses (it is in the wrong mode, say) the cache already
    holds the new current and field; and when the requested field is one the
    four decimals reproduce, a second call with the same field finds it
    cached, returns at once and sends nothing: the supply never gets the
    command. *)
Theorem set_coil_field_caches_before_it_writes (x c : float) (e : Env t) :
  float_ne x (coil_field (obj e)) = true ->
  PrimFloat.eqb (field_gain (obj e)) 0 = false ->
  py_float (lit (format_f false 5 4 (x / field_gain (obj e)))) = Some c ->
  current (obj (final (set_coil_field x e))) = c /\
  coil_field (obj (final (set_coil_field x e)))
  = (c * field_gain (obj e))%float /\
  (float_ne x (c * field_gain (obj e)) = false ->
   set_coil_field x (final (set_coil_field x e))
   = Returns tt (final (set_coil_field x e))).
Proof.
  intros N G P.
  assert (F : current (obj (final (set_coil_field x e))) = c /\
              coil_field (obj (final (set_coil_field x e)))
              = (c * field_gain (obj e))%float).
  { rewrite (set_coil_field_run x e N), G, P. unfold on_supply.
    rewrite zoom_obj. split; reflexivity. }
  destruct F as [F1 F2]. repeat split; try assumption.
  intros R. apply set_coil_field_cached. now rewrite F2.
Qed.

End CoilCache.

(** The cache on the bench: made by the constructor, then a field is set. *)
Lemma coil_cache_is_coherent_witness :
  on bench_coil (fun e =>
    coherent (obj e) /\
    coherent (obj (final (Coil.set_coil_field 0.00026 e)))).
Proof.
  assert (C : on bench_coil (fun e => coherent (obj e)))
    by (vm_compute; reflexivity).
  destruct bench_coil as [e|]; [|exact C]. cbn [on] in *.
  split; [exact C|].
  exact (proj1 (proj2 coil_cache_is_coherent) 0.00026%float e C).
Defined.

(** 0.5 T at 1 T/A with the supply in constant-voltage mode: the call
    raises, the cache holds 0.5 A and 0.5 T, and the second call returns. *)
Lemma set_coil_field_caches_before_it_writes_witness :
  on bench_coil_wrong_mode (fun e =>
    returned (Coil.set_coil_field 0.5 e) = false /\
    Coil.current (obj (final (Coil.set_coil_field 0.5 e))) = 0.5%float /\
    Coil.set_coil_field 0.5 (final (Coil.set_coil_field 0.5 e))
    = Returns tt (final (Coil.set_coil_field 0.5 e))).
Proof.
  assert (P : on bench_coil_wrong_mode (fun e =>
    returned (Coil.set_coil_field 0.5 e) = false /\
    float_ne 0.5 (Coil.coil_field (obj e)) = true /\
    PrimFloat.eqb (Coil.field_gain (obj e)) 0 = false /\
    py_float (lit (format_f false 5 4 (0.5 / Coil.field_gain (obj e))))
    = Some 0.5%float /\
    float_ne 0.5 (0.5 * Coil.field_gain (obj e)) = false))
    by (vm_compute; repeat split).
  destruct bench_coil_wrong_mode as [e|]; [|exact P]. cbn [on] in *.
  destruct P as (R & N & G & F & C).
  destruct (set_coil_field_caches_before_it_writes 0.5 0.5 e N G F)
    as (K1 & _ & K3).
  repeat split; [exact R|exact K1|exact (K3 C)].
Defined.

(** ** Reading the current, and making a coil *)

Section Construction.
Context {U : UnicodeData}.

(** A [get_current] that returns has written [CURR?] and nothing else, got
    a number for it, and returns a thousandth of that number. *)
Lemma get_current_returns e v e' :
  PowerSupply.get_current e = Returns v e' ->
  exists f,
    PowerSupply._write (command GetCurrent) (opened e)
    = Returns (PyFloat f) (sent (command GetCurrent) (opened e)) /\
    v = (f * 1e-3)%float /\
    wire e' = wire e ++ [command GetCurrent ++ [x0d]].
Proof.
  rewrite get_current_run.
  destruct (_write_outcome (command GetCurrent) (opened e))
    as [R|R Q|out x R Q D|out w R Q D]; try discriminate.
  destruct w as [b|f|s]; try discriminate. cbn [measured].
  pose proof (finish_wire (PowerSupply.portOpen (obj e))
                (sent (command GetCurrent) (opened e))) as FW.
  destruct (PowerSupply._automated_close _ _) as [[] e4|y e4|e4];
    try discriminate.
  intros [= <- <-]. exists f. repeat split.
  cbn [final] in FW. rewrite FW. cbn [sent wire]. now rewrite opened_wire.
Qed.

(** X11. Making a [Coil] asks the supply for its current once, with
    [CURR?] and without a mode query, and the port is left closed. The
    current it caches, in amps, is a thousandth of the number reported:
    of the float [_write] decodes from the message the instrument sends in
    answer to that [CURR?]; the field cached is that current times the
    gain. When the query raises or never returns, no coil is made. *)
Theorem coil_init_reads_the_current_once address gain line b e' :
  Coil.__init__ address gain line = Returns b e' ->
  wire e' = wire line ++ [command GetCurrent ++ [x0d]] /\
  PowerSupply.portOpen (Coil.supply b) = false /\
  ready (Coil.supply b) = false /\
  Coil.field_gain b = ufloat.n gain /\
  exists out f,
    read_message (device line (wire line ++ [command GetCurrent ++ [x0d]]))
    = Some out /\
    PowerSupply.decode_out out = inr (PyFloat f) /\
    Coil.current b = (f * 1e-3)%float /\
    Coil.coil_field b = (f * 1e-3 * ufloat.n gain)%float.
Proof.
  unfold Coil.__init__.
  set (fresh := mkEnv (PowerSupply.__init__ address) (wire line) (device line)).
  destruct (PowerSupply.get_current fresh) as [c e0| |] eqn:G; try discriminate.
  intros [= <- <-]. cbn [wire Coil.supply Coil.field_gain Coil.current Coil.coil_field].
  destruct (get_current_returns fresh c e0 G) as (f & Wr & -> & W).
  pose proof (perform_fresh GetCurrent fresh eq_refl) as F.
  cbn [perform] in F. unfold bind in F. rewrite G in F.
  destruct F as [F1 F2].
  repeat split; try assumption.
  rewrite _write_unfold in Wr.
  change (ready (obj (opened fresh))) with true in Wr. cbv iota in Wr.
  change (reply (command GetCurrent) (opened fresh))
    with (read_message
            (device line (wire line ++ [command GetCurrent ++ [x0d]]))) in Wr.
  destruct (read_message _) as [out|]; [|discriminate].
  exists out, f. split; [reflexivity|].
  destruct (PowerSupply.decode_out out) as [x|v]; [discriminate|].
  cbn [result] in Wr. injection Wr as ->. repeat split.
Qed.

End Construction.

(** The bench supply reports 000.0 mA: the coil caches 0 A. *)
Lemma coil_init_reads_the_current_once_witness :
  on bench_coil (fun e =>
    wire e = [command GetCurrent ++ [x0d]] /\
    PowerSupply.portOpen (Coil.supply (obj e)) = false /\
    Coil.current (obj e) = (0 * 1e-3)%float).
Proof.
  unfold bench_coil.
  destruct (Coil.__init__ (lit "/dev/ttyUSB0") (ufloat.make 1 0)
              (Bench.line (Bench.make "CC" "00.00" "000.0")))
    as [b e'| |] eqn:I; [|vm_compute in I; discriminate I..].
  destruct (coil_init_reads_the_current_once _ _ _ b e' I)
    as (W & P & _ & _ & out & f & R & D & C & _).
  cbn [made on obj wire]. split; [exact W|]. split; [exact P|].
  assert (O : read_message
                (device (Bench.line (Bench.make "CC" "00.00" "000.0"))
                   (wire (Bench.line (Bench.make "CC" "00.00" "000.0"))
                    ++ [command GetCurrent ++ [x0d]]))
              = Some (bytearray "000.0")) by (vm_compute; reflexivity).
  rewrite O in R. injection R as <-.
  assert (V : PowerSupply.decode_out (bytearray "000.0") = inr (PyFloat 0))
    by (vm_compute; reflexivity).
  rewrite V in D. injection D as <-. exact C.
Defined.

(** ** The correction coil inside the band *)

Section InsideBand.
Context {U : UnicodeData}.
Import CoilWithCorrection.

(** X12. Inside the band [setField] moves the small coil only: nothing is
    written to the supply, the large coil's attributes are untouched, the
    small coil's field is the target less the large coil's field, the DAC
    voltage is that field over the small coil's gain times the 250 V/A of
    the current source, and the net field is the target. *)
Theorem setField_inside_band_sets_small_coil (x : float) (e : Env t) :
  outside_band (obj e) (first_delta x (obj e)) = false ->
  PrimFloat.eqb (ufloat.n (smallCoilFieldGain (obj e))) 0 = false ->
  exists e',
    setField x e = Returns tt e' /\
    written (setField x) e = [] /\
    base (obj e') = base (obj e) /\
    smallFieldValue (obj e') = Some (x - Coil.coil_field (base (obj e)))%float /\
    dacVoltage (obj e')
    = ((x - Coil.coil_field (base (obj e)))
       / ufloat.n (smallCoilFieldGain (obj e))
       * float_of_int (voltageGain (obj e)))%float /\
    net_coil_field (obj e') = x.
Proof.
  intros B G. eexists. split; [exact (setField_inside x e B G)|].
  split; [apply setField_writes_nothing|]. repeat split.
Qed.

(** X13. A zero gain stops the field setters with [ZeroDivisionError]:
    [set_coil_field] before it has cached or written anything, and
    [setField], inside the band, after it has stored the small coil's field
    and before the DAC voltage and the net field are set. *)
Theorem zero_gain_raises :
  (forall x (e : Env Coil.t),
     float_ne x (Coil.coil_field (obj e)) = true ->
     PrimFloat.eqb (Coil.field_gain (obj e)) 0 = true ->
     Coil.set_coil_field x e = Raises ZeroDivisionError e) /\
  (forall x (e : Env t),
     outside_band (obj e) (first_delta x (obj e)) = false ->
     PrimFloat.eqb (ufloat.n (smallCoilFieldGain (obj e))) 0 = true ->
     exists e',
       setField x e = Raises ZeroDivisionError e' /\
       smallFieldValue (obj e') = Some (first_delta x (obj e)) /\
       dacVoltage (obj e') = dacVoltage (obj e) /\
       net_coil_field (obj e') = net_coil_field (obj e)).
Proof.
  split.
  - intros x e N G. now rewrite (set_coil_field_run x e N), G.
  - intros x e B G. unfold setField. rewrite setField_with_run. cbv zeta.
    rewrite B, setField_finish_run. cbv zeta. cbn [obj wire device].
    cbn [smallCoilFieldGain set_smallFieldValue]. rewrite G.
    eexists. split; [reflexivity|]. repeat split.
Qed.

End InsideBand.

(** The middle of the band on the bench: 0.0035 T at 10 T/A, the small coil
    at 0.01 T/A. *)
Lemma setField_inside_band_sets_small_coil_witness :
  on (bench_correction 10) (fun e =>
    outside_band (obj e) (first_delta 0.0035 (obj e)) = false /\
    exists e',
      CoilWithCorrection.setField 0.0035 e = Returns tt e' /\
      CoilWithCorrection.dacVoltage (obj e') = (0.0035 / 0.01 * 250)%float /\
      CoilWithCorrection.net_coil_field (obj e') = 0.0035%float).
Proof.
  assert (P : on (bench_correction 10) (fun e =>
    outside_band (obj e) (first_delta 0.0035 (obj e)) = false /\
    PrimFloat.eqb (ufloat.n (CoilWithCorrection.smallCoilFieldGain (obj e))) 0
    = false /\
    (0.0035 - Coil.coil_field (CoilWithCorrection.base (obj e))
     = 0.0035)%float /\
    ufloat.n (CoilWithCorrection.smallCoilFieldGain (obj e)) = 0.01%float /\
    float_of_int (CoilWithCorrection.voltageGain (obj e)) = 250%float))
    by (vm_compute; repeat split).
  destruct (bench_correction 10) as [e|]; [|exact P]. cbn [on] in *.
  destruct P as (B & G & D & Sg & Vg). split; [exact B|].
  destruct (setField_inside_band_sets_small_coil 0.0035 e B G)
    as (e' & R & _ & _ & _ & V & N).
  exists e'. split; [exact R|]. split; [|exact N].
  rewrite V, D, Sg, Vg. reflexivity.
Defined.

(** A coil of gain 0 T/A. *)
Lemma zero_gain_raises_witness :
  on (made (Coil.__init__ (lit "/dev/ttyUSB0") (ufloat.make 0 0)
              (Bench.line (Bench.make "CC" "00.00" "000.0"))))
     (fun e => Coil.set_coil_field 0.5 e = Raises ZeroDivisionError e).
Proof.
  assert (P : on (made (Coil.__init__ (lit "/dev/ttyUSB0") (ufloat.make 0 0)
                          (Bench.line (Bench.make "CC" "00.00" "000.0"))))
                (fun e => float_ne 0.5 (Coil.coil_field (obj e)) = true /\
                          PrimFloat.eqb (Coil.field_gain (obj e)) 0 = true))
    by (vm_compute; split; reflexivity).
  destruct (made _) as [e|]; [|exact P]. cbn [on] in *.
  destruct P as [N G]. exact (proj1 zero_gain_raises 0.5%float e N G).
Defined.

(** ** Setting a current and reading it back *)

(** *** Two Unicode tables agree on ASCII text *)

Definition ascii_text (s : str) : Prop := Forall (fun c => (c < 128)%N) s.

Section Agreement.
Context (U1 U2 : UnicodeData).

Lemma decimal_agree c : (c < 128)%N -> @decimal U1 c = @decimal U2 c.
Proof. intros H. now rewrite !decimal_ascii. Qed.

Lemma is_digit_agree c : (c < 128)%N -> @is_digit U1 c = @is_digit U2 c.
Proof. intros H. unfold is_digit. now rewrite (decimal_agree c H). Qed.

Lemma match_here_agree s :
  ascii_text s -> forall seen, @match_here U1 s seen = @match_here U2 s seen.
Proof.
  induction 1 as [|c r Hc Hr IH]; intros seen; [reflexivity|].
  cbn [match_here]. rewrite (is_digit_agree c Hc), IH.
  destruct (@is_digit U2 c); [reflexivity|].
  destruct (seen && (c =? 46)%N); [|reflexivity].
  destruct Hr as [|d r' Hd _]; [reflexivity|].
  now rewrite (is_digit_agree d Hd).
Qed.

Lemma re_search_agree s :
  ascii_text s -> @re_search U1 s = @re_search U2 s.
Proof.
  induction 1 as [|c r Hc Hr IH]; [reflexivity|].
  cbn [re_search]. rewrite match_here_agree by now constructor.
  now rewrite IH.
Qed.

Lemma digits_number_agree t :
  ascii_text t -> @digits_number U1 t = @digits_number U2 t.
Proof.
  intros A. unfold digits_number. generalize 0%N.
  induction A as [|c r Hc Hr IH]; intros acc; [reflexivity|].
  cbn [fold_left]. rewrite (decimal_agree c Hc). apply IH.
Qed.

(** An answer in ASCII is decoded alike under both. *)
Lemma decode_out_agree out text :
  utf8_decode out = Some text -> ascii_text text ->
  @PowerSupply.decode_out U1 out = @PowerSupply.decode_out U2 out.
Proof.
  intros D A. unfold PowerSupply.decode_out. rewrite D.
  destruct (Nat.eqb (List.length out) 0); [reflexivity|].
  pose proof (re_search_agree text A) as S.
  destruct (@re_search U2 text) as [t|] eqn:S2; rewrite S; [|reflexivity].
  pose proof (@re_search_first U1 text t S) as (i1 & [T1 _] & _).
  pose proof (@re_search_first U2 text t S2)
    as (i2 & [T2 (pre & post & E & _)] & _).
  rewrite (@py_float_token U1 t T1), (@py_float_token U2 t T2).
  unfold token_value. rewrite digits_number_agree; [reflexivity|].
  unfold ascii_text in A. rewrite E in A.
  apply Forall_app in A as [_ A]. apply Forall_app in A as [A _]. exact A.
Qed.

End Agreement.

Lemma utf8_decode_plain bs :
  forallb plain bs = true ->
  utf8_decode bs = Some (map Byte.to_N bs) /\ ascii_text (map Byte.to_N bs) /\
  Forall (fun b => is_stop b = false) bs.
Proof.
  induction bs as [|b bs IH]; intros F.
  - repeat split; constructor.
  - cbn [forallb] in F. apply andb_prop in F as [Pb F].
    unfold plain in Pb. apply andb_prop in Pb as [Sb Lb].
    destruct (IH F) as (D & A & S).
    cbn [utf8_decode map]. rewrite Lb, D. apply N.ltb_lt in Lb.
    repeat split; constructor; try assumption.
    now destruct (is_stop b).
Qed.

(** *** The bench instrument reports the current back *)

Section BenchFacts.
Import Bench.

(** The state of the bench instrument after a history of commands. *)
Definition state_after (st : state) (history : list (list byte)) : state :=
  fold_left (fun s w => fst (step s w)) history st.

Lemma run_last st w : forall history,
  run st (history ++ [w]) = step (state_after st history) w.
Proof.
  intros history. revert st.
  induction history as [|w0 h IH]; intros st.
  - cbn. now destruct (step st w).
  - cbn [app run].
    change (state_after st (w0 :: h)) with (state_after (fst (step st w0)) h).
    rewrite <- IH. destruct (step st w0) as [st' r]. cbn [fst]. now destruct h.
Qed.

Lemma command_of_line l : command_of (l ++ [x0d]) = Some (string_of_list_byte l).
Proof.
  unfold command_of. rewrite rev_app_distr. cbn. now rewrite rev_involutive.
Qed.

Lemma substring_all s : substring 0 (String.length s) s = s.
Proof. induction s as [|a s IH]; [reflexivity|]. cbn. now rewrite IH. Qed.

Lemma bench_reports_back st : reports_back (device st).
Proof.
  intros h value. unfold device.
  change (h ++ [?a; ?b]) with (h ++ [a] ++ [b]).
  rewrite app_assoc, run_last. unfold state_after.
  rewrite fold_left_app. cbn [fold_left].
  fold (state_after st h). set (s0 := state_after st h).
  unfold step at 2.
  change (bytearray "CURR " ++ value ++ [x0d])
    with ((bytearray "CURR " ++ value) ++ [x0d]).
  rewrite command_of_line.
  change (string_of_list_byte (bytearray "CURR " ++ value))
    with ("CURR " ++ string_of_list_byte value)%string.
  cbn [String.eqb Ascii.eqb Bool.eqb String.prefix append].
  unfold step. rewrite command_of_line.
  cbn. rewrite Nat.sub_0_r, substring_all.
  replace (prefix "" (string_of_list_byte value)) with true
    by (now destruct (string_of_list_byte value)).
  cbn [fst milliamps]. unfold frame.
  now rewrite list_byte_of_string_of_list_byte.
Qed.

End BenchFacts.

(** *** The round trip *)

Section RoundTrip.
Context {U : UnicodeData}.
Import PowerSupply.

(** After a [set_current] that returned, the port is open, or opens again
    on an empty buffer, and the line holds the mode query and the
    command. *)
Lemma after_set_current c e e1 :
  set_current c e = Returns tt e1 ->
  ready (obj (opened e1)) = true /\
  forall cmd,
    reply cmd (opened e1)
    = read_message
        (device e ((wire e ++ [STAT ++ [x0d]])
                   ++ [command (SetCurrent c) ++ [x0d]; cmd ++ [x0d]])).
Proof.
  intros H. rewrite set_current_run in H.
  pose proof (check_mode_outcome (opened e)) as Mo.
  destruct (check_mode (opened e)) as [mode e2| |] eqn:C; try discriminate.
  inversion Mo; subst.
  destruct (eq_str mode "CC"); [|discriminate].
  pose proof (_write_final_ready (command (SetCurrent c))
                (sent STAT (opened e)) eq_refl) as F.
  destruct (_write _ _) as [out e3| |]; try discriminate.
  cbn [final] in F. subst e3.
  destruct (acknowledged out); [discriminate|].
  rewrite finish_run in H.
  cbn [sent obj set_ser portOpen ready ser Serial.is_open] in H.
  rewrite opened_portOpen in H. cbn [negb] in H. rewrite orb_false_r in H.
  destruct (portOpen (obj e)) eqn:P; injection H as E; subst e1.
  - unfold opened at 1 3. cbn [sent obj set_ser portOpen].
    rewrite opened_portOpen.
    split; [reflexivity|]. intros cmd. unfold reply.
    cbn [sent obj set_ser ser wire device Serial.in_buffer app].
    rewrite opened_wire. unfold opened. rewrite P.
    now rewrite <- !app_assoc.
  - unfold opened at 1 3. cbn [closed obj portOpen].
    split; [reflexivity|]. intros cmd. unfold reply.
    cbn [closed sent obj set_ser ser wire device Serial.in_buffer app].
    rewrite opened_wire. unfold opened. rewrite P. cbn [device].
    now rewrite <- !app_assoc.
Qed.

(** What [get_current] returns after a [set_current] that sent [text]:
    a thousandth of the number the text decodes to. *)
Lemma get_after_set c e e1 text f :
  format_f true 5 1 (c * 1e3)%float = text ->
  forallb plain (bytearray text) = true ->
  @decode_out unicode14 (bytearray text) = inr (PyFloat f) ->
  reports_back (device e) ->
  set_current c e = Returns tt e1 ->
  exists e2, get_current e1 = Returns (f * 1e-3)%float e2.
Proof.
  intros Text Plain Out Dev Sc.
  destruct (utf8_decode_plain _ Plain) as (Dec & Asc & NoStop).
  rewrite <- (decode_out_agree U unicode14 _ _ Dec Asc) in Out.
  destruct (after_set_current c e e1 Sc) as (Ready & Reply).
  specialize (Reply (command GetCurrent)).
  assert (Cmd : command (SetCurrent c) ++ [x0d]
                = bytearray "CURR " ++ bytearray text ++ [x0d]).
  { unfold command. rewrite Text. reflexivity. }
  rewrite Cmd in Reply. unfold command at 2 in Reply.
  rewrite Dev in Reply.
  cbn [read_message] in Reply.
  change (is_start x13) with true in Reply. cbv iota in Reply.
  rewrite (read_until_stop_payload _ x11 [] [] NoStop eq_refl) in Reply.
  cbn [app] in Reply.
  rewrite get_current_run, _write_unfold, Ready, Reply, Out.
  cbn [result]. unfold ret. cbn [measured]. rewrite finish_run.
  assert (R3 : ready (obj (sent (command GetCurrent) (opened e1))) = true)
    by reflexivity.
  rewrite R3. destruct (_ || _); eexists; reflexivity.
Qed.

(** The text [set_current c] sends is one that can be framed, and the
    number it is read back as, times 1e-3, is within [tolerance] of [c]. *)
Definition read_to_within (tolerance : Q) (c : float) : Prop :=
  exists text f,
    format_f true 5 1 (c * 1e3)%float = text /\
    forallb plain (bytearray text) = true /\
    @decode_out unicode14 (bytearray text) = inr (PyFloat f) /\
    within tolerance (f * 1e-3)%float c.

Lemma read_back tolerance c e e1 :
  read_to_within tolerance c ->
  reports_back (device e) ->
  set_current c e = Returns tt e1 ->
  exists v e2, get_current e1 = Returns v e2 /\ within tolerance v c.
Proof.
  intros (text & f & Text & Plain & Out & W) Dev Sc.
  destruct (get_after_set c e e1 text f Text Plain Out Dev Sc) as [e2 G].
  now exists (f * 1e-3)%float, e2.
Qed.

Lemma within_weaken t t' x y : (t <= t')%Q -> within t x y -> within t' x y.
Proof.
  unfold within. intros L.
  destruct (exact x), (exact y); try exact (fun H => H).
  intros H. now apply Qle_trans with t.
Qed.

Lemma read_to_within_weaken t t' c :
  (t <= t')%Q -> read_to_within t c -> read_to_within t' c.
Proof.
  intros L (text & f & Text & Plain & Out & W).
  exists text, f. repeat split; try assumption.
  now apply within_weaken with t.
Qed.

(** A current that compares equal to zero is one of the two zeros. *)
Lemma zero_current c :
  (c =? 0)%float = true -> exists s, Prim2SF c = S754_zero s.
Proof.
  rewrite eqb_spec. change (Prim2SF 0) with (S754_zero false).
  destruct (Prim2SF c) as [s|[]| |[] m e]; try discriminate.
  intros _. now exists s.
Qed.

(** No current: the text is 000.0, or -00.0 for the negative zero, and is
    read back as 0. *)
Lemma no_current tolerance c :
  (0 <= tolerance)%Q -> (c =? 0)%float = true -> read_to_within tolerance c.
Proof.
  intros Pt Zero. destruct (zero_current c Zero) as [s Ec].
  assert (Ex : Prim2SF (c * 1e3) = S754_zero s).
  { rewrite mul_spec, Ec.
    change (Prim2SF 1e3) with (S754_finite false 8796093022208000 (-43)).
    now destruct s. }
  exists (if s then "-00.0"%string else "000.0"%string), 0%float.
  split; [unfold format_f; rewrite Ex; now destruct s|].
  split; [now destruct s|].
  split; [destruct s; vm_compute; reflexivity|].
  unfold within, exact. rewrite Ec.
  change (Prim2SF (0 * 1e-3)) with (S754_zero false). exact Pt.
Qed.

(** From the least step to the maximum: the text holds the tenths of a
    milliamp nearest to the current, and is read back as them. *)
Lemma range_current c :
  (0.0001 <=? c)%float = true -> (c <=? 0.9999)%float = true ->
  read_to_within (51 # 1000000) c.
Proof.
  intros Lo Hi.
  destruct (scaled_current c Lo Hi)
    as (mc & ec & mx & ex & Ec & Rec & Ex & Rn & Near).
  pose proof (format_tenths _ _ _ Ex) as Text.
  set (n := round_scaled mx ex 1) in *.
  pose proof (reads_back_all n Rn) as Back.
  unfold reads_back in Back. cbv zeta in Back.
  apply andb_prop in Back as [Plain Back].
  apply andb_prop in Plain as [Plain _].
  destruct (@decode_out unicode14 (bytearray (tenths_text n)))
    as [|[|f|]] eqn:Out; try discriminate.
  exists (tenths_text n), f. repeat split; try assumption.
  unfold within, exact. rewrite Ec. unfold near_tenths in Back.
  destruct (Prim2SF (f * 1e-3)) as [| | |[] mv ev]; try discriminate.
  apply andb_prop in Back as [Back B3]. apply andb_prop in Back as [B1 B2].
  apply Z.leb_le in B1, B2, B3. unfold two66, two36 in B3.
  assert (E : 2 ^ (ev + 110) = 2 ^ 44 * 2 ^ (ev + 66)).
  { rewrite <- Z.pow_add_r by lia. f_equal. lia. }
  apply within_scaled; lia.
Qed.

(** Below the least step: what is read back is 0 A or 0.0001 A, and either
    is within a step of the current. *)
Lemma small_current c mc ec :
  Prim2SF c = S754_finite false mc ec ->
  (0.0001 <=? c)%float = false ->
  read_to_within (1 # 10000) c.
Proof.
  intros Ec Hi. unfold read_to_within.
  destruct (finite_valid c false mc ec Ec) as (Hm & He & Hn).
  rewrite leb_spec, Ec in Hi.
  change (Prim2SF 0.0001) with (S754_finite false 7378697629483821 (-66)) in Hi.
  apply SFleb_finite_false in Hi.
  (* the two answers *)
  assert (None : exists text f,
            "000.0"%string = text /\
            forallb plain (bytearray text) = true /\
            @decode_out unicode14 (bytearray text) = inr (PyFloat f) /\
            Prim2SF (f * 1e-3) = S754_zero false).
  { exists "000.0"%string, 0%float. repeat split; vm_compute; reflexivity. }
  assert (One : exists text f,
            tenths_text 1 = text /\
            forallb plain (bytearray text) = true /\
            @decode_out unicode14 (bytearray text) = inr (PyFloat f) /\
            Prim2SF (f * 1e-3) = S754_finite false 7378697629483821 (-66)).
  { exists "000.1"%string, 0.1%float. repeat split; vm_compute; reflexivity. }
  destruct (0.000030517578125 <=? c)%float eqn:Lo;
    rewrite leb_spec, Ec in Lo;
    change (Prim2SF 0.000030517578125)
      with (S754_finite false 4503599627370496 (-67)) in Lo.
  - (* from [2^-15] on: no current or one step is sent *)
    apply SFleb_finite in Lo.
    assert (Cases : ec = -67 \/ ec = -66) by lia.
    assert (Zero : within (1 # 10000) (0 * 1e-3)%float c).
    { unfold within, exact. rewrite Ec.
      change (Prim2SF (0 * 1e-3)) with (S754_zero false).
      apply within_zero; [lia|].
      destruct Cases as [-> | ->]; eval_pow; lia. }
    destruct (small_product c mc ec (-3) Ec) as [Ex|(mx & ex & Ex & Rx & Bx)];
      [apply Z.lt_le_trans with (2 ^ 53); [exact Hm|];
       apply Z.pow_le_mono_r; lia|lia| |].
    + destruct None as (text & f & <- & Plain & Out & V).
      exists "000.0"%string, f. repeat split; try assumption.
      * unfold format_f. rewrite Ex. reflexivity.
      * unfold within, exact in *. now rewrite V.
    + destruct (tenths_small mx ex (-3) Rx Bx ltac:(lia)) as [Rn _].
      pose proof (format_tenths _ _ _ Ex) as Text.
      set (n := round_scaled mx ex 1) in *.
      assert (Cn : n = 0 \/ n = 1) by lia.
      destruct Cn as [En|En]; rewrite En in Text.
      * destruct None as (text & f & <- & Plain & Out & V).
        exists "000.0"%string, f. repeat split; try assumption.
        unfold within, exact in *. now rewrite V.
      * destruct One as (text & f & <- & Plain & Out & V).
        exists (tenths_text 1), f. repeat split; try assumption.
        unfold within, exact. rewrite V, Ec.
        apply within_scaled; try lia.
        destruct Cases as [-> | ->]; eval_pow; lia.
  - (* below [2^-15]: no current is sent *)
    apply SFleb_finite_false in Lo.
    assert (Zero : within (1 # 10000) (0 * 1e-3)%float c).
    { unfold within, exact. rewrite Ec.
      change (Prim2SF (0 * 1e-3)) with (S754_zero false).
      apply within_small; [exact Hm|lia]. }
    destruct None as (text & f & <- & Plain & Out & V).
    exists "000.0"%string, f.
    assert (W : within (1 # 10000) (f * 1e-3)%float c).
    { unfold within, exact in *. now rewrite V. }
    repeat split; try assumption.
    assert (Small : Zpos mc < 2 ^ (-5 - 10 - ec)).
    { destruct Lo as [Lo|[Lo Lm]].
      - apply Z.lt_le_trans with (2 ^ 53); [exact Hm|].
        apply Z.pow_le_mono_r; lia.
      - rewrite <- Lo. exact Lm. }
    destruct (small_product c mc ec (-5) Ec Small ltac:(lia))
      as [Ex|(mx & ex & Ex & Rx & Bx)].
    + unfold format_f. rewrite Ex. reflexivity.
    + destruct (tenths_small mx ex (-5) Rx Bx ltac:(lia)) as [_ Rn].
      rewrite (format_tenths _ _ _ Ex), Rn by lia. reflexivity.
Qed.

(** X14. A current that was set is read back to within half a step. For
    a current [c] that is zero or lies between 0.0001 A and 0.9999 A, on
    an instrument that reports back the value of the last [CURR] command:
    when [set_current(c)] returns, the [get_current()] that follows
    returns, and the number it returns is within 0.000051 A of [c] (as
    real numbers), so well within the quantization step of 0.1 mA. *)
Theorem set_then_get_current (c : float) (e e1 : Env t) :
  settable c = true -> reports_back (device e) ->
  set_current c e = Returns tt e1 ->
  exists v e2,
    get_current e1 = Returns v e2 /\ within (51 # 1000000) v c.
Proof.
  intros Range. apply read_back. unfold settable in Range.
  apply orb_prop in Range as [Zero|Range].
  - now apply no_current.
  - apply andb_prop in Range as [Lo Hi]. now apply range_current.
Qed.

(** C8. For every current [c] the supply accepts, from none to the maximum
    of 0.9999 A, on an instrument that stores the value of the [CURR]
    command and reports it back to the [CURR?] that follows: when
    [set_current(c)] returns, [get_current()] returns, and the number it
    returns is within one quantization step, 0.0001 A, of [c] (as real
    numbers). Below 0.1 mA what is read back is 0 A or 0.0001 A. *)
Theorem set_current_then_get_current (c : float) (e e1 : Env t) :
  accepted c = true -> reports_back (device e) ->
  set_current c e = Returns tt e1 ->
  exists v e2,
    get_current e1 = Returns v e2 /\ within (1 # 10000) v c.
Proof.
  intros Range. apply read_back. unfold accepted in Range.
  apply andb_prop in Range as [Lo Hi].
  destruct (c =? 0)%float eqn:Zero; [now apply no_current|].
  destruct (0.0001 <=? c)%float eqn:Step.
  - apply read_to_within_weaken with (51 # 1000000); [easy|].
    now apply range_current.
  - destruct (positive_finite c 0.9999 Lo Zero Hi) as (mc & ec & Ec).
    + now exists 9006298534815518%positive, (-53).
    + now apply small_current with mc ec.
Qed.

End RoundTrip.

(** A quarter of an amp on the bench, in constant-current mode. *)
Lemma set_then_get_current_witness :
  settable 0.25 = true /\
  match PowerSupply.set_current 0.25 (bench_supply "CC") with
  | Returns _ e1 =>
      exists v e2,
        PowerSupply.get_current e1 = Returns v e2 /\
        within (51 # 1000000) v 0.25
  | _ => False
  end.
Proof.
  split; [reflexivity|].
  destruct (PowerSupply.set_current 0.25 (bench_supply "CC"))
    as [[] e1| |] eqn:S; [|vm_compute in S; discriminate S..].
  apply (set_then_get_current 0.25 (bench_supply "CC") e1);
    [reflexivity|apply bench_reports_back|exact S].
Defined.

(** 0.07 mA on the bench, in constant-current mode. *)
Lemma set_current_then_get_current_witness :
  accepted 0.00007 = true /\
  match PowerSupply.set_current 0.00007 (bench_supply "CC") with
  | Returns _ e1 =>
      exists v e2,
        PowerSupply.get_current e1 = Returns v e2 /\
        within (1 # 10000) v 0.00007
  | _ => False
  end.
Proof.
  split; [reflexivity|].
  destruct (PowerSupply.set_current 0.00007 (bench_supply "CC"))
    as [[] e1| |] eqn:S; [|vm_compute in S; discriminate S..].
  apply (set_current_then_get_current 0.00007 (bench_supply "CC") e1);
    [reflexivity|apply bench_reports_back|exact S].
Defined.

(** ** Setting a voltage and reading it back *)

Section BenchVoltage.
Import Bench.

Lemma step_mode st w : mode (fst (step st w)) = mode st.
Proof.
  unfold step. destruct (command_of w) as [line|]; [|reflexivity].
  repeat match goal with
         | |- context [if ?b then _ else _] => destruct b
         end; reflexivity.
Qed.

Lemma state_after_mode st : forall history,
  mode (state_after st history) = mode st.
Proof.
  intros history. revert st.
  induction history as [|w h IH]; intros st; [reflexivity|].
  change (state_after st (w :: h)) with (state_after (fst (step st w)) h).
  now rewrite IH, step_mode.
Qed.

Lemma bench_reports_voltage_back st :
  mode st = "CV"%string -> reports_voltage_back (device st).
Proof.
  intros Mode h value. unfold device. split.
  - change (h ++ [?a; ?b]) with (h ++ [a] ++ [b]).
    rewrite app_assoc, run_last.
    assert (S : step (state_after st (h ++ [bytearray "VOLT " ++ value ++ [x0d]]))
                  (STAT ++ [x0d])
                = (state_after st (h ++ [bytearray "VOLT " ++ value ++ [x0d]]),
                   frame (mode (state_after st
                                  (h ++ [bytearray "VOLT " ++ value ++ [x0d]])))))
      by reflexivity.
    rewrite S. cbn [snd]. now rewrite state_after_mode, Mode.
  - change (h ++ [?a; ?b; ?c]) with (h ++ [a] ++ [b] ++ [c]).
    rewrite !app_assoc, run_last. rewrite <- app_assoc.
    unfold state_after. rewrite fold_left_app. cbn [fold_left app].
    fold (state_after st h). set (s0 := state_after st h).
    change (fst (step ?s (STAT ++ [x0d]))) with s.
    change (bytearray "VOLT " ++ value ++ [x0d])
      with ((bytearray "VOLT " ++ value) ++ [x0d]).
    unfold step at 2. rewrite command_of_line.
    change (string_of_list_byte (bytearray "VOLT " ++ value))
      with ("VOLT " ++ string_of_list_byte value)%string.
    cbn [String.eqb Ascii.eqb Bool.eqb String.prefix append].
    unfold step.
    change (bytearray "VOLT?" ++ [x0d]) with (bytearray "VOLT?" ++ [x0d]).
    rewrite command_of_line.
    cbn. rewrite Nat.sub_0_r, substring_all.
    replace (prefix "" (string_of_list_byte value)) with true
      by (now destruct (string_of_list_byte value)).
    cbn [fst volts]. unfold frame.
    now rewrite list_byte_of_string_of_list_byte.
Qed.

End BenchVoltage.

Section VoltageRoundTrip.
Context {U : UnicodeData}.
Import PowerSupply.

(** After a [set_voltage] that returned, the port is open, or opens again
    on an empty buffer, and the line holds the command. *)
Lemma after_set_voltage v e e1 :
  set_voltage v e = Returns tt e1 ->
  ready (obj (opened e1)) = true /\
  ser (obj (opened e1)) = Some (Serial.make true []) /\
  wire (opened e1) = wire e ++ [command (SetVoltage v) ++ [x0d]] /\
  device (opened e1) = device e.
Proof.
  intros H. rewrite set_voltage_run in H.
  destruct (_write_outcome (command (SetVoltage v)) (opened e))
    as [R|R Q|out x R Q D|out w R Q D]; try discriminate.
  destruct (acknowledged w); [discriminate|].
  rewrite finish_run in H.
  cbn [sent obj set_ser portOpen ready ser Serial.is_open] in H.
  rewrite opened_portOpen in H. cbn [negb] in H. rewrite orb_false_r in H.
  destruct (portOpen (obj e)) eqn:P; injection H as E; subst e1.
  - unfold opened at 1 3 5 7. cbn [sent obj set_ser portOpen].
    rewrite opened_portOpen. cbn [sent obj set_ser ser wire device].
    rewrite opened_wire. unfold opened. rewrite P. repeat split.
  - unfold opened at 1 3 5 7. cbn [closed obj portOpen].
    cbn [closed sent obj set_ser ser wire device].
    rewrite opened_wire. unfold opened. rewrite P. repeat split.
Qed.

(** The answer ["CV"] to the mode query. *)
Lemma decode_CV : decode_out (bytearray "CV") = inr (PyStr (lit "CV")).
Proof.
  rewrite (decode_out_agree U unicode14 _ (lit "CV")).
  - vm_compute. reflexivity.
  - reflexivity.
  - repeat constructor.
Qed.

(** X15. A voltage that was set is read back without its hundredths. For
    a voltage [v] between 0.01 V and 99.99 V, on an instrument in
    constant-voltage mode that reports back the value of the last [VOLT]
    command: [set_voltage(v)] sends [v] rounded to [n] hundredths, and when
    it returns, the [get_voltage()] that follows returns the float of
    [n // 10] tenths, the text sent cut after its first decimal, as the
    pattern [\d+\.\d] matches no more of it. So the number read is within
    0.1 V of [v], not within the 0.01 V that was set. *)
Theorem set_then_get_voltage (v : float) (e e1 : Env t) :
  settable_voltage v = true -> reports_voltage_back (device e) ->
  set_voltage v e = Returns tt e1 ->
  exists n r e2,
    1 <= n <= 9999 /\
    command (SetVoltage v) = bytearray ("VOLT " ++ hundredths_text n) /\
    get_voltage e1 = Returns (PyFloat r) e2 /\
    r = float_of_decimal false (Z.to_N (n / 10)) 1 /\
    within (1 # 10) r v.
Proof.
  intros Range Dev Sv. unfold settable_voltage in Range.
  apply andb_prop in Range as [Lo Hi].
  destruct (scaled_voltage v Lo Hi) as (mv & ev & Ev & Rev & Rn & Near).
  assert (Text : format_f true 5 2 v = hundredths_text (round_scaled mv ev 2)).
  { unfold format_f. rewrite Ev. reflexivity. }
  set (n := round_scaled mv ev 2) in *.
  pose proof (all_from_spec _ _ _ reads_tenths_table n ltac:(lia)) as Back.
  unfold reads_tenths in Back. cbv zeta in Back.
  apply andb_prop in Back as [Plain Back].
  destruct (utf8_decode_plain _ Plain) as (Dec & Asc & NoStop).
  destruct (@decode_out unicode14 (bytearray (hundredths_text n)))
    as [|[|r|]] eqn:Out; try discriminate.
  rewrite <- (decode_out_agree U unicode14 _ _ Dec Asc) in Out.
  apply andb_prop in Back as [Same Back].
  apply FloatAxioms.Leibniz.eqb_spec in Same.
  destruct (after_set_voltage v e e1 Sv) as (Ready & Ser & Wire & Device).
  assert (Cmd : command (SetVoltage v) ++ [x0d]
                = bytearray "VOLT " ++ bytearray (hundredths_text n) ++ [x0d]).
  { unfold command. rewrite Text. reflexivity. }
  destruct (Dev (wire e) (bytearray (hundredths_text n))) as [Mode Volts].
  (* the mode query *)
  assert (Q1 : reply STAT (opened e1) = Some (bytearray "CV")).
  { unfold reply. rewrite Ser, Wire, Device, Cmd. cbn [Serial.in_buffer app].
    rewrite <- app_assoc. cbn [app]. rewrite Mode. reflexivity. }
  assert (W1 : _write STAT (opened e1)
               = Returns (PyStr (lit "CV")) (sent STAT (opened e1))).
  { now rewrite _write_unfold, Ready, Q1, decode_CV. }
  (* the query of the voltage *)
  assert (Q2 : reply (command GetVoltage) (sent STAT (opened e1))
               = Some (bytearray (hundredths_text n))).
  { unfold reply. cbn [sent obj set_ser ser wire device Serial.in_buffer app].
    rewrite Wire, Device, Cmd. rewrite <- !app_assoc. cbn [app].
    unfold command. rewrite Volts. cbn [read_message].
    change (is_start x13) with true. cbv iota.
    now rewrite (read_until_stop_payload _ x11 [] [] NoStop eq_refl). }
  assert (W2 : _write (command GetVoltage) (sent STAT (opened e1))
               = Returns (PyFloat r)
                   (sent (command GetVoltage) (sent STAT (opened e1)))).
  { rewrite _write_unfold, Q2, Out. reflexivity. }
  exists n, r.
  rewrite get_voltage_run, check_mode_unfold, W1.
  change (eq_str (PyStr (lit "CV")) "CV") with true. cbn [orb]. cbv iota.
  rewrite W2. cbn [measured]. rewrite finish_run.
  assert (R3 : ready (obj (sent (command GetVoltage) (sent STAT (opened e1))))
               = true) by reflexivity.
  rewrite R3.
  assert (W : within (1 # 10) r v).
  { unfold within, exact. rewrite Ev. unfold near_volts in Back.
    pose proof (Z.div_mod n 10 ltac:(lia)) as DM.
    pose proof (Z.mod_pos_bound n 10 ltac:(lia)) as MB.
    clearbody n. set (t := n / 10) in *. clearbody t.
    destruct (Prim2SF r) as [[]| | |[] mr er]; try discriminate.
    - apply Z.eqb_eq in Back.
      assert (E : 2 ^ (ev + 110) = 2 ^ 51 * 2 ^ (ev + 59)).
      { rewrite <- Z.pow_add_r by lia. f_equal. lia. }
      apply within_zero; [lia|]. rewrite E. eval_pow. lia.
    - apply andb_prop in Back as [Back B3]. apply andb_prop in Back as [B1 B2].
      apply Z.leb_le in B1, B2, B3. unfold two56, two16 in B3.
      assert (E : 2 ^ (ev + 110) = 2 ^ 51 * 2 ^ (ev + 59)).
      { rewrite <- Z.pow_add_r by lia. f_equal. lia. }
      assert (E' : 2 ^ (er + 110) = 2 ^ 54 * 2 ^ (er + 56)).
      { rewrite <- Z.pow_add_r by lia. f_equal. lia. }
      apply within_scaled; lia. }
  destruct (_ || _); eexists; repeat split; try eassumption; try lia;
    unfold command; rewrite Text; reflexivity.
Qed.

End VoltageRoundTrip.

(** 12.34 V on the bench, in constant-voltage mode, is read back as
    12.3 V. *)
Lemma set_then_get_voltage_witness :
  settable_voltage 12.34 = true /\
  exists e1 e2,
    PowerSupply.set_voltage 12.34 (bench_supply "CV") = Returns tt e1 /\
    PowerSupply.get_voltage e1 = Returns (PyFloat 12.3) e2 /\
    within (1 # 10) 12.3 12.34.
Proof.
  split; [reflexivity|].
  set (e1 := final (PowerSupply.set_voltage 12.34 (bench_supply "CV"))).
  assert (S : PowerSupply.set_voltage 12.34 (bench_supply "CV") = Returns tt e1)
    by (vm_compute; reflexivity).
  assert (R : match PowerSupply.get_voltage e1 with
              | Returns (PyFloat f) _ => f
              | _ => 0%float
              end = 12.3%float) by (vm_compute; reflexivity).
  destruct (set_then_get_voltage 12.34 (bench_supply "CV") e1 eq_refl
              (bench_reports_voltage_back (Bench.make "CV" "00.00" "000.0") eq_refl) S)
    as (n & r & e2 & _ & _ & G & _ & W).
  rewrite G in R. subst r. exists e1, e2. repeat split; assumption.
Defined.

(** ** The current a coil caches and the current it sends *)

Section AgreementFloat.
Context (U1 U2 : UnicodeData).

Lemma decimal_digits_agree s :
  ascii_text s -> forall acc cnt,
  @decimal_digits U1 s acc cnt = @decimal_digits U2 s acc cnt.
Proof.
  induction 1 as [|c r Hc Hr IH]; intros acc cnt; [reflexivity|].
  cbn [decimal_digits]. rewrite (decimal_agree U1 U2 c Hc).
  destruct (@decimal U2 c); [apply IH|reflexivity].
Qed.

Lemma decimal_digits_rest (U : UnicodeData) s :
  ascii_text s -> forall acc cnt,
  ascii_text (snd (@decimal_digits U s acc cnt)).
Proof.
  induction 1 as [|c r Hc Hr IH]; intros acc cnt; [constructor|].
  cbn [decimal_digits].
  destruct (@decimal U c); [apply IH|now constructor].
Qed.

Lemma lstrip_ascii s : ascii_text s -> ascii_text (lstrip s).
Proof.
  induction 1 as [|c r Hc Hr IH]; [constructor|].
  cbn [lstrip]. destruct (c =? 32)%N; [exact IH|now constructor].
Qed.

Lemma py_float_agree s :
  ascii_text s -> @py_float U1 s = @py_float U2 s.
Proof.
  intros A. unfold py_float.
  assert (A1 : ascii_text (strip s)).
  { unfold strip. apply Forall_rev, lstrip_ascii, Forall_rev, lstrip_ascii, A. }
  set (s1 := strip s) in *. clearbody s1.
  destruct (signed s1) as [neg s2] eqn:Sg.
  assert (A2 : ascii_text s2).
  { unfold signed in Sg.
    destruct A1 as [|c r Hc Hr]; [injection Sg as _ <-; constructor|].
    destruct (c =? 45)%N; [now injection Sg as _ <-|].
    destruct (c =? 43)%N; injection Sg as _ <-; [assumption|now constructor]. }
  destruct (str_eqb s2 (lit "nan")); [reflexivity|].
  destruct (str_eqb s2 (lit "inf")); [reflexivity|].
  rewrite (decimal_digits_agree s2 A2).
  pose proof (decimal_digits_rest U2 s2 A2 0%N 0%N) as A3.
  destruct (@decimal_digits U2 s2 0%N 0%N) as [[ip ni] r].
  cbn [snd] in A3. destruct A3 as [|c r' Hc Hr]; [reflexivity|].
  destruct (c =? 46)%N; [|reflexivity].
  now rewrite (decimal_digits_agree r' Hr).
Qed.

End AgreementFloat.

Section CoilAndSupply.
Context {U : UnicodeData}.
Import Coil.

(** X16. The coil and the supply round alike. When [set_coil_field] is
    called with a new field whose current [x / field_gain] lies between
    0.0001 A and 0.9999 A, there is a number [k] of ten-thousandths of an
    amp, from 1 to 9999, such that the current cached (['%5.4f'], read
    back by [float]) is the double nearest to [k / 10000], and the only
    command the call can write besides the mode query is [CURR] with the
    same [k] as tenths of a milliamp (['%05.1f'] of the cached current
    times 1e3): the second rounding changes no digit. *)
Theorem coil_sends_what_it_caches (x : float) (e : Env t) :
  float_ne x (coil_field (obj e)) = true ->
  PrimFloat.eqb (field_gain (obj e)) 0 = false ->
  (0.0001 <=? x / field_gain (obj e))%float = true ->
  (x / field_gain (obj e) <=? 0.9999)%float = true ->
  exists k,
    1 <= k <= 9999 /\
    current (obj (final (set_coil_field x e)))
    = float_of_decimal false (Z.to_N k) 4 /\
    forall w, In w (written (set_coil_field x) e) ->
      w = STAT ++ [x0d] \/
      w = bytearray ("CURR " ++ tenths_text k) ++ [x0d].
Proof.
  intros N G Lo Hi.
  destruct (ten_thousandths_range _ Lo Hi) as (mq & eq & Eq & Rk).
  set (k := round_scaled mq eq 4) in *.
  assert (Text : format_f false 5 4 (x / field_gain (obj e))
                 = ten_thousandths_text k).
  { unfold format_f. rewrite Eq. reflexivity. }
  pose proof (all_from_spec _ _ _ sends_same_table k ltac:(lia)) as Same.
  unfold sends_same in Same. cbv zeta in Same.
  apply andb_prop in Same as [Asc Same].
  assert (A : ascii_text (lit (ten_thousandths_text k))).
  { apply Forall_forall. intros c Hc. rewrite forallb_forall in Asc.
    apply N.ltb_lt. now apply Asc. }
  rewrite <- (py_float_agree U unicode14 _ A) in Same.
  destruct (py_float (lit (ten_thousandths_text k))) as [c|] eqn:P;
    [|discriminate].
  apply andb_prop in Same as [Is Sent].
  apply FloatAxioms.Leibniz.eqb_spec in Is.
  destruct (Prim2SF (c * 1e3)) as [| | |[] m1 e1] eqn:Ec; try discriminate.
  apply Z.eqb_eq in Sent.
  assert (Cmd : command (SetCurrent c)
                = bytearray ("CURR " ++ tenths_text k)).
  { unfold command. now rewrite (format_tenths _ _ _ Ec), Sent. }
  exists k. split; [exact Rk|].
  unfold written.
  rewrite (set_coil_field_run x e N), G, Text, P. unfold on_supply.
  rewrite zoom_obj, zoom_final. cbn [obj wire device].
  split; [now rewrite <- Is|].
  set (E := mkEnv _ (wire e) (device e)).
  pose proof (guarded_wire (SetCurrent c) "CC" E eq_refl) as Wr.
  cbv zeta in Wr. cbn [perform] in Wr.
  change (wire E) with (wire e) in Wr.
  intros w Hw.
  destruct Wr as [Wr|[Wr|[Wr _]]]; rewrite Wr in Hw.
  - rewrite <- (app_nil_r (wire e)) in Hw at 2.
    rewrite skipn_length_app in Hw. destruct Hw.
  - rewrite skipn_length_app in Hw. destruct Hw as [<-|[]]. now left.
  - rewrite skipn_length_app in Hw.
    destruct Hw as [<-|[<-|[]]]; [now left|right]. now rewrite Cmd.
Qed.

End CoilAndSupply.

(** 0.1235 T at 1 T/A on the bench. *)
Lemma coil_sends_what_it_caches_witness :
  on bench_coil (fun e =>
    exists k,
      1 <= k <= 9999 /\
      Coil.current (obj (final (Coil.set_coil_field 0.1235 e)))
      = float_of_decimal false (Z.to_N k) 4 /\
      forall w, In w (written (Coil.set_coil_field 0.1235) e) ->
        w = STAT ++ [x0d] \/
        w = bytearray ("CURR " ++ tenths_text k) ++ [x0d]).
Proof.
  assert (P : on bench_coil (fun e =>
    float_ne 0.1235 (Coil.coil_field (obj e)) = true /\
    PrimFloat.eqb (Coil.field_gain (obj e)) 0 = false /\
    (0.0001 <=? 0.1235 / Coil.field_gain (obj e))%float = true /\
    (0.1235 / Coil.field_gain (obj e) <=? 0.9999)%float = true))
    by (vm_compute; repeat split).
  destruct bench_coil as [e|]; [|exact P]. cbn [on] in *.
  destruct P as (N & G & Lo & Hi).
  exact (coil_sends_what_it_caches 0.1235 e N G Lo Hi).
Defined.
